(** * Event management: the registration engine and its query surface

    A shallow embedding of
      - database/schema/001..006 (tables, CHECK constraints, row triggers and
        the PL/pgSQL functions [safe_event_registration] and
        [safe_event_unregistration]),
      - src/controllers/eventController.js (createEvent, getEventDetails,
        registerForEvent, cancelRegistration, getUpcomingEvents,
        getEventStats),
      - src/middleware/eventValidation.js (validateCreateEvent,
        validateUpcomingEventsQuery).

    Conventions.
      - Instants ([TIMESTAMP WITH TIME ZONE], JS [Date]) are integers:
        milliseconds since the epoch.  Every operation receives the reading
        [now] of the clock ([CURRENT_TIMESTAMP], [new Date()]).
      - SQL [INTEGER] columns are [Z].
      - [events] and [users] are finite maps from the primary key [id] to the
        remaining columns of the row; [registrations] is the list of rows in
        insertion order, each carrying its [SERIAL] id.
      - A PL/pgSQL [RAISE EXCEPTION], a constraint violation or a thrown JS
        error is a value of an error type; a statement that raises leaves the
        database as it was (the enclosing transaction or the function's
        EXCEPTION block rolls it back).
      - Columns that no modelled statement reads ([updated_at],
        [password_hash], [email]) and the audit log are left out. *)

From Stdlib Require Import Ascii String Sorted.
From stdpp Require Import gmap list strings.

Open Scope Z_scope.

(** ** PostgreSQL exceptions *)

Module Pg.

(** SQLSTATE values that the schema and the controllers tell apart.  A
    [RAISE EXCEPTION] without [USING ERRCODE] has SQLSTATE P0001. *)
Inductive sqlstate : Set :=
  | P0001 | P0002 | P0003 | P0004 | P0005
  | string_data_right_truncation   (* 22001 *)
  | foreign_key_violation          (* 23503 *)
  | unique_violation               (* 23505 *)
  | check_violation.               (* 23514 *)

Record exception : Set := Raise { sqlstate_of : sqlstate; sqlerrm : string }.

Inductive result (A : Type) : Type :=
  | Ok (a : A)
  | Exception (e : exception).
Arguments Ok {A} a.
Arguments Exception {A} e.

Definition bind {A B : Type} (c : result A) (k : A -> result B) : result B :=
  match c with
  | Ok a => k a
  | Exception e => Exception e
  end.

(** [IF cond THEN RAISE EXCEPTION ...; END IF;] *)
Definition raise_if (cond : bool) (code : sqlstate) (msg : string) : result unit :=
  if cond then Exception (Raise code msg) else Ok tt.

End Pg.
Import Pg.

Notation "'let*' x ':=' c 'in' k" := (Pg.bind c (fun x => k))
  (at level 10, x pattern, c at level 100, k at level 200).

(** ** Tables *)

Inductive reg_status : Set := confirmed | cancelled | waitlist | pending.

Definition reg_status_eqb (a b : reg_status) : bool :=
  match a, b with
  | confirmed, confirmed | cancelled, cancelled
  | waitlist, waitlist | pending, pending => true
  | _, _ => false
  end.

(** A row of [users], keyed by [id]. *)
Record user : Set := mkUser {
  name : string;
  user_is_active : bool
}.

(** A row of [events], keyed by [id]. *)
Record event : Set := mkEvent {
  title : string;
  description : option string;
  date_time : Z;
  location : option string;
  capacity : Z;
  current_registrations : Z;
  created_by : Z;
  is_active : bool;
  created_at : Z
}.

(** A row of [registrations]. *)
Record registration : Set := mkRegistration {
  reg_id : Z;
  user_id : Z;
  event_id : Z;
  registered_at : Z;
  status : reg_status
}.

Record db : Type := mkDb {
  users : gmap Z user;
  events : gmap Z event;
  registrations : list registration;
  events_id_seq : Z;              (* next values of the SERIAL sequences *)
  registrations_id_seq : Z
}.

Definition with_users (us : gmap Z user) (d : db) : db :=
  mkDb us (events d) (registrations d) (events_id_seq d) (registrations_id_seq d).

Definition with_events (evs : gmap Z event) (d : db) : db :=
  mkDb (users d) evs (registrations d) (events_id_seq d) (registrations_id_seq d).

Definition with_registrations (rs : list registration) (d : db) : db :=
  mkDb (users d) (events d) rs (events_id_seq d) (registrations_id_seq d).

Definition set_current_registrations (n : Z) (e : event) : event :=
  mkEvent (title e) (description e) (date_time e) (location e) (capacity e)
          n (created_by e) (is_active e) (created_at e).

Definition set_status (s : reg_status) (at_ : Z) (r : registration) : registration :=
  mkRegistration (reg_id r) (user_id r) (event_id r) at_ s.

(** [WHERE event_id = eid AND status = 'confirmed'] *)
Definition confirmed_for (eid : Z) (r : registration) : bool :=
  (event_id r =? eid) && reg_status_eqb (status r) confirmed.

(** [WHERE user_id = uid AND event_id = eid] *)
Definition row_of (uid eid : Z) (r : registration) : bool :=
  (user_id r =? uid) && (event_id r =? eid).

(** [SELECT COUNT( * ) FROM registrations
     WHERE event_id = eid AND status = 'confirmed'] *)
Definition count_confirmed (rs : list registration) (eid : Z) : Z :=
  Z.of_nat (length (List.filter (confirmed_for eid) rs)).

(** [LENGTH(TRIM(s)) = 0]: SQL [TRIM] strips spaces at both ends. *)
Fixpoint only_spaces (s : string) : bool :=
  match s with
  | EmptyString => true
  | String c s' => Ascii.eqb c " "%char && only_spaces s'
  end.

(** [LENGTH(s)], for text within ASCII, where characters and bytes
    coincide. *)
Definition sql_length (s : string) : Z := Z.of_nat (String.length s).

Definition opt_length (o : option string) : Z :=
  match o with Some s => sql_length s | None => 0 end.

(** ** The schema: constraints, triggers and stored functions *)

Module Schema.

Inductive tg_op : Set := INSERT | UPDATE | DELETE.

(** *** Table [events] (migration 002, triggers of 002 and 006) *)

(** 002: [validate_event_date()], BEFORE INSERT OR UPDATE ON events.  On
    INSERT there is no OLD row and the first comparison is not true. *)
Definition validate_event_date (now : Z) (old : option event) (new : event)
  : result event :=
  let* _ := raise_if
      match old with
      | Some o => (date_time o <=? now) && negb (date_time new =? date_time o)
      | None => false
      end P0001 "Cannot change date/time of past events" in
  let* _ := raise_if (date_time new <=? now)
      P0001 "Event date/time must be in the future" in
  Ok new.

Definition blank_to_null (o : option string) : option string :=
  match o with
  | Some s => if only_spaces s then None else Some s
  | None => None
  end.

(** 006: [validate_event_data()], BEFORE INSERT OR UPDATE ON events.
    [TG_OP] is INSERT when there is no OLD row and UPDATE otherwise. *)
Definition validate_event_data (now : Z) (old : option event) (new : event)
  : result event :=
  let* _ := raise_if (only_spaces (title new))
      P0001 "Event title cannot be empty or just whitespace" in
  let* _ := raise_if
      match old with
      | None => date_time new <=? now
      | Some _ => false
      end P0001 "Event date must be in the future" in
  let* _ := raise_if
      match old with
      | Some o => negb (date_time o =? date_time new) && (date_time o <=? now)
      | None => false
      end P0001 "Cannot change date of past events" in
  let* _ := raise_if
      match old with
      | Some o => negb (date_time o =? date_time new) && (date_time new <=? now)
      | None => false
      end P0001 "New event date must be in the future" in
  let* _ := raise_if ((capacity new <=? 0) || (capacity new >? 10000))
      P0001 "Event capacity must be between 1 and 10000" in
  let* _ := raise_if
      match old with
      | Some o => capacity new <? current_registrations o
      | None => false
      end P0001 "Cannot reduce capacity below current registrations (%))" in
  let* _ := raise_if (current_registrations new <? 0)
      P0001 "Current registrations cannot be negative" in
  let* _ := raise_if (current_registrations new >? capacity new)
      P0001 "Current registrations (%) cannot exceed capacity (%)" in
  Ok (mkEvent (title new) (blank_to_null (description new)) (date_time new)
              (blank_to_null (location new)) (capacity new)
              (current_registrations new) (created_by new) (is_active new)
              (created_at new)).

(** 002: the CHECK constraints of [events], in the order of their names.  The
    message is the name of the violated constraint ([error.constraint]). *)
Definition events_check_constraints (now : Z) (new : event) : result unit :=
  let* _ := raise_if (negb ((0 <? capacity new) && (capacity new <=? 1000)))
      check_violation "events_capacity_check" in
  let* _ := raise_if (negb (current_registrations new <=? capacity new))
      check_violation "events_capacity_registrations" in
  let* _ := raise_if (negb (0 <=? current_registrations new))
      check_violation "events_current_registrations_check" in
  let* _ := raise_if (negb (opt_length (description new) <=? 10000))
      check_violation "events_description_length" in
  let* _ := raise_if (negb (now <? date_time new))
      check_violation "events_future_date" in
  let* _ := raise_if (negb (opt_length (location new) <=? 500))
      check_violation "events_location_length" in
  let* _ := raise_if (only_spaces (title new))
      check_violation "events_title_check" in
  let* _ := raise_if
      (negb ((1 <=? sql_length (title new)) && (sql_length (title new) <=? 500)))
      check_violation "events_title_length" in
  let* _ := raise_if (negb ((1 <=? capacity new) && (capacity new <=? 1000)))
      check_violation "events_valid_capacity" in
  Ok tt.

(** What a row of [events] goes through when it is written: the BEFORE row
    triggers in the order of their names ([trigger_events_date_validation],
    [trigger_validate_event_data]; [trigger_events_updated_at] only touches
    [updated_at]), then the CHECK constraints. *)
Definition events_write_row (now : Z) (old : option event) (new : event)
  : result event :=
  let* new1 := validate_event_date now old new in
  let* new2 := validate_event_data now old new1 in
  let* _ := events_check_constraints now new2 in
  Ok new2.

(** [UPDATE events SET current_registrations = n WHERE id = eid] *)
Definition update_current_registrations (now eid n : Z) (d : db) : result db :=
  match events d !! eid with
  | None => Ok d
  | Some old =>
      let* new := events_write_row now (Some old) (set_current_registrations n old) in
      Ok (with_events (<[eid := new]> (events d)) d)
  end.

(** [INSERT INTO events (title, description, date_time, location, capacity,
     created_by) VALUES (...) RETURNING *]: [current_registrations] defaults
    to 0, [is_active] to true, [created_at] to CURRENT_TIMESTAMP. *)
Definition insert_event (now : Z) (ttl : string) (descr : option string)
    (dt : Z) (loc : option string) (cap : Z) (owner : Z) (d : db)
  : result (Z * event * db) :=
  let* _ := raise_if ((sql_length ttl >? 500) || (opt_length loc >? 500))
      string_data_right_truncation "value too long for type character varying(500)" in
  let* row := events_write_row now None
      (mkEvent ttl descr dt loc cap 0 owner true now) in
  let* _ := raise_if (negb (bool_decide (is_Some (users d !! owner))))
      foreign_key_violation "events_created_by_fkey" in
  let id := events_id_seq d in
  Ok (id, row, mkDb (users d) (<[id := row]> (events d)) (registrations d)
                    (id + 1) (registrations_id_seq d)).

(** *** Table [registrations] (migration 003, triggers of 003 and 006) *)

(** 003: [update_event_registration_count()], AFTER INSERT / UPDATE / DELETE
    ON registrations FOR EACH ROW.  [eid] is [NEW.event_id] ([OLD.event_id]
    for DELETE).  An AFTER row trigger sees the table as the statement left
    it, so on INSERT the new row is already counted in [current_count].
    [SELECT capacity INTO event_capacity] leaves NULL when no event has that
    id, and [current_count >= NULL] is not true. *)
Definition update_event_registration_count (now : Z) (op : tg_op) (eid : Z)
    (d : db) : result db :=
  let current_count := count_confirmed (registrations d) eid in
  match op with
  | INSERT =>
      let event_capacity := capacity <$> (events d !! eid) in
      let* _ := raise_if
          match event_capacity with
          | Some c => current_count >=? c
          | None => false
          end P0001 "Event has reached maximum capacity of %" in
      update_current_registrations now eid current_count d
  | UPDATE | DELETE =>
      update_current_registrations now eid current_count d
  end.

(** 003: [validate_event_registration()], BEFORE INSERT ON registrations. *)
Definition validate_event_registration (now eid : Z) (d : db) : result unit :=
  match events d !! eid with
  | None => Exception (Raise P0001 "Event does not exist")
  | Some e =>
      let* _ := raise_if (negb (is_active e))
          P0001 "Cannot register for inactive event" in
      raise_if (date_time e <=? now) P0001 "Cannot register for past events"
  end.

(** 006: [validate_registration_data()], BEFORE INSERT OR UPDATE ON
    registrations; [uid], [eid], [st] are the columns of NEW.  The last test
    of the function (status outside the four known values) cannot fire on a
    [reg_status]. *)
Definition validate_registration_data (now uid eid : Z) (st : reg_status)
    (d : db) : result unit :=
  match events d !! eid with
  | None => Exception (Raise P0001 "Event with ID % does not exist")
  | Some e =>
      let* _ := raise_if (negb (is_active e))
          P0001 "Cannot register for inactive event" in
      match users d !! uid with
      | None => Exception (Raise P0001 "User with ID % does not exist")
      | Some u =>
          let* _ := raise_if (negb (user_is_active u))
              P0001 "Cannot register inactive user" in
          let* _ := raise_if (date_time e <=? now)
              P0001 "Cannot register for past events" in
          raise_if (reg_status_eqb st confirmed
                    && (current_registrations e >=? capacity e))
              P0001 "Event has reached maximum capacity"
      end
  end.

(** 003: [CHECK (status IN ('confirmed', 'cancelled', 'waitlist'))] *)
Definition registrations_status_check (st : reg_status) : result unit :=
  raise_if (reg_status_eqb st pending)
      check_violation "registrations_status_check".

(** Run a row trigger once per affected row, in order. *)
Fixpoint for_each_row {A : Type} (f : A -> db -> result db) (rows : list A)
    (d : db) : result db :=
  match rows with
  | [] => Ok d
  | r :: rows' => let* d' := f r d in for_each_row f rows' d'
  end.

Fixpoint check_each_row {A : Type} (f : A -> result unit) (rows : list A)
  : result unit :=
  match rows with
  | [] => Ok tt
  | r :: rows' => let* _ := f r in check_each_row f rows'
  end.

(** [INSERT INTO registrations (user_id, event_id, status)
     VALUES (uid, eid, st) RETURNING id]: BEFORE INSERT triggers
    ([trigger_registrations_validation], [trigger_validate_registration_data]),
    CHECK and UNIQUE constraints, the row itself ([registered_at] defaults to
    CURRENT_TIMESTAMP), then the AFTER INSERT trigger. *)
Definition insert_registration (now uid eid : Z) (st : reg_status) (d : db)
  : result (Z * db) :=
  let* _ := validate_event_registration now eid d in
  let* _ := validate_registration_data now uid eid st d in
  let* _ := registrations_status_check st in
  let* _ := raise_if (existsb (row_of uid eid) (registrations d))
      unique_violation "unique_user_event_registration" in
  let rid := registrations_id_seq d in
  let d1 := mkDb (users d) (events d)
                 (registrations d ++ [mkRegistration rid uid eid now st])
                 (events_id_seq d) (rid + 1) in
  let* d2 := update_event_registration_count now INSERT eid d1 in
  Ok (rid, d2).

(** [UPDATE registrations SET status = 'confirmed',
     registered_at = CURRENT_TIMESTAMP WHERE id = rid
     RETURNING id, registered_at] *)
Definition update_registration_confirmed (now rid : Z) (d : db)
  : result (list registration * db) :=
  let hit (r : registration) := reg_id r =? rid in
  let old_rows := List.filter hit (registrations d) in
  let* _ := check_each_row
      (fun r => let* _ := validate_registration_data now (user_id r) (event_id r)
                            confirmed d in
                registrations_status_check confirmed) old_rows in
  let d1 := with_registrations
      (List.map (fun r => if hit r then set_status confirmed now r else r)
                (registrations d)) d in
  let* d2 := for_each_row (update_event_registration_count now UPDATE)
      (List.map event_id old_rows) d1 in
  Ok (List.map (set_status confirmed now) old_rows, d2).

(** [DELETE FROM registrations WHERE p], with the AFTER DELETE trigger run
    for every deleted row. *)
Definition delete_registrations (now : Z) (p : registration -> bool) (d : db)
  : result db :=
  let old_rows := List.filter p (registrations d) in
  let d1 := with_registrations
      (List.filter (fun r => negb (p r)) (registrations d)) d in
  for_each_row (update_event_registration_count now DELETE)
      (List.map event_id old_rows) d1.

(** *** Migration 004: stored functions *)

(** The JSON object a stored function returns: [{success: true, ...}] or
    [{success: false, error_code: SQLSTATE, error_message: SQLERRM}]. *)
Inductive json_result (A : Type) : Type :=
  | success_true (payload : A)
  | success_false (error_code : sqlstate) (error_message : string).
Arguments success_true {A} payload.
Arguments success_false {A} error_code error_message.

(** [BEGIN body EXCEPTION WHEN OTHERS THEN RETURN {success: false, ...} END]:
    an exception undoes what the body did to the rows.  The model also
    gives back the id that a refused INSERT has drawn from its sequence,
    which PostgreSQL does not: after a refused INSERT the sequence of the
    database is ahead of [registrations_id_seq] (of [events_id_seq] for a
    refused INSERT into [events]). *)
Definition exception_when_others {A : Type} (body : result (A * db)) (d : db)
  : json_result A * db :=
  match body with
  | Ok (a, d') => (success_true a, d')
  | Exception e => (success_false (sqlstate_of e) (sqlerrm e), d)
  end.

(** [SELECT ... FROM events WHERE id = eid AND is_active = true] *)
Definition select_active_event (eid : Z) (d : db) : option event :=
  match events d !! eid with
  | Some e => if is_active e then Some e else None
  | None => None
  end.

(** [safe_event_registration(p_user_id, p_event_id)].  The advisory lock and
    the row lock make the call atomic with respect to other calls on the same
    event; the payload is [registration_id]. *)
Definition safe_event_registration (now p_user_id p_event_id : Z) (d : db)
  : json_result Z * db :=
  exception_when_others
    (match select_active_event p_event_id d with
     | None => Exception (Raise P0001 "Event not found or inactive")
     | Some event_record =>
         let* _ := raise_if (date_time event_record <=? now)
             P0002 "Cannot register for past events" in
         let* _ := raise_if (existsb (row_of p_user_id p_event_id) (registrations d))
             P0003 "User already registered for this event" in
         let* _ := raise_if
             (current_registrations event_record >=? capacity event_record)
             P0004 "Event has reached maximum capacity" in
         insert_registration now p_user_id p_event_id confirmed d
     end) d.

(** [safe_event_unregistration(p_user_id, p_event_id)] *)
Definition safe_event_unregistration (now p_user_id p_event_id : Z) (d : db)
  : json_result unit * db :=
  exception_when_others
    (match select_active_event p_event_id d with
     | None => Exception (Raise P0001 "Event not found or inactive")
     | Some event_record =>
         let* _ := raise_if (date_time event_record <=? now)
             P0002 "Cannot unregister from past events" in
         let* _ := raise_if
             (negb (existsb (row_of p_user_id p_event_id) (registrations d)))
             P0005 "User is not registered for this event" in
         let* d' := delete_registrations now (row_of p_user_id p_event_id) d in
         Ok (tt, d')
     end) d.

(** *** Foreign keys with ON DELETE CASCADE *)

(** [DELETE FROM events WHERE id = eid]; [registrations.event_id REFERENCES
    events(id) ON DELETE CASCADE] then deletes the registrations of the event,
    and the AFTER DELETE trigger runs for each of them. *)
Definition delete_event (now : Z) (eid : Z) (d : db) : result db :=
  delete_registrations now (fun r => event_id r =? eid)
    (with_events (delete eid (events d)) d).

(** [DELETE FROM users WHERE id = uid]; [events.created_by] and
    [registrations.user_id] both REFERENCE users(id) ON DELETE CASCADE.  The
    cascades run in the order in which the foreign keys were created: the
    events the user owns first, then the user's registrations. *)
Definition delete_user (now : Z) (uid : Z) (d : db) : result db :=
  let owned := List.filter (fun '(_, e) => created_by e =? uid)
                           (map_to_list (events d)) in
  let* d1 := for_each_row (delete_event now) (List.map fst owned)
                          (with_users (delete uid (users d)) d) in
  delete_registrations now (fun r => user_id r =? uid) d1.

End Schema.

(** ** src/middleware/eventValidation.js *)

Module Validation.

(** Whitespace as [String.prototype.trim] and the class [\s] see it, within
    ASCII: space, tab, line feed, vertical tab, form feed, carriage return. *)
Definition is_space (c : ascii) : bool :=
  let n := nat_of_ascii c in
  (n =? 32)%nat || ((9 <=? n)%nat && (n <=? 13)%nat).

Fixpoint trim_start (s : string) : string :=
  match s with
  | EmptyString => EmptyString
  | String c s' => if is_space c then trim_start s' else s
  end.

Fixpoint trim_end (s : string) : string :=
  match s with
  | EmptyString => EmptyString
  | String c s' =>
      match trim_end s' with
      | EmptyString => if is_space c then EmptyString else String c EmptyString
      | t => String c t
      end
  end.

Definition trim (s : string) : string := trim_end (trim_start s).

(** One character of the class [[a-zA-Z0-9\s\-_.,!?()]]. *)
Definition title_char (c : ascii) : bool :=
  let n := nat_of_ascii c in
  ((97 <=? n) && (n <=? 122))%nat || ((65 <=? n) && (n <=? 90))%nat
  || ((48 <=? n) && (n <=? 57))%nat || is_space c
  || existsb (Ascii.eqb c) ["-"; "_"; "."; ","; "!"; "?"; "("; ")"]%char.

Fixpoint all_chars (p : ascii -> bool) (s : string) : bool :=
  match s with
  | EmptyString => true
  | String c s' => p c && all_chars p s'
  end.

(** [/^[a-zA-Z0-9\s\-_.,!?()]+$/] *)
Definition matches_title_pattern (s : string) : bool :=
  negb (String.eqb s EmptyString) && all_chars title_char s.

(** [s.length], for text within ASCII, where code units and bytes
    coincide. *)
Definition js_length (s : string) : Z := Z.of_nat (String.length s).

(** The body of [POST /api/events].  A missing [title] is the empty string;
    [date_time] is [None] when the field is not a strict ISO 8601 datetime
    (the second message that the custom check adds when [new Date] can
    still read such a string is left out) and [capacity] is [None] when the
    field is not an integer literal. *)
Record create_event_body : Set := mkBody {
  body_title : string;
  body_description : option string;
  body_date_time : option Z;
  body_location : option string;
  body_capacity : option Z
}.

(** An entry of [errors.array()]: the field and the message. *)
Definition validation_error : Set := (string * string)%type.

Definition field_error (ok : bool) (field msg : string) : list validation_error :=
  if ok then [] else [(field, msg)].

Definition validate_title (b : create_event_body) : list validation_error :=
  let t := trim (body_title b) in
  field_error ((1 <=? js_length t) && (js_length t <=? 500))
      "title" "Title must be between 1 and 500 characters"
  ++ field_error (matches_title_pattern t)
      "title" "Title contains invalid characters".

Definition validate_description (b : create_event_body) : list validation_error :=
  match body_description b with
  | None => []
  | Some s => field_error (js_length (trim s) <=? 10000)
      "description" "Description must be less than 10000 characters"
  end.

Definition validate_date_time (now : Z) (b : create_event_body)
  : list validation_error :=
  match body_date_time b with
  | None => [("date_time", "Date must be a valid ISO 8601 datetime")]
  | Some eventDate =>
      let minFutureTime := now + 60 * 60 * 1000 in
      let maxFutureTime := now + 365 * 24 * 60 * 60 * 1000 in
      if eventDate <=? minFutureTime then
        [("date_time", "Event must be scheduled at least 1 hour in the future")]
      else if eventDate >? maxFutureTime then
        [("date_time", "Event cannot be scheduled more than 1 year in the future")]
      else []
  end.

Definition validate_location (b : create_event_body) : list validation_error :=
  match body_location b with
  | None => []
  | Some s => field_error (js_length (trim s) <=? 500)
      "location" "Location must be less than 500 characters"
  end.

(** [body('capacity').isInt({ min: 1, max: 1000 })] *)
Definition validate_capacity (b : create_event_body) : list validation_error :=
  field_error
    match body_capacity b with
    | Some c => (1 <=? c) && (c <=? 1000)
    | None => false
    end "capacity" "Capacity must be an integer between 1 and 1000".

(** [validateCreateEvent]: every chain runs; [handleValidationErrors] lets
    the request through exactly when the list is empty. *)
Definition validateCreateEvent (now : Z) (b : create_event_body)
  : list validation_error :=
  validate_title b ++ validate_description b ++ validate_date_time now b
  ++ validate_location b ++ validate_capacity b.

Definition failed_fields (errs : list validation_error) : list string :=
  List.map fst errs.

(** The sanitised body handed to the controller ([trim], [toInt]). *)
Definition sanitized_title (b : create_event_body) : string := trim (body_title b).
Definition sanitized_text (o : option string) : option string := trim <$> o.

(** [sort_by] and [sort_order] of [GET /api/events/upcoming], as
    [validateUpcomingEventsQuery] admits them. *)
Inductive sort_field : Set :=
  | by_date_time | by_title | by_capacity | by_current_registrations | by_created_at.
Inductive sort_direction : Set := ASC | DESC.

End Validation.

(** ** src/controllers/eventController.js *)

Module Controller.
Import Schema Validation.

(** *** JavaScript values of [user_permissions.can_register] *)

Inductive js_value : Set :=
  | js_undefined
  | js_number (n : Z)
  | js_boolean (b : bool).

Definition truthy (v : js_value) : bool :=
  match v with
  | js_undefined => false
  | js_number n => negb (n =? 0)
  | js_boolean b => b
  end.

(** [a && b] *)
Definition js_and (a b : js_value) : js_value := if truthy a then b else a.

(** [req.user?.id] *)
Definition js_of_user_id (requestingUserId : option Z) : js_value :=
  match requestingUserId with
  | Some id => js_number id
  | None => js_undefined
  end.

(** *** Helpers of the class *)

(** [hasEventStarted(eventDateTime)] *)
Definition hasEventStarted (now eventDateTime : Z) : bool := eventDateTime <=? now.

(** [checkUserRegistration(eventId, userId)] *)
Definition checkUserRegistration (eventId userId : Z) (d : db) : bool :=
  existsb (fun r => (event_id r =? eventId) && (user_id r =? userId)
                    && reg_status_eqb (status r) confirmed)
          (registrations d).

(** [calculateTimeUntilEvent(eventDateTime).milliseconds] *)
Definition calculateTimeUntilEvent (now eventDateTime : Z) : Z := eventDateTime - now.

(** *** POST /api/events *)

Inductive create_outcome : Type :=
  | EventCreated (id : Z) (row : event)     (* 201 *)
  | Invalid (errors : list validation_error)  (* 400, ValidationError *)
  | InvalidDate                             (* 400, 'Event date must be in the future' *)
  | Conflict                                (* 409, '... scheduled within 1 hour of this time' *)
  | InvalidCapacity                         (* 400, 'Capacity must be between 1 and 10000' *)
  | CreateFailed.                           (* 500, 'Failed to create event. Please try again.' *)

(** The conflict query: an active event of the same owner less than 3600
    seconds away.  [dt] is the instant the body names; the query reads it
    through [$2::timestamp], which is that instant when the body writes the
    date in UTC and the session time zone is UTC, and the wall-clock time
    of the string otherwise. *)
Definition conflicting (owner dt : Z) (e : event) : bool :=
  (created_by e =? owner) && is_active e
  && (Z.abs (date_time e - dt) <? 3600 * 1000).

Definition createEvent (now : Z) (created_by_ : Z) (b : create_event_body)
    (d : db) : create_outcome * db :=
  match body_date_time b with
  | None => (CreateFailed, d)     (* the cast [$2::timestamp] fails *)
  | Some dt =>
      (* Step 2 *)
      if dt <=? now then (InvalidDate, d)
      (* Step 3 *)
      else if existsb (fun '(_, e) => conflicting created_by_ dt e)
                      (map_to_list (events d))
      then (Conflict, d)
      else
        (* Step 4 *)
        match body_capacity b with
        | None => (CreateFailed, d)   (* NOT NULL violation on capacity *)
        | Some cap =>
            match insert_event now (sanitized_title b)
                    (sanitized_text (body_description b)) dt
                    (sanitized_text (body_location b)) cap created_by_ d with
            | Ok (id, row, d') => (EventCreated id row, d')
            | Exception e =>
                match sqlstate_of e with
                | check_violation =>
                    if String.eqb (sqlerrm e) "events_valid_capacity"
                    then (InvalidCapacity, d)
                    else if String.eqb (sqlerrm e) "events_future_date"
                    then (InvalidDate, d)
                    else (CreateFailed, d)
                | _ => (CreateFailed, d)
                end
            end
        end
  end.

(** The route: [router.post('/', validateCreateEvent, createEvent)], for a
    request that is answered; the connection pool is not modelled. *)
Definition post_events (now : Z) (user : Z) (b : create_event_body) (d : db)
  : create_outcome * db :=
  match validateCreateEvent now b with
  | [] => createEvent now user b d
  | errors => (Invalid errors, d)
  end.

(** *** POST /api/events/:id/register *)

Inductive register_outcome : Set :=
  | Created (registration_id : Z)      (* 201 'Successfully registered for event' *)
  | Reactivated (registration_id : Z)  (* 200 'Registration reactivated successfully' *)
  | AlreadyRegistered   (* 409 ConflictError 'User is already registered for this event' *)
  | EventFull           (* 400 BusinessLogicError 'Event has reached maximum capacity' *)
  | EventPast           (* 400 BusinessLogicError 'Cannot register for past events' *)
  | EventNotFound       (* 404 NotFoundError 'Event' *)
  | RegistrationFailed. (* 500 Error 'Registration failed. Please try again.' *)

Definition register_status_code (o : register_outcome) : Z :=
  match o with
  | Created _ => 201
  | Reactivated _ => 200
  | AlreadyRegistered => 409
  | EventFull | EventPast => 400
  | EventNotFound => 404
  | RegistrationFailed => 500
  end.

(** Step 5 to 7: the call of [safe_event_registration] and the translation
    of its error codes. *)
Definition register_through_safe_function (now userId eventId : Z) (d : db)
  : register_outcome * db :=
  match safe_event_registration now userId eventId d with
  | (success_true registration_id, d') => (Created registration_id, d')
  | (success_false P0003 _, d') => (AlreadyRegistered, d')
  | (success_false P0004 _, d') => (EventFull, d')
  | (success_false P0002 _, d') => (EventPast, d')
  | (success_false _ _, d') => (RegistrationFailed, d')
  end.

(** The reactivation branch of step 4: the UPDATE either returns the row or
    throws, and a thrown database error leaves the handler as the generic
    error. *)
Definition reactivate (now : Z) (r : registration) (d : db)
  : register_outcome * db :=
  match update_registration_confirmed now (reg_id r) d with
  | Ok (_, d') => (Reactivated (reg_id r), d')
  | Exception _ => (RegistrationFailed, d)
  end.

(** [userId = req.body.user_id || req.user.id] *)
Definition target_user (req_user_id : Z) (body_user_id : option Z) : Z :=
  match body_user_id with
  | Some u => if u =? 0 then req_user_id else u
  | None => req_user_id
  end.

Definition registerForEvent (now : Z) (req_user_id : Z) (body_user_id : option Z)
    (eventId : Z) (d : db) : register_outcome * db :=
  let userId := target_user req_user_id body_user_id in
  (* Step 2 *)
  match select_active_event eventId d with
  | None => (EventNotFound, d)
  | Some event =>
      if date_time event <=? now then (EventPast, d)
      (* Step 3 *)
      else if current_registrations event >=? capacity event then (EventFull, d)
      else
        (* Step 4 *)
        match List.filter (row_of userId eventId) (registrations d) with
        | registration :: _ =>
            match status registration with
            | confirmed => (AlreadyRegistered, d)
            | cancelled => reactivate now registration d
            | _ => register_through_safe_function now userId eventId d
            end
        | [] => register_through_safe_function now userId eventId d
        end
  end.

(** The handler between two of its [await]s.  Every query is one statement
    and runs atomically; [safe_event_registration] holds the advisory lock of
    the event for the whole call.  Other requests may run between two steps. *)
Inductive handler_state : Set :=
  | await_event_query                            (* before step 2 *)
  | await_registration_query (event : event)     (* before step 4 *)
  | await_reactivation (registration : registration)
  | await_safe_registration                      (* before step 5 *)
  | responded (o : register_outcome).

Definition handler_step (now userId eventId : Z) (s : handler_state) (d : db)
  : handler_state * db :=
  match s with
  | await_event_query =>
      match select_active_event eventId d with
      | None => (responded EventNotFound, d)
      | Some event =>
          if date_time event <=? now then (responded EventPast, d)
          else if current_registrations event >=? capacity event
          then (responded EventFull, d)
          else (await_registration_query event, d)
      end
  | await_registration_query _ =>
      match List.filter (row_of userId eventId) (registrations d) with
      | registration :: _ =>
          match status registration with
          | confirmed => (responded AlreadyRegistered, d)
          | cancelled => (await_reactivation registration, d)
          | _ => (await_safe_registration, d)
          end
      | [] => (await_safe_registration, d)
      end
  | await_reactivation registration =>
      let '(o, d') := reactivate now registration d in (responded o, d')
  | await_safe_registration =>
      let '(o, d') := register_through_safe_function now userId eventId d in
      (responded o, d')
  | responded o => (responded o, d)
  end.

(** A request that nothing interrupts: three steps. *)
Definition handler_run (now userId eventId : Z) (d : db) : handler_state * db :=
  let '(s1, d1) := handler_step now userId eventId await_event_query d in
  let '(s2, d2) := handler_step now userId eventId s1 d1 in
  handler_step now userId eventId s2 d2.

(** [Register(user_id, event_id)]: a user registering themselves. *)
Definition Register (now u e : Z) (d : db) : register_outcome * db :=
  registerForEvent now u None e d.

(** *** DELETE /api/events/:id/register/:userId *)

Inductive cancel_outcome : Set :=
  | Cancelled            (* 200 'Registration cancelled successfully' *)
  | Forbidden            (* 400 BusinessLogicError 'You can only cancel your own registration' *)
  | CancelEventNotFound  (* 404 NotFoundError 'Event' *)
  | CancelEventPast      (* 400 BusinessLogicError 'Cannot cancel registration for past events' *)
  | NotRegistered        (* 404 NotFoundError 'Registration not found' *)
  | CancellationFailed.  (* 500 Error 'Cancellation failed. Please try again.' *)

Definition cancelRegistration (now : Z) (requestingUserId : Z) (is_admin : bool)
    (targetUserId eventId : Z) (d : db) : cancel_outcome * db :=
  (* Step 1 *)
  if negb (targetUserId =? requestingUserId) && negb is_admin then (Forbidden, d)
  else
    (* Step 2 *)
    match select_active_event eventId d with
    | None => (CancelEventNotFound, d)
    | Some event =>
        (* Step 3 *)
        if date_time event <=? now then (CancelEventPast, d)
        else
          (* Step 4 *)
          match safe_event_unregistration now targetUserId eventId d with
          | (success_true _, d') => (Cancelled, d')
          | (success_false P0005 _, d') => (NotRegistered, d')
          | (success_false P0002 _, d') => (CancelEventPast, d')
          | (success_false _ _, d') => (CancellationFailed, d')
          end
    end.

(** [Cancel(actor_id, target_user_id, event_id)]; no principal carries
    [is_admin]. *)
Definition Cancel (now actor target e : Z) (d : db) : cancel_outcome * db :=
  cancelRegistration now actor false target e d.

(** *** Ordering of result rows *)

Fixpoint insert_by {A : Type} (le : A -> A -> bool) (x : A) (l : list A) : list A :=
  match l with
  | [] => [x]
  | y :: l' => if le x y then x :: l else y :: insert_by le x l'
  end.

(** [ORDER BY]: rows that the keys do not separate keep their scan order. *)
Fixpoint order_by {A : Type} (le : A -> A -> bool) (l : list A) : list A :=
  match l with
  | [] => []
  | x :: l' => insert_by le x (order_by le l')
  end.

(** [LIMIT n OFFSET k] *)
Definition limit_offset {A : Type} (n k : Z) (l : list A) : list A :=
  take (Z.to_nat n) (drop (Z.to_nat k) l).

(** *** GET /api/events/:id *)

Record user_permissions : Set := mkPermissions {
  can_edit : bool;
  can_register : js_value;
  is_registered : bool
}.

Inductive registered_users : Set :=
  | users_list (rows : list registration)   (* owner or registered viewer *)
  | users_count (count : Z).                (* 'Login to view registered users' *)

Record event_details : Set := mkDetails {
  details_event : event;
  available_spots : Z;
  is_full : bool;
  time_until_event : Z;
  has_started : bool;
  permissions : user_permissions;
  details_registered_users : registered_users
}.

(** [None] is the 404 of [NotFoundError('Event')]; the query joins the
    creator's row.  The [statistics] block of the response and the names and
    e-mail addresses in [registered_users] are left out. *)
Definition getEventDetails (now eventId : Z) (requestingUserId : option Z)
    (d : db) : option event_details :=
  match select_active_event eventId d with
  | None => None
  | Some event =>
      match users d !! created_by event with
      | None => None
      | Some _ =>
          let isOwner := bool_decide (requestingUserId = Some (created_by event)) in
          let isRegistered :=
            match requestingUserId with
            | Some uid => if truthy (js_number uid)
                          then checkUserRegistration eventId uid d else false
            | None => false
            end in
          let confirmed_rows := List.filter (confirmed_for eventId) (registrations d) in
          Some (mkDetails event
                  (capacity event - current_registrations event)
                  (current_registrations event >=? capacity event)
                  (calculateTimeUntilEvent now (date_time event))
                  (date_time event <=? now)
                  (mkPermissions
                     (bool_decide (requestingUserId = Some (created_by event)))
                     (js_and (js_and (js_of_user_id requestingUserId)
                                     (js_boolean (negb isRegistered)))
                             (js_boolean (negb (hasEventStarted now (date_time event)))))
                     isRegistered)
                  (if isOwner || isRegistered
                   then users_list
                          (order_by (fun a b => registered_at a <=? registered_at b)
                             (List.filter
                                (fun r => bool_decide (is_Some (users d !! user_id r)))
                                confirmed_rows))
                   else users_count (Z.of_nat (length confirmed_rows))))
      end
  end.

(** *** GET /api/events/upcoming *)

Record upcoming_query : Set := mkQuery {
  page : option Z;                       (* default 1 *)
  limit : option Z;                      (* default 10 *)
  sort_by : option sort_field;
  sort_order : option sort_direction;
  search : string;                       (* default '' *)
  location_filter : string;              (* default '' *)
  min_capacity : option Z;
  max_capacity : option Z;
  date_from : option Z;
  date_to : option Z
}.

Record pagination : Set := mkPagination {
  current_page : Z;
  total_pages : Z;
  total_items : Z;
  items_per_page : Z;
  has_next_page : bool;
  has_prev_page : bool
}.

Section Upcoming.

(** The two text predicates of PostgreSQL that the listing relies on:
    [to_tsvector('english', ...) @@ plainto_tsquery('english', term)] over
    title, description and location, and [text ILIKE '%' || term || '%']. *)
Variable fulltext_match : string -> event -> bool.
Variable ilike_contains : string -> string -> bool.

Definition nonzero (o : option Z) : option Z :=
  match o with
  | Some n => if n =? 0 then None else Some n
  | None => None
  end.

(** The WHERE clause the handler assembles; a filter whose parameter is
    falsy is not added. *)
Definition where_clause (now : Z) (q : upcoming_query) (e : event) : bool :=
  is_active e && (now <? date_time e)
  && (if String.eqb (search q) "" then true else fulltext_match (search q) e)
  && (if String.eqb (location_filter q) "" then true
      else match location e with
           | Some l => ilike_contains (location_filter q) l
           | None => false
           end)
  && match nonzero (min_capacity q) with Some m => m <=? capacity e | None => true end
  && match nonzero (max_capacity q) with Some m => capacity e <=? m | None => true end
  && match date_from q with Some t => t <=? date_time e | None => true end
  && match date_to q with Some t => date_time e <=? t | None => true end.

(** [e.location ASC NULLS LAST], strings in byte order: the order of a
    database with the C collation. *)
Definition location_le (a b : option string) : bool :=
  match a, b with
  | Some x, Some y => String.leb x y
  | Some _, None => true
  | None, Some _ => false
  | None, None => true
  end.

(** [ORDER BY e.date_time ASC, e.location ASC NULLS LAST] *)
Definition listing_le (a b : Z * event) : bool :=
  (date_time a.2 <? date_time b.2)
  || ((date_time a.2 =? date_time b.2) && location_le (location a.2) (location b.2)).

(** [Math.ceil(total / limit)] for a positive [limit]. *)
Definition ceil_div (total lim : Z) : Z := (total + lim - 1) / lim.

Definition getUpcomingEvents (now : Z) (q : upcoming_query) (d : db)
  : list (Z * event) * pagination :=
  let pg := default 1 (page q) in
  let lim := default 10 (limit q) in
  let offset := (pg - 1) * lim in
  let matching := List.filter (fun '(_, e) => where_clause now q e)
                              (map_to_list (events d)) in
  let joined := List.filter
      (fun '(_, e) => bool_decide (is_Some (users d !! created_by e))) matching in
  let rows := limit_offset lim offset (order_by listing_le joined) in
  let total := Z.of_nat (length matching) in
  let totalPages := ceil_div total lim in
  (rows, mkPagination pg totalPages total lim (pg <? totalPages) (1 <? pg)).

End Upcoming.

(** *** GET /api/events/:id/stats *)

Record capacity_utilization : Set := mkUtilization { used : Z; available : Z }.

Record event_statistics : Set := mkStatistics {
  confirmed_registrations : Z;
  waitlist_registrations : Z;
  cancelled_registrations : Z;
  total_registrations : Z;
  is_event_soon : bool;
  stats_time_until_event : Z;
  utilization : capacity_utilization
}.

Definition count_status (eid : Z) (s : reg_status) (rs : list registration) : Z :=
  Z.of_nat (length (List.filter
    (fun r => (event_id r =? eid) && reg_status_eqb (status r) s) rs)).

(** The integer fields of the snapshot; the two percentages are floating
    point and are left out.  [None] is the 404. *)
Definition getEventStats (now eventId : Z) (d : db) : option event_statistics :=
  match select_active_event eventId d with
  | None => None
  | Some event =>
      let timeUntilEvent := date_time event - now in
      let isEventSoon := timeUntilEvent <? 24 * 60 * 60 * 1000 in
      Some (mkStatistics
              (count_status eventId confirmed (registrations d))
              (count_status eventId waitlist (registrations d))
              (count_status eventId cancelled (registrations d))
              (Z.of_nat (length (List.filter (fun r => event_id r =? eventId)
                                             (registrations d))))
              isEventSoon
              (calculateTimeUntilEvent now (date_time event))
              (mkUtilization (current_registrations event)
                             (capacity event - current_registrations event)))
  end.

End Controller.

(** ** Sequences of operations on the store *)

Module Store.
Import Schema Controller.

(** The statements and requests that insert, update or delete rows of
    [registrations]. *)
Inductive operation : Set :=
  | op_register (req_user_id : Z) (body_user_id : option Z) (eventId : Z)
  | op_cancel (requestingUserId : Z) (is_admin : bool) (targetUserId eventId : Z)
  | op_delete_event (eid : Z)
  | op_delete_user (uid : Z)
  | sql_insert_registration (uid eid : Z) (st : reg_status)
  | sql_confirm_registration (rid : Z)
  | sql_delete_registration (uid eid : Z).

(** A statement run on its own commits or, on an exception, rolls back. *)
Definition commit {A : Type} (c : result A) (proj : A -> db) (d : db) : db :=
  match c with
  | Ok a => proj a
  | Exception _ => d
  end.

Definition run (now : Z) (op : operation) (d : db) : db :=
  match op with
  | op_register req_user_id body_user_id eventId =>
      (registerForEvent now req_user_id body_user_id eventId d).2
  | op_cancel requestingUserId is_admin targetUserId eventId =>
      (cancelRegistration now requestingUserId is_admin targetUserId eventId d).2
  | op_delete_event eid => commit (delete_event now eid d) id d
  | op_delete_user uid => commit (delete_user now uid d) id d
  | sql_insert_registration uid eid st =>
      commit (insert_registration now uid eid st d) snd d
  | sql_confirm_registration rid =>
      commit (update_registration_confirmed now rid d) snd d
  | sql_delete_registration uid eid =>
      commit (delete_registrations now (row_of uid eid) d) id d
  end.

(** A history: each operation with the clock reading at which it runs. *)
Fixpoint run_all (history : list (Z * operation)) (d : db) : db :=
  match history with
  | [] => d
  | (now, op) :: rest => run_all rest (run now op d)
  end.

(** The requests of the public interface and the cascades never write the
    status [cancelled]; only a direct INSERT can. *)
Definition inserts_cancelled (op : operation) : bool :=
  match op with
  | sql_insert_registration _ _ cancelled => true
  | _ => false
  end.

(** The data-model invariant: on every event row the counter is the number
    of confirmed registrations of that event. *)
Definition counter_matches (d : db) : Prop :=
  forall id e, events d !! id = Some e ->
    current_registrations e = count_confirmed (registrations d) id.

(** The UNIQUE (user_id, event_id) constraint. *)
Definition unique_user_event (rs : list registration) : Prop :=
  List.NoDup (List.map (fun r => (user_id r, event_id r)) rs).

Definition rows_of (uid eid : Z) (d : db) : list registration :=
  List.filter (row_of uid eid) (registrations d).

Definition confirmed_rows_of (uid eid : Z) (d : db) : list registration :=
  List.filter (fun r => row_of uid eid r && reg_status_eqb (status r) confirmed)
              (registrations d).

Definition succeeded (o : register_outcome) : bool :=
  match o with
  | Created _ | Reactivated _ => true
  | _ => false
  end.

(** *** Concurrent Register requests on one event *)

(** The requests in flight, each with the user it registers. *)
Abbreviation in_flight := (list (Z * handler_state)).

Definition arrivals (us : list Z) : in_flight :=
  List.map (fun u => (u, await_event_query)) us.

(** Request number [i] takes its next step at instant [now]. *)
Definition tick (eventId now : Z) (i : nat) (sys : in_flight * db)
  : in_flight * db :=
  match sys.1 !! i with
  | Some (u, s) =>
      let '(s', d') := handler_step now u eventId s sys.2 in
      (<[i := (u, s')]> sys.1, d')
  | None => sys
  end.

(** An interleaving: which request moves at which instant. *)
Fixpoint interleave (eventId : Z) (schedule : list (Z * nat))
    (sys : in_flight * db) : in_flight * db :=
  match schedule with
  | [] => sys
  | (now, i) :: rest => interleave eventId rest (tick eventId now i sys)
  end.

Definition outcome_of (r : Z * handler_state) : option register_outcome :=
  match r.2 with
  | responded o => Some o
  | _ => None
  end.

Definition outcomes (p : in_flight) : list register_outcome :=
  omap outcome_of p.

Definition successes (os : list register_outcome) : Z :=
  Z.of_nat (length (List.filter succeeded os)).

Definition is_event_full (o : register_outcome) : bool :=
  match o with EventFull => true | _ => false end.

(** Each request runs to its response before the next one starts. *)
Definition one_after_the_other (now : Z) (n : nat) : list (Z * nat) :=
  List.flat_map (fun i => [(now, i); (now, i); (now, i)]) (seq 0 n).

(** The requests take their steps in turn. *)
Definition round_robin (now : Z) (n : nat) : list (Z * nat) :=
  List.map (fun i => (now, i)) (seq 0 n ++ seq 0 n ++ seq 0 n).

(** A request that is neither about to reactivate a row nor answered with
    EventFull or Reactivated. *)
Definition calm (r : Z * handler_state) : Prop :=
  match r.2 with
  | await_reactivation _ | responded EventFull | responded (Reactivated _) => False
  | _ => True
  end.

(** What every interleaving of Register requests on event [e] of capacity
    [cap] maintains when it starts with [c0] confirmed registrations, room
    left and no cancelled row. *)
Definition room_left (e c0 cap : Z) (sys : in_flight * db) : Prop :=
  (exists ev, events sys.2 !! e = Some ev /\ capacity ev = cap /\
     current_registrations ev = count_confirmed (registrations sys.2) e /\
     current_registrations ev < cap) /\
  (forall r, In r (registrations sys.2) -> status r <> cancelled) /\
  Forall calm sys.1 /\
  successes (outcomes sys.1) + c0 = count_confirmed (registrations sys.2) e.

(** The columns that the registration engine reads besides the counter. *)
Definition same_schedule (a b : event) : Prop :=
  date_time a = date_time b /\ capacity a = capacity b /\
  is_active a = is_active b /\ created_by a = created_by b.

End Store.

(** ** Concrete stores for the scenarios *)

Module Scenario.
Import Schema Validation Controller Store.

(** The pinned clock: 2030-01-01T00:00:00Z. *)
Definition T0 : Z := 1893456000000.
Definition hour : Z := 60 * 60 * 1000.
Definition day : Z := 24 * hour.

Definition member (n : string) : user := mkUser n true.

(** Users 1 (the organiser) to 12. *)
Definition people : gmap Z user :=
  list_to_map
    [(1, member "A"); (2, member "B"); (3, member "C"); (4, member "D");
     (5, member "E"); (6, member "F"); (7, member "G"); (8, member "H");
     (9, member "I"); (10, member "J"); (11, member "K"); (12, member "L")].

(** An event of user 1, two weeks ahead of [T0]. *)
Definition conference (cap : Z) : event :=
  mkEvent "Conference" None (T0 + 14 * day) (Some "Main hall") cap 0 1 true
          (T0 - day).

(** Event 7 with capacity [cap] and no registration yet. *)
Definition store (cap : Z) : db :=
  mkDb people {[ 7 := conference cap ]} [] 8 1.

(** Register the users of [us] one after the other for event [e]; the
    outcomes in order and the final store. *)
Fixpoint register_each (now : Z) (us : list Z) (e : Z) (d : db)
  : list register_outcome * db :=
  match us with
  | [] => ([], d)
  | u :: us' =>
      let '(o, d1) := Register now u e d in
      let '(os, d2) := register_each now us' e d1 in
      (o :: os, d2)
  end.

Definition event_counter (e : Z) (d : db) : option Z :=
  current_registrations <$> (events d !! e).

(** An event that took place a day before [T0] and was soft-deleted. *)
Definition withdrawn_past_event : event :=
  mkEvent "Meetup" None (T0 - day) None 10 0 1 false (T0 - 30 * day).

Definition store_with_withdrawn_event : db :=
  mkDb people {[ 7 := withdrawn_past_event ]} [] 8 1.

(** A request body for [POST /api/events] that is valid in every field but,
    possibly, the capacity. *)
Definition draft (cap : Z) : create_event_body :=
  mkBody "Conference" None (Some (T0 + 14 * day)) (Some "Main hall") (Some cap).

(** The users and no event. *)
Definition empty_store : db := mkDb people ∅ [] 1 1.

(** Two upcoming events: the earlier one is the smaller one. *)
Definition workshop : event :=
  mkEvent "Workshop" None (T0 + 7 * day) (Some "Room 2") 50 0 1 true (T0 - day).

Definition two_events : db :=
  mkDb people {[ 1 := workshop; 2 := conference 100 ]} [] 3 1.

(** [GET /api/events/upcoming?sort_by=capacity&sort_order=DESC] *)
Definition by_capacity_desc : upcoming_query :=
  mkQuery None None (Some by_capacity) (Some DESC) "" "" None None None None.

Definition no_text_match : string -> event -> bool := fun _ _ => false.
Definition no_ilike : string -> string -> bool := fun _ _ => false.

Definition capacities (rows : list (Z * event)) : list Z :=
  List.map (fun row => capacity row.2) rows.

(** [sort_by=capacity&sort_order=DESC] asks for non-increasing capacities. *)
Fixpoint non_increasing (l : list Z) : bool :=
  match l with
  | x :: (y :: _) as l' => (y <=? x) && non_increasing l'
  | _ => true
  end.

Definition without_sort (q : upcoming_query) : upcoming_query :=
  mkQuery (page q) (limit q) None None (search q) (location_filter q)
          (min_capacity q) (max_capacity q) (date_from q) (date_to q).

End Scenario.

(** ** Further invariants and preconditions of the engine *)

Module Engine.
Import Schema Controller Store.

(** The CHECK constraints [events_capacity_registrations] and
    [current_registrations >= 0] as a property of the whole table. *)
Definition within_capacity (d : db) : Prop :=
  forall id e, events d !! id = Some e ->
    0 <= current_registrations e <= capacity e.

(** The constraints of [events] that do not depend on the clock or on the
    counter: what a row satisfies from the day it was inserted. *)
Definition storable (ev : event) : Prop :=
  only_spaces (title ev) = false /\
  1 <= sql_length (title ev) <= 500 /\
  opt_length (location ev) <= 500 /\
  opt_length (description ev) <= 10000 /\
  1 <= capacity ev <= 1000.

(** The row as [validate_event_data] returns it with the counter set to [n]. *)
Definition rewritten (n : Z) (ev : event) : event :=
  mkEvent (title ev) (blank_to_null (description ev)) (date_time ev)
          (blank_to_null (location ev)) (capacity ev) n (created_by ev)
          (is_active ev) (created_at ev).

(** The users, sequences and the events other than [e] are the same in both
    stores. *)
Definition same_elsewhere (e : Z) (d d' : db) : Prop :=
  users d' = users d /\ events_id_seq d' = events_id_seq d /\
  forall id, id <> e -> events d' !! id = events d !! id.

(** The rows of [registrations] that are not of user [u] and event [e]. *)
Definition other_rows (u e : Z) (d : db) : list registration :=
  List.filter (fun r => negb (row_of u e r)) (registrations d).

(** The primary key of [registrations] and its SERIAL sequence: no two rows
    share an id and every id has been drawn from the sequence. *)
Definition serial_ids (d : db) : Prop :=
  List.NoDup (List.map reg_id (registrations d)) /\
  forall r, In r (registrations d) -> reg_id r < registrations_id_seq d.

(** Event 7 with one registration, of user 2, that carries the status
    [cancelled]. *)
Definition store_with_cancelled (cap : Z) : db :=
  mkDb Scenario.people {[ 7 := Scenario.conference cap ]}
       [mkRegistration 1 2 7 (Scenario.T0 - Scenario.hour) cancelled] 8 2.


(** The same query for another page: [?page=p]. *)
Definition with_page (p : Z) (q : upcoming_query) : upcoming_query :=
  mkQuery (Some p) (limit q) (sort_by q) (sort_order q) (search q)
          (location_filter q) (min_capacity q) (max_capacity q) (date_from q)
          (date_to q).

(** The foreign key [events.created_by REFERENCES users(id)]. *)
Definition owners_exist (d : db) : Prop :=
  forall id e, events d !! id = Some e -> is_Some (users d !! created_by e).

(** *** Migration 004: [get_event_registration_stats] and
    [batch_event_registration] *)

Record registration_stats : Set := mkStats {
  stats_capacity : Z;
  stats_current_registrations : Z;
  stats_confirmed_registrations : Z;
  stats_waitlist_registrations : Z;
  stats_cancelled_registrations : Z;
  stats_total_registrations : Z;
  stats_available_spots : Z;
  stats_is_full : bool;
  stats_is_active : bool
}.

(** [get_event_registration_stats(p_event_id)]: the event is selected by id
    alone, whether active or not; the function has no exception handler. *)
Definition get_event_registration_stats (p_event_id : Z) (d : db)
  : result registration_stats :=
  match events d !! p_event_id with
  | None => Exception (Raise P0001 "Event not found")
  | Some event_record =>
      let confirmed_count := count_status p_event_id confirmed (registrations d) in
      Ok (mkStats (capacity event_record)
                  (current_registrations event_record)
                  confirmed_count
                  (count_status p_event_id waitlist (registrations d))
                  (count_status p_event_id cancelled (registrations d))
                  (Z.of_nat (length (List.filter (fun r => event_id r =? p_event_id)
                                                 (registrations d))))
                  (capacity event_record - confirmed_count)
                  (confirmed_count >=? capacity event_record)
                  (is_active event_record))
  end.




(** [CHECK (status IN ('confirmed', 'cancelled', 'waitlist'))] as a property
    of the table. *)
Definition status_checked (d : db) : Prop :=
  forall r, In r (registrations d) -> status r <> pending.

(** [calculateTimeUntilEvent(eventDateTime)]: the fields [days], [hours] and
    [minutes] of the object it returns, absent ([None]) when the message is
    'Event has started or passed'.  [Math.floor] of a quotient of positive
    integers is [Z.div], and [%] on them is [Z.modulo]. *)
Definition time_until_event_parts (now eventDateTime : Z) : option (Z * Z * Z) :=
  let diffMs := eventDateTime - now in
  if diffMs <=? 0 then None
  else
    let days := diffMs / (1000 * 60 * 60 * 24) in
    let hours := (diffMs mod (1000 * 60 * 60 * 24)) / (1000 * 60 * 60) in
    let minutes := (diffMs mod (1000 * 60 * 60)) / (1000 * 60) in
    Some (days, hours, minutes).

(** *** Migration 006: [validate_business_rules()] *)





(** Event 7 and the cancelled registration of user 2, whose account has
    been deactivated since. *)
Definition store_with_suspended_user : db :=
  mkDb (<[ 2 := mkUser "B" false ]> Scenario.people)
       {[ 7 := Scenario.conference 3 ]}
       [mkRegistration 1 2 7 (Scenario.T0 - Scenario.hour) cancelled] 8 2.

(** Event 7 with a cancelled registration (user 2) and a confirmed one
    (user 3). *)
Definition store_with_two_rows : db :=
  mkDb Scenario.people
       {[ 7 := set_current_registrations 1 (Scenario.conference 3) ]}
       [mkRegistration 1 2 7 (Scenario.T0 - Scenario.hour) cancelled;
        mkRegistration 2 3 7 Scenario.T0 confirmed] 8 3.


(** [users.is_active] of user [u], false when there is no such user. *)
Definition active_user (u : Z) (d : db) : bool :=
  match users d !! u with
  | Some usr => user_is_active usr
  | None => false
  end.

(** [1] for a confirmed row, [0] otherwise. *)
Definition seat (r : registration) : Z :=
  if reg_status_eqb (status r) confirmed then 1 else 0.

End Engine.

(** ** The migration runner (class [MigrationRunner]) *)

Module Migrations.

Section Runner.

(** The database behind the pool, the SHA-256 digest of a file and the
    execution of the SQL text of a file ([None] when a statement fails). *)
Variable schema : Type.
Variable calculateChecksum : string -> string.
Variable query : string -> schema -> option schema.

(** The database with its table [schema_migrations (filename, checksum)]. *)
Record migration_db : Type := mkMigrationDb {
  db_schema : schema;
  schema_migrations : list (string * string)
}.

(** The directory of migrations: the [.sql] files in the order of
    [getMigrationFiles()], each with its content. *)
Definition directory : Type := list (string * string).

Definition includes (x : string) (l : list string) : bool :=
  existsb (String.eqb x) l.

Fixpoint readMigrationFile (dir : directory) (filename : string) : option string :=
  match dir with
  | [] => None
  | (f, content) :: rest =>
      if String.eqb f filename then Some content else readMigrationFile rest filename
  end.

Inductive migration_error : Set :=
  | modified_after_applied   (* 'Migration ... has been modified after being applied' *)
  | failed_to_apply (filename : string).

(** [applyMigration(filename)]: the SQL of the file and the INSERT into
    [schema_migrations] run in one transaction; [filename] is UNIQUE. *)
Definition applyMigration (dir : directory) (filename : string) (m : migration_db)
  : option migration_db :=
  match readMigrationFile dir filename with
  | None => None
  | Some content =>
      match query content (db_schema m) with
      | None => None
      | Some s =>
          if includes filename (List.map fst (schema_migrations m)) then None
          else Some (mkMigrationDb s
                       (schema_migrations m ++ [(filename, calculateChecksum content)]))
      end
  end.

(** [validateMigration(filename, appliedChecksum)] for a file of the
    directory; [true] when it does not throw. *)
Definition validateMigration (dir : directory) (applied : string * string) : bool :=
  match readMigrationFile dir applied.1 with
  | Some content => String.eqb (calculateChecksum content) applied.2
  | None => true
  end.

(** The last loop of [runPendingMigrations]: a failure stops it and leaves
    the migrations applied so far in place. *)
Fixpoint apply_each (dir : directory) (pending : list string) (m : migration_db)
  : option migration_error * migration_db :=
  match pending with
  | [] => (None, m)
  | migration :: rest =>
      match applyMigration dir migration m with
      | None => (Some (failed_to_apply migration), m)
      | Some m' => apply_each dir rest m'
      end
  end.

(** The SQL texts [contents], executed one after the other. *)
Fixpoint execute_all (contents : list string) (s : schema) : option schema :=
  match contents with
  | [] => Some s
  | content :: rest =>
      match query content s with
      | Some s' => execute_all rest s'
      | None => None
      end
  end.

(** [runPendingMigrations()], called once on a pool that has served no
    transaction yet: [None] when the promise resolves, the error when it
    rejects; with the database as the call leaves it. *)
Definition runPendingMigrations (dir : directory) (m : migration_db)
  : option migration_error * migration_db :=
  let appliedMigrations := schema_migrations m in
  let migrationFiles := List.map fst dir in
  if forallb (fun applied =>
                if includes applied.1 migrationFiles
                then validateMigration dir applied else true) appliedMigrations
  then
    let appliedFilenames := List.map fst appliedMigrations in
    let pendingMigrations :=
      List.filter (fun file => negb (includes file appliedFilenames)) migrationFiles in
    apply_each dir pendingMigrations m
  else (Some modified_after_applied, m).

End Runner.

Arguments mkMigrationDb {schema} db_schema schema_migrations.
Arguments db_schema {schema} m.
Arguments schema_migrations {schema} m.

(** A database that logs the SQL texts it has executed; it refuses the text
    ["syntax error"]. *)
Definition logged_query (content : string) (log : list string) : option (list string) :=
  if String.eqb content "syntax error" then None else Some (log ++ [content]).

Definition two_files : directory :=
  [("001_users.sql", "CREATE TABLE users"); ("002_events.sql", "CREATE TABLE events")].

End Migrations.




(** ** src/middleware/errorHandler.js *)

Module ErrorHandler.

(** An error object as the handler sees it: the properties it reads.
    [name], [code], [constraint], [statusCode], [status], [isOperational]
    and [errors] are own enumerable properties when they are present (the
    classes below assign them with [this.x = ...]), so the copy [{ ...err }]
    carries them; [message] is copied by hand.  [errors] holds the messages
    of the values of [err.errors]. *)
Record js_error : Set := mkError {
  name : option string;
  code : option string;
  constraint : option string;
  statusCode : option Z;
  status : option string;
  isOperational : bool;
  message : string;
  errors : option (list string);
  path : string;
  value : string
}.

(** The leading decimal digit of a non-negative number. *)
Fixpoint leading_digit (fuel : nat) (n : Z) : Z :=
  match fuel with
  | O => n
  | S fuel' => if n <? 10 then n else leading_digit fuel' (n / 10)
  end.

(** [`${statusCode}`.startsWith('4')] *)
Definition startsWith4 (n : Z) : bool :=
  (0 <=? n) && (leading_digit (Z.to_nat n) n =? 4).

(** [new AppError(message, statusCode)]; [name] stays on the prototype. *)
Definition AppError (msg : string) (sc : Z) : js_error :=
  mkError None None None (Some sc)
          (Some (if startsWith4 sc then "fail" else "error")) true msg None
          "undefined" "undefined".

Definition named (n : string) (e : js_error) : js_error :=
  mkError (Some n) (code e) (constraint e) (statusCode e) (status e)
          (isOperational e) (message e) (errors e) (path e) (value e).

Definition ValidationError (msg : string) : js_error :=
  named "ValidationError" (AppError msg 400).
Definition NotFoundError (resource : string) : js_error :=
  named "NotFoundError" (AppError (resource ++ " not found") 404).
Definition ConflictError (msg : string) : js_error :=
  named "ConflictError" (AppError msg 409).
Definition UnauthorizedError (msg : string) : js_error :=
  named "UnauthorizedError" (AppError msg 401).
Definition ForbiddenError (msg : string) : js_error :=
  named "ForbiddenError" (AppError msg 403).
Definition BusinessLogicError (msg : string) : js_error :=
  named "BusinessLogicError" (AppError msg 400).

Definition equals (s : string) (o : option string) : bool :=
  match o with Some x => String.eqb x s | None => false end.

Definition handlePostgresError (err : js_error) : js_error :=
  if equals "23505" (code err) then
    if equals "users_email_key" (constraint err)
    then ConflictError "Email address is already registered"
    else if equals "users_username_key" (constraint err)
    then ConflictError "Username is already taken"
    else if equals "event_registrations_user_id_event_id_key" (constraint err)
    then ConflictError "User is already registered for this event"
    else ConflictError "Duplicate entry detected"
  else if equals "23503" (code err) then
    ValidationError "Referenced record does not exist"
  else if equals "23514" (code err) then
    if equals "valid_capacity" (constraint err)
    then ValidationError "Event capacity must be a positive number"
    else if equals "valid_registrations" (constraint err)
    then ValidationError "Registration count cannot exceed capacity"
    else if equals "valid_dates" (constraint err)
    then ValidationError "End date must be after start date"
    else ValidationError "Data violates business rules"
  else if equals "22001" (code err) then
    ValidationError "Input data exceeds maximum length"
  else if equals "22P02" (code err) then
    ValidationError "Invalid data format"
  else AppError "Database operation failed" 500.

Definition handleCastError (err : js_error) : js_error :=
  ValidationError ("Invalid " ++ path err ++ ": " ++ value err).

(** [Object.values(err.errors)] throws a TypeError when [err.errors] is
    undefined. *)
Definition handleValidationError (err : js_error) : option js_error :=
  match errors err with
  | None => None
  | Some msgs =>
      Some (ValidationError ("Invalid input data. " ++ String.concat ". " msgs))
  end.

Definition handleJWTError : js_error :=
  AppError "Invalid token. Please log in again!" 401.
Definition handleJWTExpiredError : js_error :=
  AppError "Your token has expired! Please log in again." 401.

(** What the middleware does with the response: [res.status(c).json({status,
    message, ...})], or an exception of its own. *)
Inductive handled : Set :=
  | json (status_code : Z) (status_ : string) (message_ : string)
  | TypeError.

Definition sendErrorDev (err : js_error) : handled :=
  json (default 500 (statusCode err)) (default "error" (status err)) (message err).

Definition sendErrorProd (err : js_error) : handled :=
  if isOperational err
  then json (default 500 (statusCode err)) (default "error" (status err))
            (message err)
  else json 500 "error" "Something went wrong!".

Definition starts_with_23 (o : option string) : bool :=
  match o with
  | Some (String "2" (String "3" _)) => true
  | _ => false
  end.

(** [globalErrorHandler]; [development] is
    [process.env.NODE_ENV === 'development'].  A [statusCode] of 0 and an
    empty [status] are falsy and replaced like missing ones. *)
Definition globalErrorHandler (development : bool) (err : js_error) : handled :=
  let err :=
    mkError (name err) (code err) (constraint err)
            (Some match statusCode err with
                  | Some c => if c =? 0 then 500 else c
                  | None => 500
                  end)
            (Some match status err with
                  | Some s => if String.eqb s "" then "error" else s
                  | None => "error"
                  end)
            (isOperational err) (message err) (errors err) (path err) (value err) in
  if development then sendErrorDev err
  else
    let error := err in
    let error := if starts_with_23 (code error)
                 then handlePostgresError error else error in
    let error := if equals "CastError" (name error)
                 then handleCastError error else error in
    match (if equals "ValidationError" (name error)
           then handleValidationError error else Some error) with
    | None => TypeError
    | Some error =>
        let error := if equals "JsonWebTokenError" (name error)
                     then handleJWTError else error in
        let error := if equals "TokenExpiredError" (name error)
                     then handleJWTExpiredError else error in
        sendErrorProd error
    end.

(** A database error as [pg] reports it. *)
Definition DatabaseError (sqlstate cons msg : string) : js_error :=
  mkError (Some "error") (Some sqlstate) (Some cons) None None false msg None
          "undefined" "undefined".

End ErrorHandler.


(** * Properties *)

Import Schema Validation Controller Store Scenario.

(** ** Reasoning about exceptions *)

Lemma bind_Ok {A B : Type} (c : result A) (k : A -> result B) (b : B) :
  Pg.bind c k = Ok b -> exists a, c = Ok a /\ k a = Ok b.
Proof. destruct c as [a|e]; simpl; [eauto | discriminate]. Qed.

Lemma raise_if_Ok (cond : bool) (code : sqlstate) (msg : string) (u : unit) :
  raise_if cond code msg = Ok u -> cond = false.
Proof. destruct cond; simpl; [discriminate | reflexivity]. Qed.

(** Split a successful run of [let* x := c in k] into its two halves, and a
    passed [raise_if] into the falsity of its condition. *)
Ltac inv_ok H :=
  repeat match type of H with
  | Pg.bind _ _ = Ok _ =>
      let a := fresh "a" in let Ha := fresh "Hstep" in
      apply bind_Ok in H; destruct H as (a & Ha & H);
      try (apply raise_if_Ok in Ha)
  end.

(** ** Writes to [events] keep the value written to the counter *)

Lemma validate_event_date_Ok now old new new' :
  validate_event_date now old new = Ok new' -> new' = new.
Proof. unfold validate_event_date. intros H. inv_ok H. congruence. Qed.

Lemma validate_event_data_counter now old new new' :
  validate_event_data now old new = Ok new' ->
  current_registrations new' = current_registrations new.
Proof.
  unfold validate_event_data. intros H. inv_ok H.
  injection H as <-. reflexivity.
Qed.

Lemma events_write_row_counter now old new new' :
  events_write_row now old new = Ok new' ->
  current_registrations new' = current_registrations new.
Proof.
  unfold events_write_row. intros H. inv_ok H. injection H as <-.
  apply validate_event_date_Ok in Hstep. subst.
  eauto using validate_event_data_counter.
Qed.

(** The effect of [UPDATE events SET current_registrations = n WHERE id = eid]
    on the rows, whenever it goes through. *)
Lemma update_current_registrations_Ok now eid n d d' :
  update_current_registrations now eid n d = Ok d' ->
  registrations d' = registrations d /\
  users d' = users d /\
  forall id e', events d' !! id = Some e' ->
    (id = eid /\ current_registrations e' = n) \/
    (id <> eid /\ events d !! id = Some e').
Proof.
  unfold update_current_registrations.
  destruct (events d !! eid) as [old|] eqn:Hold.
  - intros H. inv_ok H. injection H as <-. simpl. repeat split.
    intros id e' Hl. destruct (decide (id = eid)) as [->|Hne].
    + left. split; [reflexivity|].
      rewrite lookup_insert_eq in Hl. injection Hl as <-.
      apply events_write_row_counter in Hstep. exact Hstep.
    + right. rewrite lookup_insert_ne in Hl by congruence. auto.
  - intros [= <-]. repeat split. intros id e' Hl.
    right. split; [congruence | exact Hl].
Qed.

Lemma update_event_registration_count_Ok now op eid d d' :
  update_event_registration_count now op eid d = Ok d' ->
  registrations d' = registrations d /\
  users d' = users d /\
  forall id e', events d' !! id = Some e' ->
    (id = eid /\ current_registrations e' = count_confirmed (registrations d) eid) \/
    (id <> eid /\ events d !! id = Some e').
Proof.
  unfold update_event_registration_count. intros H.
  destruct op; [inv_ok H| |]; eauto using update_current_registrations_Ok.
Qed.

(** After the row trigger has run for every affected event, each event row
    either carries a fresh count or is an untouched row of an unaffected
    event. *)
Lemma for_each_row_trigger_Ok now op eids : forall d d',
  for_each_row (update_event_registration_count now op) eids d = Ok d' ->
  registrations d' = registrations d /\
  users d' = users d /\
  forall id e', events d' !! id = Some e' ->
    (In id eids /\ current_registrations e' = count_confirmed (registrations d) id) \/
    (~ In id eids /\ events d !! id = Some e').
Proof.
  induction eids as [|eid eids IH]; simpl; intros d d' H.
  - injection H as <-. repeat split. intros id e' Hl. right. split; [tauto|done].
  - inv_ok H. apply update_event_registration_count_Ok in Hstep.
    destruct Hstep as (Hr & Hu & He). apply IH in H.
    destruct H as (Hr' & Hu' & He'). repeat split; [congruence..|].
    intros id e' Hl. apply He' in Hl. destruct Hl as [[Hin Hc]|[Hnin Hl]].
    + left. split; [tauto | congruence].
    + apply He in Hl. destruct Hl as [[-> Hc]|[Hne Hl]].
      * left. split; [tauto | congruence].
      * right. split; [|done]. intros [?|?]; [congruence | tauto].
Qed.

(** ** Counting confirmed registrations *)

Lemma count_confirmed_app rs r id :
  count_confirmed (rs ++ [r]) id =
  count_confirmed rs id + (if confirmed_for id r then 1 else 0).
Proof.
  unfold count_confirmed. rewrite List.filter_app, length_app. simpl.
  destruct (confirmed_for id r); simpl; lia.
Qed.

Lemma confirmed_for_event id r : confirmed_for id r = true -> event_id r = id.
Proof. unfold confirmed_for. intros H. apply andb_true_iff in H. lia. Qed.

(** An UPDATE that leaves the rows of event [id] alone does not change the
    count of [id]. *)
Lemma count_confirmed_map (f : registration -> registration) rs id :
  (forall r, In r rs -> event_id (f r) = event_id r) ->
  (forall r, In r rs -> event_id r = id -> f r = r) ->
  count_confirmed (List.map f rs) id = count_confirmed rs id.
Proof.
  unfold count_confirmed. intros Hev Hid. f_equal.
  induction rs as [|r rs IH]; simpl; [reflexivity|].
  assert (Hc : confirmed_for id (f r) = confirmed_for id r).
  { destruct (decide (event_id r = id)) as [He|He].
    - rewrite Hid; auto using in_eq.
    - unfold confirmed_for. rewrite Hev by apply in_eq.
      replace (event_id r =? id) with false by lia. reflexivity. }
  rewrite Hc. destruct (confirmed_for id r); simpl; rewrite IH;
    auto using in_cons.
Qed.

(** A DELETE that leaves the rows of event [id] alone does not change the
    count of [id]. *)
Lemma count_confirmed_filter (p : registration -> bool) rs id :
  (forall r, In r rs -> event_id r = id -> p r = true) ->
  count_confirmed (List.filter p rs) id = count_confirmed rs id.
Proof.
  unfold count_confirmed. intros Hp. f_equal.
  induction rs as [|r rs IH]; simpl; [reflexivity|].
  destruct (confirmed_for id r) eqn:Hc.
  - rewrite Hp by (auto using in_eq, confirmed_for_event). simpl. rewrite Hc.
    simpl. rewrite IH; auto using in_cons.
  - destruct (p r); simpl; rewrite ?Hc; apply IH; auto using in_cons.
Qed.

(** ** The counter invariant across statements *)

(** Once the registrations have changed for the events [eids] only and the
    row trigger has run for each of them, the counters are right again. *)
Lemma triggers_restore_counters now op eids d0 d1 d' :
  counter_matches d0 ->
  (forall id e, events d1 !! id = Some e -> events d0 !! id = Some e) ->
  (forall id, ~ In id eids ->
     count_confirmed (registrations d1) id = count_confirmed (registrations d0) id) ->
  for_each_row (update_event_registration_count now op) eids d1 = Ok d' ->
  counter_matches d'.
Proof.
  intros Hinv Hsub Hcnt H. apply for_each_row_trigger_Ok in H.
  destruct H as (Hr & _ & He). intros id e' Hl. rewrite Hr.
  apply He in Hl. destruct Hl as [[_ Hc]|[Hnin Hl]]; [exact Hc|].
  rewrite Hcnt by exact Hnin. apply Hinv, Hsub, Hl.
Qed.

Lemma for_each_row_cons {A : Type} (f : A -> db -> result db) a l d :
  for_each_row f (a :: l) d = let* d' := f a d in for_each_row f l d'.
Proof. reflexivity. Qed.

Lemma for_each_row_single {A : Type} (f : A -> db -> result db) a d :
  for_each_row f [a] d = f a d.
Proof. simpl. destruct (f a d); reflexivity. Qed.

Lemma insert_registration_counter now uid eid st d rid d' :
  counter_matches d ->
  insert_registration now uid eid st d = Ok (rid, d') ->
  counter_matches d'.
Proof.
  unfold insert_registration. intros Hinv H. inv_ok H. injection H as <- <-.
  rewrite <- for_each_row_single in Hstep3.
  eapply triggers_restore_counters in Hstep3; eauto; simpl.
  intros id Hnin. rewrite count_confirmed_app.
  destruct (confirmed_for id _) eqn:Hc; [|lia].
  apply confirmed_for_event in Hc. simpl in Hc. tauto.
Qed.

Lemma update_registration_confirmed_counter now rid d rows d' :
  counter_matches d ->
  update_registration_confirmed now rid d = Ok (rows, d') ->
  counter_matches d'.
Proof.
  unfold update_registration_confirmed. intros Hinv H. inv_ok H.
  injection H as <- <-.
  eapply triggers_restore_counters in Hstep0; eauto; simpl.
  intros id Hnin. apply count_confirmed_map.
  - intros r _. destruct (reg_id r =? rid); reflexivity.
  - intros r Hin He. destruct (reg_id r =? rid) eqn:Hhit; [|reflexivity].
    destruct Hnin. apply in_map_iff. exists r. split; [exact He|].
    apply filter_In. auto.
Qed.

Lemma delete_registrations_counter now p d0 d1 d' :
  counter_matches d0 ->
  (forall id e, events d1 !! id = Some e -> events d0 !! id = Some e) ->
  registrations d1 = registrations d0 ->
  delete_registrations now p d1 = Ok d' ->
  counter_matches d'.
Proof.
  unfold delete_registrations. intros Hinv Hsub Hr H.
  eapply triggers_restore_counters in H; eauto; simpl.
  intros id Hnin. rewrite Hr. apply count_confirmed_filter.
  intros r Hin He. destruct (p r) eqn:Hp; [|reflexivity].
  destruct Hnin. apply in_map_iff. exists r. split; [exact He|].
  apply filter_In. rewrite Hr. auto.
Qed.

Lemma delete_event_counter now eid d d' :
  counter_matches d -> delete_event now eid d = Ok d' -> counter_matches d'.
Proof.
  unfold delete_event. intros Hinv H.
  eapply delete_registrations_counter in H; eauto; simpl.
  intros id e Hl. destruct (decide (id = eid)) as [->|Hne].
  - rewrite lookup_delete_eq in Hl. discriminate.
  - rewrite lookup_delete_ne in Hl by congruence. exact Hl.
Qed.

Lemma for_each_delete_event_counter now eids : forall d d',
  counter_matches d -> for_each_row (delete_event now) eids d = Ok d' ->
  counter_matches d'.
Proof.
  induction eids as [|eid eids IH]; simpl; intros d d' Hinv H.
  - injection H as <-. exact Hinv.
  - inv_ok H. eauto using delete_event_counter.
Qed.

Lemma delete_user_counter now uid d d' :
  counter_matches d -> delete_user now uid d = Ok d' -> counter_matches d'.
Proof.
  unfold delete_user. intros Hinv H. inv_ok H.
  apply for_each_delete_event_counter in Hstep; [|exact Hinv].
  eapply delete_registrations_counter in H; eauto.
Qed.

Lemma exception_when_others_inv {A : Type} (body : result (A * db)) d j d' :
  exception_when_others body d = (j, d') ->
  (exists a, body = Ok (a, d') /\ j = success_true a) \/
  (exists e, body = Exception e /\ d' = d /\
             j = success_false (sqlstate_of e) (sqlerrm e)).
Proof.
  unfold exception_when_others. destruct body as [[a d'']|e]; intros [= <- <-];
    [left|right]; eauto.
Qed.

Lemma safe_event_registration_counter now uid eid d j d' :
  counter_matches d ->
  safe_event_registration now uid eid d = (j, d') -> counter_matches d'.
Proof.
  unfold safe_event_registration. intros Hinv H.
  apply exception_when_others_inv in H.
  destruct H as [(rid & H & _)|(e & _ & -> & _)]; [|exact Hinv].
  destruct (select_active_event eid d); [|discriminate].
  inv_ok H. eauto using insert_registration_counter.
Qed.

Lemma safe_event_unregistration_counter now uid eid d j d' :
  counter_matches d ->
  safe_event_unregistration now uid eid d = (j, d') -> counter_matches d'.
Proof.
  unfold safe_event_unregistration. intros Hinv H.
  apply exception_when_others_inv in H.
  destruct H as [(rid & H & _)|(e & _ & -> & _)]; [|exact Hinv].
  destruct (select_active_event eid d); [|discriminate].
  inv_ok H. injection H as _ <-.
  eapply delete_registrations_counter in Hstep1; eauto.
Qed.

Lemma register_through_safe_function_counter now uid eid d o d' :
  counter_matches d ->
  register_through_safe_function now uid eid d = (o, d') -> counter_matches d'.
Proof.
  unfold register_through_safe_function. intros Hinv H.
  destruct (safe_event_registration now uid eid d) as [j d''] eqn:Hs.
  apply safe_event_registration_counter in Hs; [|exact Hinv].
  destruct j as [?|[] ?]; injection H as _ <-; exact Hs.
Qed.

Lemma registerForEvent_counter now req body eid d :
  counter_matches d -> counter_matches (registerForEvent now req body eid d).2.
Proof.
  unfold registerForEvent. intros Hinv.
  destruct (select_active_event eid d) as [ev|]; [|exact Hinv].
  destruct (date_time ev <=? now); [exact Hinv|].
  destruct (current_registrations ev >=? capacity ev); [exact Hinv|].
  destruct (List.filter _ _) as [|r ?].
  - destruct (register_through_safe_function _ _ _ _) eqn:Hs.
    eauto using register_through_safe_function_counter.
  - destruct (status r); try exact Hinv;
      try (destruct (register_through_safe_function _ _ _ _) eqn:Hs;
           eauto using register_through_safe_function_counter).
    unfold reactivate.
    destruct (update_registration_confirmed now (reg_id r) d) as [[rows d']|?] eqn:Hu;
      [|exact Hinv].
    eauto using update_registration_confirmed_counter.
Qed.

Lemma cancelRegistration_counter now req adm target eid d :
  counter_matches d -> counter_matches (cancelRegistration now req adm target eid d).2.
Proof.
  unfold cancelRegistration. intros Hinv.
  destruct (_ && _); [exact Hinv|].
  destruct (select_active_event eid d) as [ev|]; [|exact Hinv].
  destruct (date_time ev <=? now); [exact Hinv|].
  destruct (safe_event_unregistration now target eid d) as [j d'] eqn:Hs.
  apply safe_event_unregistration_counter in Hs; [|exact Hinv].
  destruct j as [?|[] ?]; exact Hs.
Qed.

(** ** What a write to the counter leaves of the event row *)

Lemma same_schedule_trans a b c :
  same_schedule a b -> same_schedule b c -> same_schedule a c.
Proof. unfold same_schedule. intuition congruence. Qed.

Lemma events_write_row_schedule now old new new' :
  events_write_row now old new = Ok new' -> same_schedule new' new.
Proof.
  unfold events_write_row. intros H. inv_ok H. injection H as <-.
  apply validate_event_date_Ok in Hstep. subst a.
  unfold validate_event_data in Hstep0. inv_ok Hstep0.
  injection Hstep0 as <-. repeat split.
Qed.

Lemma update_current_registrations_lookup now eid n d d' ev :
  update_current_registrations now eid n d = Ok d' ->
  events d !! eid = Some ev ->
  (exists ev', events d' !! eid = Some ev' /\ same_schedule ev' ev /\
               current_registrations ev' = n) /\
  (forall id, id <> eid -> events d' !! id = events d !! id).
Proof.
  unfold update_current_registrations. intros H Hev. rewrite Hev in H.
  inv_ok H. injection H as <-. simpl. split.
  - exists a. rewrite lookup_insert_eq. split; [reflexivity|]. split.
    + exact (events_write_row_schedule _ _ _ _ Hstep).
    + exact (events_write_row_counter _ _ _ _ Hstep).
  - intros id Hne. apply lookup_insert_ne. congruence.
Qed.

Lemma update_event_registration_count_lookup now op eid d d' ev :
  update_event_registration_count now op eid d = Ok d' ->
  events d !! eid = Some ev ->
  (exists ev', events d' !! eid = Some ev' /\ same_schedule ev' ev /\
               current_registrations ev' = count_confirmed (registrations d) eid) /\
  (forall id, id <> eid -> events d' !! id = events d !! id) /\
  (op = INSERT -> count_confirmed (registrations d) eid < capacity ev).
Proof.
  unfold update_event_registration_count. intros H Hev.
  destruct op.
  - inv_ok H. rewrite Hev in Hstep. simpl in Hstep.
    eapply update_current_registrations_lookup in H; [|eassumption].
    destruct H as [H1 H2]. repeat split; auto. intros _. lia.
  - eapply update_current_registrations_lookup in H; [|eassumption].
    destruct H as [H1 H2]. repeat split; auto. discriminate.
  - eapply update_current_registrations_lookup in H; [|eassumption].
    destruct H as [H1 H2]. repeat split; auto. discriminate.
Qed.

(** The trigger run for one or more rows of the same event [eid]. *)
Lemma for_each_row_same_event now op eid n : forall d d' ev,
  for_each_row (update_event_registration_count now op) (List.repeat eid (S n)) d
    = Ok d' ->
  events d !! eid = Some ev ->
  (exists ev', events d' !! eid = Some ev' /\ same_schedule ev' ev /\
               current_registrations ev' = count_confirmed (registrations d) eid) /\
  (forall id, id <> eid -> events d' !! id = events d !! id) /\
  registrations d' = registrations d /\ users d' = users d.
Proof.
  induction n as [|n IH]; intros d d' ev H Hev.
  - simpl List.repeat in H. rewrite for_each_row_single in H.
    pose proof (update_event_registration_count_Ok _ _ _ _ _ H) as (Hr & Hu & _).
    eapply update_event_registration_count_lookup in H; [|eassumption].
    destruct H as (H1 & H2 & _). auto.
  - change (List.repeat eid (S (S n))) with (eid :: List.repeat eid (S n)) in H.
    rewrite for_each_row_cons in H.
    apply bind_Ok in H. destruct H as (d1 & Hstep & H).
    pose proof (update_event_registration_count_Ok _ _ _ _ _ Hstep) as (Hr & Hu & _).
    eapply update_event_registration_count_lookup in Hstep; [|eassumption].
    destruct Hstep as ((ev1 & Hl1 & Hs1 & _) & Hother & _).
    eapply IH in H; [|eassumption].
    destruct H as ((ev2 & Hl2 & Hs2 & Hc2) & Hother2 & Hr2 & Hu2).
    split; [|split; [|split; congruence]].
    + exists ev2. split; [exact Hl2|]. split.
      * eapply same_schedule_trans; eassumption.
      * congruence.
    + intros id Hne. rewrite Hother2, Hother; auto.
Qed.

Lemma map_event_id_rows_of uid eid rs :
  List.map event_id (List.filter (row_of uid eid) rs) =
  List.repeat eid (length (List.filter (row_of uid eid) rs)).
Proof.
  induction rs as [|r rs IH]; simpl; [reflexivity|].
  destruct (row_of uid eid r) eqn:Hr; simpl; [|exact IH].
  rewrite IH. f_equal. unfold row_of in Hr. apply andb_true_iff in Hr. lia.
Qed.

Lemma existsb_filter_nil {A : Type} (p : A -> bool) l :
  existsb p l = false <-> List.filter p l = [].
Proof.
  induction l as [|x l IH]; simpl; [tauto|].
  destruct (p x); simpl; [split; discriminate | exact IH].
Qed.

(** ** Anatomy of the three statements on [registrations] *)

Lemma insert_registration_Ok now uid eid st d rid d' :
  insert_registration now uid eid st d = Ok (rid, d') ->
  rid = registrations_id_seq d /\
  registrations d' = registrations d ++ [mkRegistration rid uid eid now st] /\
  users d' = users d /\
  List.filter (row_of uid eid) (registrations d) = [] /\
  (exists ev ev', events d !! eid = Some ev /\ events d' !! eid = Some ev' /\
     same_schedule ev' ev /\ is_active ev = true /\ now < date_time ev /\
     current_registrations ev' = count_confirmed (registrations d') eid /\
     count_confirmed (registrations d') eid < capacity ev) /\
  (forall id, id <> eid -> events d' !! id = events d !! id).
Proof.
  unfold insert_registration. intros H. inv_ok H. injection H as <- <-.
  apply existsb_filter_nil in Hstep2.
  unfold validate_event_registration in Hstep.
  destruct (events d !! eid) as [ev|] eqn:Hev; [|discriminate].
  inv_ok Hstep. apply raise_if_Ok in Hstep.
  pose proof (update_event_registration_count_Ok _ _ _ _ _ Hstep3) as (Hr & Hu & _).
  eapply update_event_registration_count_lookup in Hstep3; [|exact Hev].
  destruct Hstep3 as ((ev' & Hl & Hs & Hc) & Hother & Hcap).
  simpl in *. repeat split; auto.
  exists ev, ev'. rewrite Hr. repeat split; try apply Hs; auto.
  - destruct (is_active ev); [reflexivity | discriminate].
  - lia.
Qed.

Lemma delete_registrations_rows_of now uid eid d d' ev :
  delete_registrations now (row_of uid eid) d = Ok d' ->
  List.filter (row_of uid eid) (registrations d) <> [] ->
  events d !! eid = Some ev ->
  registrations d' =
    List.filter (fun r => negb (row_of uid eid r)) (registrations d) /\
  users d' = users d /\
  (exists ev', events d' !! eid = Some ev' /\ same_schedule ev' ev /\
     current_registrations ev' = count_confirmed (registrations d') eid) /\
  (forall id, id <> eid -> events d' !! id = events d !! id).
Proof.
  unfold delete_registrations. intros H Hne Hev.
  rewrite map_event_id_rows_of in H.
  destruct (List.filter (row_of uid eid) (registrations d)) as [|r rows];
    [congruence|].
  simpl length in H. eapply for_each_row_same_event in H; [|exact Hev].
  destruct H as ((ev' & Hl & Hs & Hc) & Hother & Hr & Hu). simpl in *.
  repeat split; auto. exists ev'. rewrite Hr. auto.
Qed.

Lemma update_registration_confirmed_Ok now rid d rows d' :
  update_registration_confirmed now rid d = Ok (rows, d') ->
  registrations d' =
    List.map (fun r => if reg_id r =? rid then set_status confirmed now r else r)
             (registrations d).
Proof.
  unfold update_registration_confirmed. intros H. inv_ok H.
  injection H as _ <-. apply for_each_row_trigger_Ok in Hstep0.
  destruct Hstep0 as (Hr & _). exact Hr.
Qed.

Lemma delete_registrations_Ok now p d d' :
  delete_registrations now p d = Ok d' ->
  registrations d' = List.filter (fun r => negb (p r)) (registrations d).
Proof.
  unfold delete_registrations. intros H. apply for_each_row_trigger_Ok in H.
  destruct H as (Hr & _). exact Hr.
Qed.

(** ** Anatomy of the two requests *)

Lemma register_through_safe_function_Created now uid eid d rid d' :
  register_through_safe_function now uid eid d = (Created rid, d') ->
  insert_registration now uid eid confirmed d = Ok (rid, d').
Proof.
  unfold register_through_safe_function, safe_event_registration. intros H.
  destruct (exception_when_others _ d) as [j d''] eqn:Hs.
  apply exception_when_others_inv in Hs.
  destruct Hs as [(a & Hb & ->)|(e & _ & _ & ->)].
  - injection H as <- <-.
    destruct (select_active_event eid d); [|discriminate]. inv_ok Hb. exact Hb.
  - destruct (sqlstate_of e); discriminate.
Qed.

Lemma register_through_safe_function_not_Reactivated now uid eid d rid :
  (register_through_safe_function now uid eid d).1 <> Reactivated rid.
Proof.
  unfold register_through_safe_function.
  destruct (safe_event_registration now uid eid d) as [[?|[] ?] ?]; discriminate.
Qed.

Lemma reactivate_not_Created now r d rid :
  (reactivate now r d).1 <> Created rid.
Proof.
  unfold reactivate.
  destruct (update_registration_confirmed _ _ _) as [[? ?]|?]; discriminate.
Qed.

Lemma registerForEvent_Created now req body eid d rid d' :
  registerForEvent now req body eid d = (Created rid, d') ->
  insert_registration now (target_user req body) eid confirmed d = Ok (rid, d').
Proof.
  unfold registerForEvent. intros H.
  destruct (select_active_event eid d) as [ev|]; [|discriminate].
  destruct (date_time ev <=? now); [discriminate|].
  destruct (current_registrations ev >=? capacity ev); [discriminate|].
  destruct (List.filter _ _) as [|r ?];
    [eauto using register_through_safe_function_Created|].
  destruct (status r); try discriminate;
    eauto using register_through_safe_function_Created.
  exfalso. eapply reactivate_not_Created. rewrite H. reflexivity.
Qed.

(** The reactivation branch is taken only on a row whose status is
    [cancelled]. *)
Lemma registerForEvent_Reactivated now req body eid d rid :
  (registerForEvent now req body eid d).1 = Reactivated rid ->
  exists r rest,
    List.filter (row_of (target_user req body) eid) (registrations d) = r :: rest /\
    status r = cancelled.
Proof.
  unfold registerForEvent. intros H.
  destruct (select_active_event eid d) as [ev|]; [|discriminate].
  destruct (date_time ev <=? now); [discriminate|].
  destruct (current_registrations ev >=? capacity ev); [discriminate|].
  destruct (List.filter _ _) as [|r rest].
  - exfalso. eapply register_through_safe_function_not_Reactivated. exact H.
  - destruct (status r) eqn:Hst; try discriminate; eauto;
      exfalso; eapply register_through_safe_function_not_Reactivated; exact H.
Qed.

Lemma cancelRegistration_Cancelled now req adm target eid d d' :
  cancelRegistration now req adm target eid d = (Cancelled, d') ->
  exists ev, events d !! eid = Some ev /\
    List.filter (row_of target eid) (registrations d) <> [] /\
    delete_registrations now (row_of target eid) d = Ok d'.
Proof.
  unfold cancelRegistration, safe_event_unregistration. intros H.
  destruct (_ && _); [discriminate|].
  unfold select_active_event in H.
  destruct (events d !! eid) as [ev|] eqn:Hev; [|discriminate].
  destruct (is_active ev); [|discriminate].
  destruct (date_time ev <=? now) eqn:Hpast; [discriminate|].
  destruct (exception_when_others _ d) as [j d''] eqn:Hs.
  apply exception_when_others_inv in Hs.
  destruct Hs as [(a & Hb & ->)|(e & _ & _ & ->)].
  - injection H as <-. inv_ok Hb. injection Hb as _ <-.
    exists ev. repeat split; auto.
    intros Hnil. apply existsb_filter_nil in Hnil. rewrite Hnil in Hstep0.
    discriminate.
  - destruct (sqlstate_of e); discriminate.
Qed.

(** ** The denormalised counter (C1) *)

Lemma run_counter now op d : counter_matches d -> counter_matches (run now op d).
Proof.
  intros Hinv. destruct op; simpl.
  - apply registerForEvent_counter, Hinv.
  - apply cancelRegistration_counter, Hinv.
  - destruct (delete_event now eid d) eqn:H; simpl;
      eauto using delete_event_counter.
  - destruct (delete_user now uid d) eqn:H; simpl;
      eauto using delete_user_counter.
  - destruct (insert_registration now uid eid st d) as [[rid d']|] eqn:H; simpl;
      eauto using insert_registration_counter.
  - destruct (update_registration_confirmed now rid d) as [[rows d']|] eqn:H;
      simpl; eauto using update_registration_confirmed_counter.
  - destruct (delete_registrations now (row_of uid eid) d) eqn:H; simpl;
      [|exact Hinv].
    eapply delete_registrations_counter in H; eauto.
Qed.


(** C1.  If on every event row [current_registrations] equals the number of
    registration rows of that event whose status is [confirmed], then the same
    holds after any operation that inserts, updates or deletes a
    registration: a Register request (with its reactivation branch), a Cancel
    request, the cascade of a deleted event or user, and the bare INSERT,
    UPDATE and DELETE statements, whether the operation commits or rolls
    back. *)
Theorem counter_matches_preserved (now : Z) (op : operation) (d : db) :
  counter_matches d -> counter_matches (run now op d).
Proof. apply run_counter. Qed.

Lemma counter_matches_preserved_witness :
  counter_matches (run T0 (op_register 2 None 7) (store 3)) /\
  event_counter 7 (run T0 (op_register 2 None 7) (store 3)) = Some 1.
Proof.
  split; [|reflexivity].
  apply (counter_matches_preserved T0 (op_register 2 None 7) (store 3)).
  intros id e H. simpl in H. apply lookup_singleton_Some in H as [<- <-].
  reflexivity.
Defined.

(** ** Registration for an event that has taken place (C3) *)

(** C3, as stated, fails on a soft-deleted event: the event is past, yet the
    request is answered with EventNotFound, not EventPast. *)
Lemma register_past_withdrawn_event_is_not_found :
  events store_with_withdrawn_event !! 7 = Some withdrawn_past_event /\
  date_time withdrawn_past_event <= T0 /\
  Register T0 2 7 store_with_withdrawn_event
    = (EventNotFound, store_with_withdrawn_event) /\
  (Register T0 2 7 store_with_withdrawn_event).1 <> EventPast.
Proof. repeat split; [vm_compute|]; discriminate. Qed.

(** C3, amended.  For every user and every event row whose [date_time] is
    not after [now], a Register request returns EventPast when the event is
    active and EventNotFound when it is not; in both cases the store, and so
    the set of registrations and every counter, is unchanged. *)
Theorem register_past_event (now req : Z) (body : option Z) (e : Z) (d : db)
    (ev : event) :
  events d !! e = Some ev ->
  date_time ev <= now ->
  registerForEvent now req body e d
    = (if is_active ev then EventPast else EventNotFound, d).
Proof.
  intros Hev Hpast. unfold registerForEvent, select_active_event.
  rewrite Hev. destruct (is_active ev); [|reflexivity].
  replace (date_time ev <=? now) with true by lia. reflexivity.
Qed.

Lemma register_past_event_witness :
  Register (T0 + 15 * day) 2 7 (store 3) = (EventPast, store 3).
Proof.
  apply (register_past_event (T0 + 15 * day) 2 None 7 (store 3) (conference 3)).
  - reflexivity.
  - vm_compute. discriminate.
Defined.

(** ** Registering twice (C4) *)

Lemma row_of_new now rid uid eid st :
  row_of uid eid (mkRegistration rid uid eid now st) = true.
Proof. unfold row_of. simpl. rewrite !Z.eqb_refl. reflexivity. Qed.

Lemma not_in_keys_iff uid eid rs :
  List.filter (row_of uid eid) rs = [] <->
  ~ In (uid, eid) (List.map (fun r => (user_id r, event_id r)) rs).
Proof.
  induction rs as [|r rs IH]; simpl; [tauto|].
  unfold row_of at 1.
  destruct (user_id r =? uid) eqn:Hu; destruct (event_id r =? eid) eqn:He;
    simpl; try (rewrite IH; split; [intros H [Hk|Hk]; [|tauto] | tauto];
                injection Hk as ? ?; lia).
  split; [discriminate|]. intros H. destruct H. left. f_equal; lia.
Qed.

Lemma registerForEvent_registrations now req body eid d :
  let d' := (registerForEvent now req body eid d).2 in
  registrations d' = registrations d \/
  (exists rid, (registerForEvent now req body eid d).1 = Created rid) \/
  (exists rid, registrations d' =
     List.map (fun r => if reg_id r =? rid then set_status confirmed now r else r)
              (registrations d)).
Proof.
  simpl. unfold registerForEvent.
  destruct (select_active_event eid d) as [ev|]; [|auto].
  destruct (date_time ev <=? now); [auto|].
  destruct (current_registrations ev >=? capacity ev); [auto|].
  assert (Hsafe : forall u,
    registrations (register_through_safe_function now u eid d).2 = registrations d \/
    exists rid, (register_through_safe_function now u eid d).1 = Created rid).
  { intros u. unfold register_through_safe_function, safe_event_registration.
    destruct (exception_when_others _ d) as [j d''] eqn:Hs.
    apply exception_when_others_inv in Hs.
    destruct Hs as [(a & Hb & ->)|(e & _ & -> & ->)]; simpl; [eauto|].
    left. destruct (sqlstate_of e); reflexivity. }
  destruct (List.filter _ _) as [|r ?].
  - destruct (Hsafe (target_user req body)); auto.
  - destruct (status r); auto;
      try (destruct (Hsafe (target_user req body)); auto; fail).
    unfold reactivate.
    destruct (update_registration_confirmed now (reg_id r) d) as [[rows d']|] eqn:Hu;
      simpl; [|auto].
    right. right. exists (reg_id r).
    eapply update_registration_confirmed_Ok. exact Hu.
Qed.

(** A Register request keeps UNIQUE (user_id, event_id). *)
Lemma registerForEvent_unique now req body eid d :
  unique_user_event (registrations d) ->
  unique_user_event (registrations (registerForEvent now req body eid d).2).
Proof.
  unfold unique_user_event. intros Hu.
  destruct (registerForEvent_registrations now req body eid d)
    as [Hr|[[rid Hc]|[rid Hr]]].
  - rewrite Hr. exact Hu.
  - destruct (registerForEvent now req body eid d) as [o d'] eqn:Hreg.
    simpl in *. subst o. apply registerForEvent_Created in Hreg.
    apply insert_registration_Ok in Hreg.
    destruct Hreg as (_ & Hr & _ & Hnil & _). rewrite Hr, map_app. simpl.
    apply not_in_keys_iff in Hnil.
    apply NoDup_ListNoDup, NoDup_app. repeat split.
    + apply NoDup_ListNoDup, Hu.
    + intros k Hk Hk'. apply list_elem_of_In in Hk.
      apply list_elem_of_singleton in Hk'. subst k. tauto.
    + apply NoDup_singleton.
  - rewrite Hr, List.map_map.
    erewrite List.map_ext; [exact Hu|].
    intros r. simpl. destruct (reg_id r =? rid); reflexivity.
Qed.

(** C4.  After a Register request of user [u] for event [e] that returned
    Created, a second Register request of [u] for [e], at the same instant
    or at any later instant at which the event has not yet taken place,
    returns AlreadyRegistered and leaves the store exactly as the first
    request left it, so the counter of the event is the same after the second
    request as after the first; the store then holds one registration row
    for ([u], [e]).  No Register request ever breaks the uniqueness of the
    pair (user_id, event_id) among the registration rows. *)
Theorem register_twice_already_registered (now u e : Z) (d d1 : db) (rid : Z) :
  Register now u e d = (Created rid, d1) ->
  Register now u e d1 = (AlreadyRegistered, d1) /\
  (forall now', (forall ev, events d1 !! e = Some ev -> now' < date_time ev) ->
     Register now' u e d1 = (AlreadyRegistered, d1)) /\
  length (rows_of u e d1) = 1%nat /\
  (forall now' req body e' d0,
     unique_user_event (registrations d0) ->
     unique_user_event (registrations (registerForEvent now' req body e' d0).2)).
Proof.
  intros H. unfold Register in H. apply registerForEvent_Created in H.
  simpl target_user in H. apply insert_registration_Ok in H.
  destruct H as (-> & Hr & _ & Hnil &
                 (ev & ev' & Hev & Hev' & Hs & Hact & Hfut & Hc & Hlt) & _).
  destruct Hs as (Hdt & Hcap & His & _).
  assert (Hrows : rows_of u e d1 =
                  [mkRegistration (registrations_id_seq d) u e now confirmed]).
  { unfold rows_of. rewrite Hr, List.filter_app, Hnil. simpl.
    rewrite row_of_new. reflexivity. }
  assert (Hagain : forall now', now' < date_time ev' ->
                   Register now' u e d1 = (AlreadyRegistered, d1)).
  { intros now' Hlater. unfold Register, registerForEvent, select_active_event.
    rewrite Hev', His, Hact. simpl target_user.
    replace (date_time ev' <=? now') with false by lia.
    replace (current_registrations ev' >=? capacity ev') with false by lia.
    fold (rows_of u e d1). rewrite Hrows. reflexivity. }
  repeat split.
  - apply Hagain. lia.
  - intros now' Hlater. apply Hagain, Hlater, Hev'.
  - rewrite Hrows. reflexivity.
  - intros. apply registerForEvent_unique. assumption.
Qed.

Lemma register_twice_already_registered_witness :
  Register T0 2 7 (Register T0 2 7 (store 3)).2
    = (AlreadyRegistered, (Register T0 2 7 (store 3)).2).
Proof.
  refine (proj1 (register_twice_already_registered T0 2 7 (store 3)
                   (Register T0 2 7 (store 3)).2 1 _)).
  reflexivity.
Defined.

(** ** Register, cancel, register again (C5) *)

Lemma filter_negb_nil {A : Type} (p : A -> bool) l :
  List.filter p l = [] -> List.filter (fun x => negb (p x)) l = l.
Proof.
  induction l as [|x l IH]; simpl; [reflexivity|].
  destruct (p x); [discriminate|]. simpl. intros H. f_equal. auto.
Qed.

Lemma filter_andb_nil {A : Type} (p q : A -> bool) l :
  List.filter p l = [] -> List.filter (fun x => p x && q x) l = [].
Proof.
  induction l as [|x l IH]; simpl; [reflexivity|].
  destruct (p x); [discriminate|]. simpl. auto.
Qed.

(** C5.  Let event [e] carry a counter that matches its confirmed
    registrations.  If Register([u], [e]) returns Created, the following
    Cancel([u], [u], [e]) returns Cancelled and the following
    Register([u], [e]) succeeds (Created or Reactivated), then the store
    holds exactly one confirmed registration row for ([u], [e]) and the
    counter of [e] is its value before the sequence plus one.  The three
    requests may run at different instants. *)
Theorem register_cancel_register (now1 now2 now3 u e : Z) (d d1 d2 d3 : db)
    (ev : event) (rid1 : Z) (o3 : register_outcome) :
  events d !! e = Some ev ->
  current_registrations ev = count_confirmed (registrations d) e ->
  Register now1 u e d = (Created rid1, d1) ->
  Cancel now2 u u e d1 = (Cancelled, d2) ->
  Register now3 u e d2 = (o3, d3) ->
  succeeded o3 = true ->
  length (confirmed_rows_of u e d3) = 1%nat /\
  event_counter e d3 = Some (current_registrations ev + 1).
Proof.
  intros Hev Hinv H1 H2 H3 Hok.
  (* the first request appended one row *)
  apply registerForEvent_Created, insert_registration_Ok in H1.
  simpl target_user in H1.
  destruct H1 as (-> & Hr1 & _ & Hnil & (ev0 & ev1 & _ & Hev1 & _) & _).
  (* the cancellation removed it *)
  apply cancelRegistration_Cancelled in H2.
  destruct H2 as (ev1' & _ & Hne & Hdel).
  eapply delete_registrations_rows_of in Hdel; [|exact Hne|exact Hev1].
  destruct Hdel as (Hr2 & _ & _ & _).
  assert (Hregs2 : registrations d2 = registrations d).
  { rewrite Hr2, Hr1, List.filter_app. simpl. rewrite row_of_new. simpl.
    rewrite app_nil_r. apply filter_negb_nil, Hnil. }
  (* the last request can only have created a row *)
  destruct o3 as [rid3|rid3| | | | |]; try discriminate.
  - apply registerForEvent_Created, insert_registration_Ok in H3.
    simpl target_user in H3.
    destruct H3 as (-> & Hr3 & _ & _ & (ev2 & ev3 & _ & Hev3 & _ & _ & _ & Hc & _) & _).
    rewrite Hregs2 in Hr3. split.
    + unfold confirmed_rows_of. rewrite Hr3, List.filter_app.
      rewrite (filter_andb_nil _ _ _ Hnil). simpl. rewrite row_of_new.
      reflexivity.
    + unfold event_counter. rewrite Hev3. simpl. f_equal.
      rewrite Hc, Hr3, count_confirmed_app, Hinv.
      unfold confirmed_for. simpl. rewrite Z.eqb_refl. reflexivity.
  - exfalso. unfold Register in H3.
    destruct (registerForEvent_Reactivated now3 u None e d2 rid3)
      as (r & rest & Hrows & _); [rewrite H3; reflexivity|].
    simpl target_user in Hrows. rewrite Hregs2, Hnil in Hrows. discriminate.
Qed.

Lemma register_cancel_register_witness :
  let d1 := (Register T0 2 7 (store 3)).2 in
  let d2 := (Cancel (T0 + hour) 2 2 7 d1).2 in
  let d3 := (Register (T0 + day) 2 7 d2).2 in
  length (confirmed_rows_of 2 7 d3) = 1%nat /\
  event_counter 7 d3 = Some (current_registrations (conference 3) + 1).
Proof.
  apply (register_cancel_register T0 (T0 + hour) (T0 + day) 2 7 (store 3)
           (Register T0 2 7 (store 3)).2
           (Cancel (T0 + hour) 2 2 7 (Register T0 2 7 (store 3)).2).2
           (Register (T0 + day) 2 7
              (Cancel (T0 + hour) 2 2 7 (Register T0 2 7 (store 3)).2).2).2
           (conference 3) 1 (Created 2));
    reflexivity.
Defined.

(** ** Cancellation deletes the row (C10) *)

Lemma for_each_delete_event_incl now eids : forall d d',
  for_each_row (delete_event now) eids d = Ok d' ->
  incl (registrations d') (registrations d).
Proof.
  induction eids as [|eid eids IH]; intros d d' H.
  - injection H as <-. apply incl_refl.
  - rewrite for_each_row_cons in H. apply bind_Ok in H.
    destruct H as (d1 & Hdel & H). apply IH in H.
    apply delete_registrations_Ok in Hdel. simpl in Hdel.
    intros r Hr. apply H in Hr. rewrite Hdel in Hr.
    apply filter_In in Hr. tauto.
Qed.

Lemma cancelRegistration_incl now req adm target eid d :
  incl (registrations (cancelRegistration now req adm target eid d).2)
       (registrations d).
Proof.
  unfold cancelRegistration.
  destruct (_ && _); [apply incl_refl|].
  destruct (select_active_event eid d) as [ev|] eqn:Hsel; [|apply incl_refl].
  destruct (date_time ev <=? now); [apply incl_refl|].
  unfold safe_event_unregistration.
  destruct (exception_when_others _ d) as [j d''] eqn:Hs.
  apply exception_when_others_inv in Hs.
  destruct Hs as [(a & Hb & ->)|(e & _ & -> & ->)]; simpl.
  - rewrite Hsel in Hb. inv_ok Hb. injection Hb as _ <-. apply delete_registrations_Ok in Hstep1.
    rewrite Hstep1. intros r Hr. apply filter_In in Hr. tauto.
  - destruct (sqlstate_of e); apply incl_refl.
Qed.

Lemma in_map_confirm now rid r rs :
  In r (List.map (fun r0 => if reg_id r0 =? rid
                            then set_status confirmed now r0 else r0) rs) ->
  status r = cancelled -> In r rs.
Proof.
  intros Hin Hst. apply in_map_iff in Hin. destruct Hin as (r0 & Heq & Hin).
  destruct (reg_id r0 =? rid); subst r; [discriminate | exact Hin].
Qed.

(** No operation creates a row whose status is [cancelled], except the
    direct INSERT of such a row. *)
Lemma run_cancelled_rows now op d r :
  inserts_cancelled op = false ->
  In r (registrations (run now op d)) -> status r = cancelled ->
  In r (registrations d).
Proof.
  intros Hop Hin Hst. destruct op; simpl in Hin.
  - destruct (registerForEvent_registrations now req_user_id body_user_id eventId d)
      as [Hr|[[rid Hc]|[rid Hr]]].
    + rewrite Hr in Hin. exact Hin.
    + destruct (registerForEvent now req_user_id body_user_id eventId d)
        as [o d'] eqn:Hreg.
      simpl in *. subst o. apply registerForEvent_Created in Hreg.
      apply insert_registration_Ok in Hreg. destruct Hreg as (_ & Hr & _).
      rewrite Hr in Hin. apply in_app_or in Hin. destruct Hin as [Hin|[<-|[]]];
        [exact Hin | discriminate].
    + rewrite Hr in Hin. eapply in_map_confirm; eassumption.
  - eapply cancelRegistration_incl; eassumption.
  - destruct (delete_event now eid d) as [d'|] eqn:Hd; simpl in Hin; [|exact Hin].
    apply delete_registrations_Ok in Hd. simpl in Hd. rewrite Hd in Hin.
    apply filter_In in Hin. tauto.
  - destruct (delete_user now uid d) as [d'|] eqn:Hd; simpl in Hin; [|exact Hin].
    unfold delete_user in Hd. inv_ok Hd. apply delete_registrations_Ok in Hd.
    apply for_each_delete_event_incl in Hstep. apply Hstep.
    rewrite Hd in Hin. apply filter_In in Hin. tauto.
  - destruct (insert_registration now uid eid st d) as [[rid d']|] eqn:Hi;
      simpl in Hin; [|exact Hin].
    apply insert_registration_Ok in Hi. destruct Hi as (_ & Hr & _).
    rewrite Hr in Hin. apply in_app_or in Hin. destruct Hin as [Hin|[<-|[]]];
      [exact Hin|].
    simpl in Hst. subst st. discriminate.
  - destruct (update_registration_confirmed now rid d) as [[rows d']|] eqn:Hu;
      simpl in Hin; [|exact Hin].
    apply update_registration_confirmed_Ok in Hu. rewrite Hu in Hin.
    eapply in_map_confirm; eassumption.
  - destruct (delete_registrations now (row_of uid eid) d) as [d'|] eqn:Hd;
      simpl in Hin; [|exact Hin].
    apply delete_registrations_Ok in Hd. rewrite Hd in Hin.
    apply filter_In in Hin. tauto.
Qed.

Lemma run_all_cancelled_rows history : forall d r,
  forallb (fun '(_, op) => negb (inserts_cancelled op)) history = true ->
  In r (registrations (run_all history d)) -> status r = cancelled ->
  In r (registrations d).
Proof.
  induction history as [|[now op] rest IH]; simpl; intros d r Hops Hin Hst;
    [exact Hin|].
  apply andb_true_iff in Hops. destruct Hops as [Hop Hops].
  apply negb_true_iff in Hop.
  eapply run_cancelled_rows; eauto.
Qed.

(** The theorem of C10 is stated at the end of the development, where the
    happy paths of Register and Cancel are at hand. *)

(** ** The capacity bound of CreateEvent (C6) *)

(** C6.  A requested capacity of 10,000 does not pass
    [validateCreateEvent]: the request is answered with a validation error
    on the capacity field, whose message names the bound 1000. *)
Lemma capacity_10000_is_rejected :
  failed_fields (validateCreateEvent T0 (draft 10000)) = ["capacity"] /\
  (post_events T0 1 (draft 10000) empty_store).1 =
    Invalid [("capacity", "Capacity must be an integer between 1 and 1000")].
Proof. split; reflexivity. Qed.

Lemma field_error_field ok field msg f :
  In f (failed_fields (field_error ok field msg)) -> f = field.
Proof. destruct ok; simpl; [tauto | intuition]. Qed.

(** The bound the validator enforces.  For every request body, validation
    succeeds on the capacity field iff the capacity is an integer with
    1 <= capacity <= 1000.  CreateEvent accepts a requested capacity of
    1,000 and rejects 1,001 (and 10,000) with a validation error on the
    capacity field. *)
Theorem capacity_validation_bounds (now : Z) (b : create_event_body) :
  (~ In "capacity" (failed_fields (validateCreateEvent now b)) <->
   exists c, body_capacity b = Some c /\ 1 <= c <= 1000) /\
  (exists id row, (post_events T0 1 (draft 1000) empty_store).1 = EventCreated id row
                  /\ capacity row = 1000) /\
  (post_events T0 1 (draft 1001) empty_store).1 =
    Invalid [("capacity", "Capacity must be an integer between 1 and 1000")].
Proof.
  split; [|split; [eexists _, _; split; reflexivity | reflexivity]].
  unfold validateCreateEvent, failed_fields.
  rewrite !map_app, !in_app_iff.
  assert (Hother : ~ (In "capacity" (List.map fst (validate_title b)) \/
                      In "capacity" (List.map fst (validate_description b)) \/
                      In "capacity" (List.map fst (validate_date_time now b)) \/
                      In "capacity" (List.map fst (validate_location b)))).
  { unfold validate_title, validate_description, validate_date_time,
      validate_location.
    rewrite map_app, in_app_iff.
    intros [[H|H]|[H|[H|H]]].
    - apply field_error_field in H. discriminate.
    - apply field_error_field in H. discriminate.
    - destruct (body_description b); [|destruct H].
      apply field_error_field in H. discriminate.
    - destruct (body_date_time b) as [dt|]; simpl in H.
      + destruct (dt <=? _); [|destruct (dt >? _)]; simpl in H;
          intuition discriminate.
      + intuition discriminate.
    - destruct (body_location b); [|destruct H].
      apply field_error_field in H. discriminate. }
  unfold validate_capacity. destruct (body_capacity b) as [c|].
  - destruct ((1 <=? c) && (c <=? 1000)) eqn:Hc; simpl.
    + split; [|tauto]. intros _. exists c. split; [reflexivity | lia].
    + split; [tauto|]. intros (c' & [= <-] & Hr). lia.
  - simpl. split; [tauto|]. intros (c & Hc & _). discriminate.
Qed.

(** The table itself bounds the capacity at 1000 as well: an INSERT that got
    past the validator would violate a CHECK constraint. *)
Lemma insert_event_capacity_check :
  insert_event T0 "Conference" None (T0 + 14 * day) None 10000 1 empty_store
    = Exception (Raise check_violation "events_capacity_check").
Proof. reflexivity. Qed.

(** ** The [can_register] flag (C7) *)

(** C7 at the failing input: user 1 owns event 7, which is two weeks ahead
    and empty; the flag returned to user 1 is [true]. *)
Theorem owner_is_told_they_can_register :
  created_by (conference 3) = 1 /\
  permissions <$> getEventDetails T0 7 (Some 1) (store 3)
    = Some (mkPermissions true (js_boolean true) false).
Proof. split; reflexivity. Qed.

(** What the flag does depend on: a viewer (with a non-zero id) who has no
    confirmed registration for an event that has not started.  Neither the
    owner nor the fullness of the event enters. *)
Lemma can_register_characterised now eventId viewer d v :
  getEventDetails now eventId viewer d = Some v ->
  (can_register (permissions v) = js_boolean true <->
   (exists uid, viewer = Some uid /\ uid <> 0) /\
   is_registered (permissions v) = false /\
   now < date_time (details_event v)).
Proof.
  unfold getEventDetails. intros H.
  destruct (select_active_event eventId d) as [ev|]; [|discriminate].
  destruct (users d !! created_by ev); [|discriminate].
  injection H as <-. simpl. unfold hasEventStarted.
  destruct viewer as [uid|]; simpl.
  - unfold js_and. simpl. destruct (uid =? 0) eqn:Hz; simpl; rewrite ?Hz; simpl.
    + split; [discriminate|]. intros ((u' & [= <-] & Hne) & _). lia.
    + destruct (checkUserRegistration eventId uid d); simpl.
      * split; [discriminate|]. intros (_ & ? & _). discriminate.
      * destruct (date_time ev <=? now) eqn:Hs; simpl.
        -- split; [discriminate|]. lia.
        -- split; [|reflexivity]. intros _. repeat split; [|lia].
           exists uid. split; [reflexivity | lia].
  - split; [discriminate|]. intros ((u' & Hu & _) & _). discriminate.
Qed.

(** ** Ordering of the listing (C8) *)

(** C8 at the failing input: with [sort_by=capacity] and [sort_order=DESC]
    the listing of the two events still comes by [date_time]: capacity 50
    before capacity 100. *)
Theorem listing_ignores_requested_sort :
  capacities (getUpcomingEvents no_text_match no_ilike T0 by_capacity_desc
                                two_events).1 = [50; 100] /\
  non_increasing (capacities
    (getUpcomingEvents no_text_match no_ilike T0 by_capacity_desc two_events).1)
    = false.
Proof. split; reflexivity. Qed.

(** The handler never reads [sort_by] and [sort_order]. *)
Lemma getUpcomingEvents_without_sort ft il now q d :
  getUpcomingEvents ft il now q d = getUpcomingEvents ft il now (without_sort q) d.
Proof. reflexivity. Qed.

(** Whatever the query, the page is in the order of [date_time], then of
    [location] with the rows without location last. *)
Lemma listing_le_total a b : listing_le a b = true \/ listing_le b a = true.
Proof.
  unfold listing_le.
  destruct (Z.lt_trichotomy (date_time a.2) (date_time b.2)) as [H|[H|H]].
  - left. apply orb_true_iff. left. lia.
  - replace (date_time a.2 =? date_time b.2) with true by lia.
    replace (date_time b.2 =? date_time a.2) with true by lia.
    rewrite !andb_true_l.
    assert (Hloc : location_le (location a.2) (location b.2) = true \/
                   location_le (location b.2) (location a.2) = true).
    { destruct (location a.2) as [x|], (location b.2) as [y|]; simpl; auto.
      apply String.leb_total. }
    destruct Hloc as [Hloc|Hloc]; rewrite Hloc, orb_true_r; auto.
  - right. apply orb_true_iff. left. lia.
Qed.

Lemma insert_by_Sorted {A : Type} (le : A -> A -> bool) x l :
  (forall a b, le a b = true \/ le b a = true) ->
  Sorted (fun a b => le a b = true) l ->
  Sorted (fun a b => le a b = true) (insert_by le x l).
Proof.
  intros Htotal. induction 1 as [|y l Hs IH Hd]; simpl.
  - repeat constructor.
  - destruct (le x y) eqn:Hxy.
    + repeat constructor; assumption.
    + constructor; [exact IH|].
      destruct l as [|z l]; simpl.
      * constructor. destruct (Htotal x y); congruence.
      * destruct (le x z); constructor.
        -- destruct (Htotal x y); congruence.
        -- inversion Hd; assumption.
Qed.

Lemma order_by_Sorted {A : Type} (le : A -> A -> bool) l :
  (forall a b, le a b = true \/ le b a = true) ->
  Sorted (fun a b => le a b = true) (order_by le l).
Proof.
  intros Htotal. induction l as [|x l IH]; simpl;
    [constructor | apply insert_by_Sorted; assumption].
Qed.

Lemma Sorted_drop {A : Type} (R : A -> A -> Prop) k : forall l,
  Sorted R l -> Sorted R (drop k l).
Proof.
  induction k as [|k IH]; intros l Hs; [exact Hs|].
  destruct l as [|x l]; [exact Hs|]. simpl. apply IH. inversion Hs; assumption.
Qed.

Lemma Sorted_take {A : Type} (R : A -> A -> Prop) n : forall l,
  Sorted R l -> Sorted R (take n l).
Proof.
  induction n as [|n IH]; intros l Hs; [constructor|].
  destruct l as [|x l]; [constructor|]. simpl. inversion Hs as [|? ? Hs' Hd]; subst.
  constructor; [apply IH, Hs'|].
  destruct n; [constructor|]. destruct l; [constructor|]. simpl.
  inversion Hd; constructor; assumption.
Qed.

Lemma getUpcomingEvents_Sorted ft il now q d :
  Sorted (fun a b => listing_le a b = true) (getUpcomingEvents ft il now q d).1.
Proof.
  unfold getUpcomingEvents, limit_offset. simpl.
  apply Sorted_take, Sorted_drop, order_by_Sorted, listing_le_total.
Qed.

(** ** [is_event_soon] (C9) *)

(** C9 at the failing input: the event took place a day ago, the time that
    remains is negative, and [is_event_soon] is [true]. *)
Theorem past_event_is_soon :
  stats_time_until_event <$> getEventStats (T0 + 15 * day) 7 (store 3)
    = Some (- day) /\
  is_event_soon <$> getEventStats (T0 + 15 * day) 7 (store 3) = Some true.
Proof. split; reflexivity. Qed.

(** The flag only tests the upper bound. *)
Lemma is_event_soon_characterised now eventId d s :
  getEventStats now eventId d = Some s ->
  (is_event_soon s = true <-> stats_time_until_event s < 24 * hour).
Proof.
  unfold getEventStats. intros H.
  destruct (select_active_event eventId d) as [ev|]; [|discriminate].
  injection H as <-. simpl. unfold calculateTimeUntilEvent, hour. lia.
Qed.

(** ** Concurrent registrations and the capacity (C2) *)

(** Three uninterrupted steps are the handler. *)
Lemma handler_run_registerForEvent now u e d :
  handler_run now u e d =
  (responded (registerForEvent now u None e d).1, (registerForEvent now u None e d).2).
Proof.
  unfold handler_run, registerForEvent. simpl.
  destruct (select_active_event e d) as [ev|]; [|reflexivity].
  destruct (date_time ev <=? now); [reflexivity|].
  destruct (current_registrations ev >=? capacity ev); [reflexivity|].
  simpl. destruct (List.filter (row_of u e) (registrations d)) as [|r rest]; simpl.
  - destruct (register_through_safe_function now u e d); reflexivity.
  - destruct (status r); simpl; try reflexivity;
      try (destruct (register_through_safe_function now u e d); reflexivity).
    destruct (reactivate now r d); reflexivity.
Qed.

(** *** Which exceptions the INSERT can raise *)

Lemma bind_Exception {A B : Type} (c : result A) (k : A -> result B) ex :
  Pg.bind c k = Exception ex ->
  c = Exception ex \/ exists a, c = Ok a /\ k a = Exception ex.
Proof. destruct c as [a|e]; simpl; [eauto | intros [= <-]; auto]. Qed.

Lemma raise_if_Exception cond code msg ex :
  raise_if cond code msg = Exception ex -> sqlstate_of ex = code.
Proof. destruct cond; simpl; [intros [= <-]; reflexivity | discriminate]. Qed.

(** Peel the [raise_if]s of a body that ended in an exception; every one of
    them must raise a code that [tac] accepts. *)
Ltac inv_exception H tac :=
  repeat (apply bind_Exception in H;
          destruct H as [H|(? & _ & H)];
          [apply raise_if_Exception in H; rewrite H; tac|]);
  try discriminate H.

Lemma events_write_row_Exception now old new ex :
  events_write_row now old new = Exception ex ->
  sqlstate_of ex = P0001 \/ sqlstate_of ex = check_violation.
Proof.
  unfold events_write_row. intros H.
  apply bind_Exception in H. destruct H as [H|(new1 & _ & H)].
  { unfold validate_event_date in H. inv_exception H ltac:(auto). }
  apply bind_Exception in H. destruct H as [H|(new2 & _ & H)].
  { unfold validate_event_data in H. inv_exception H ltac:(auto). }
  apply bind_Exception in H. destruct H as [H|(? & _ & H)]; [|discriminate].
  unfold events_check_constraints in H. inv_exception H ltac:(auto).
Qed.

Lemma update_event_registration_count_Exception now op eid d ex :
  update_event_registration_count now op eid d = Exception ex ->
  sqlstate_of ex = P0001 \/ sqlstate_of ex = check_violation.
Proof.
  assert (Hupd : forall n, update_current_registrations now eid n d = Exception ex ->
                 sqlstate_of ex = P0001 \/ sqlstate_of ex = check_violation).
  { unfold update_current_registrations. intros n H.
    destruct (events d !! eid); [|discriminate].
    apply bind_Exception in H. destruct H as [H|(? & _ & H)]; [|discriminate].
    eauto using events_write_row_Exception. }
  unfold update_event_registration_count. intros H. destruct op; eauto.
  apply bind_Exception in H. destruct H as [H|(? & _ & H)]; eauto.
  apply raise_if_Exception in H. auto.
Qed.

Lemma insert_registration_Exception now uid eid st d ex :
  insert_registration now uid eid st d = Exception ex ->
  In (sqlstate_of ex) [P0001; unique_violation; check_violation].
Proof.
  unfold insert_registration. intros H.
  apply bind_Exception in H. destruct H as [H|(? & _ & H)].
  { unfold validate_event_registration in H.
    destruct (events d !! eid); [|injection H as <-; simpl; auto].
    inv_exception H ltac:(simpl; auto).
    apply raise_if_Exception in H. rewrite H. simpl. auto. }
  apply bind_Exception in H. destruct H as [H|(? & _ & H)].
  { unfold validate_registration_data in H.
    destruct (events d !! eid); [|injection H as <-; simpl; auto].
    apply bind_Exception in H. destruct H as [H|(? & _ & H)];
      [apply raise_if_Exception in H; rewrite H; simpl; auto|].
    destruct (users d !! uid); [|injection H as <-; simpl; auto].
    inv_exception H ltac:(simpl; auto).
    apply raise_if_Exception in H. rewrite H. simpl. auto. }
  apply bind_Exception in H. destruct H as [H|(? & _ & H)].
  { apply raise_if_Exception in H. rewrite H. simpl. auto. }
  apply bind_Exception in H. destruct H as [H|(? & _ & H)].
  { apply raise_if_Exception in H. rewrite H. simpl. auto. }
  apply bind_Exception in H. destruct H as [H|(? & _ & H)]; [|discriminate].
  apply update_event_registration_count_Exception in H.
  destruct H as [-> | ->]; simpl; auto.
Qed.

(** [safe_event_registration] reports P0004 only from its own capacity test. *)
Lemma safe_event_registration_P0004 now u e d msg d' :
  safe_event_registration now u e d = (success_false P0004 msg, d') ->
  exists ev, select_active_event e d = Some ev /\
             capacity ev <= current_registrations ev.
Proof.
  unfold safe_event_registration. intros H.
  apply exception_when_others_inv in H.
  destruct H as [(a & _ & ?)|(ex & Hb & _ & Hj)]; [discriminate|].
  injection Hj as Hcode _.
  destruct (select_active_event e d) as [ev|]; [|injection Hb as <-; discriminate].
  exists ev. split; [reflexivity|].
  apply bind_Exception in Hb. destruct Hb as [Hb|(? & _ & Hb)];
    [apply raise_if_Exception in Hb; congruence|].
  apply bind_Exception in Hb. destruct Hb as [Hb|(? & _ & Hb)];
    [apply raise_if_Exception in Hb; congruence|].
  apply bind_Exception in Hb. destruct Hb as [Hb|(? & _ & Hb)].
  - destruct (current_registrations ev >=? capacity ev) eqn:Hfull;
      [lia | discriminate].
  - apply insert_registration_Exception in Hb. rewrite <- Hcode in Hb.
    simpl in Hb. intuition discriminate.
Qed.

Lemma register_through_safe_function_EventFull now u e d d' :
  register_through_safe_function now u e d = (EventFull, d') ->
  exists ev, select_active_event e d = Some ev /\
             capacity ev <= current_registrations ev.
Proof.
  unfold register_through_safe_function. intros H.
  destruct (safe_event_registration now u e d) as [[rid|code msg] d''] eqn:Hs;
    [discriminate|].
  destruct code; try discriminate.
  eapply safe_event_registration_P0004. exact Hs.
Qed.

(** A call of [safe_event_registration] that does not create the
    registration changes nothing. *)
Lemma register_through_safe_function_unchanged now u e d o d' :
  register_through_safe_function now u e d = (o, d') ->
  (forall rid, o <> Created rid) -> d' = d.
Proof.
  unfold register_through_safe_function, safe_event_registration. intros H Ho.
  destruct (exception_when_others _ d) as [j d''] eqn:Hs.
  apply exception_when_others_inv in Hs.
  destruct Hs as [(a & _ & ->)|(ex & _ & -> & ->)].
  - injection H as <- _. destruct (Ho a). reflexivity.
  - destruct (sqlstate_of ex); injection H as _ <-; reflexivity.
Qed.

(** *** Every interleaving leaves a seat empty *)

Lemma successes_app os1 os2 :
  successes (os1 ++ os2) = successes os1 + successes os2.
Proof. unfold successes. rewrite List.filter_app, length_app. lia. Qed.

Lemma outcomes_split (p : in_flight) i x :
  p !! i = Some x ->
  outcomes p = outcomes (take i p) ++ outcomes [x] ++ outcomes (drop (S i) p).
Proof.
  intros H. rewrite <- (take_drop_middle p i x H) at 1.
  unfold outcomes. rewrite omap_app. f_equal.
  change (x :: drop (S i) p) with ([x] ++ drop (S i) p). apply omap_app.
Qed.

Lemma outcomes_insert (p : in_flight) i x y :
  p !! i = Some x ->
  outcomes (<[i := y]> p) =
  outcomes (take i p) ++ outcomes [y] ++ outcomes (drop (S i) p).
Proof.
  intros H. rewrite insert_take_drop by (eapply lookup_lt_Some; exact H).
  unfold outcomes. rewrite omap_app. f_equal.
  change (y :: drop (S i) p) with ([y] ++ drop (S i) p). apply omap_app.
Qed.

Lemma successes_insert (p : in_flight) i x y :
  p !! i = Some x ->
  successes (outcomes (<[i := y]> p)) =
  successes (outcomes p) - successes (outcomes [x]) + successes (outcomes [y]).
Proof.
  intros H. rewrite (outcomes_insert p i x y H), (outcomes_split p i x H).
  rewrite !successes_app. lia.
Qed.

(** One step of one request keeps [room_left]. *)
Lemma tick_room_left e c0 cap now i sys :
  room_left e c0 cap sys -> room_left e c0 cap (tick e now i sys).
Proof.
  destruct sys as [p d]. unfold tick. simpl.
  destruct (p !! i) as [[u s]|] eqn:Hi; [|auto].
  intros ((ev & Hev & Hcapacity & Hcnt & Hroom) & Hnc & Hcalm & Htally).
  simpl in *.
  pose proof (Forall_lookup_1 _ _ _ _ Hcalm Hi) as Hs.
  (* a step that leaves the store alone and does not answer a success *)
  assert (Hquiet : forall s',
    calm (u, s') -> successes (outcomes [(u, s)]) = 0 ->
    successes (outcomes [(u, s')]) = 0 ->
    room_left e c0 cap (<[i := (u, s')]> p, d)).
  { intros s' Hcalm' H0 H0'. split; [|split; [|split]]; simpl.
    - eauto.
    - exact Hnc.
    - apply Forall_insert; assumption.
    - rewrite (successes_insert p i (u, s) (u, s') Hi). lia. }
  destruct s as [|ev0|r| |o]; simpl.
  - (* step 2 *)
    unfold select_active_event. rewrite Hev.
    destruct (is_active ev); [|apply Hquiet; done].
    destruct (date_time ev <=? now); [apply Hquiet; done|].
    replace (current_registrations ev >=? capacity ev) with false by lia.
    apply Hquiet; done.
  - (* step 4 *)
    destruct (List.filter (row_of u e) (registrations d)) as [|r rest] eqn:Hrows;
      [apply Hquiet; done|].
    destruct (status r) eqn:Hst; try (apply Hquiet; done).
    exfalso. apply (Hnc r); [|exact Hst].
    assert (Hin : In r (List.filter (row_of u e) (registrations d)))
      by (rewrite Hrows; apply in_eq).
    apply filter_In in Hin. tauto.
  - (* a reactivation is never pending *)
    destruct Hs.
  - (* step 5 *)
    destruct (register_through_safe_function now u e d) as [o d'] eqn:Hreg.
    assert (Hsame : (forall rid, o <> Created rid) -> d' = d)
      by (eapply register_through_safe_function_unchanged; exact Hreg).
    destruct o as [rid|rid| | | | |];
      try (rewrite Hsame by discriminate; apply Hquiet; done).
    + apply register_through_safe_function_Created in Hreg.
      apply insert_registration_Ok in Hreg.
      destruct Hreg as (-> & Hr & _ & _ & (ev1 & ev' & Hev1 & Hev' & Hsch & _ & _ & Hc & Hlt) & _).
      destruct Hsch as (_ & Hcap & _).
      assert (ev1 = ev) as -> by congruence.
      split; [|split; [|split]]; simpl.
      * exists ev'. repeat split; [exact Hev' | lia | exact Hc | lia].
      * intros r Hin. rewrite Hr in Hin. apply in_app_or in Hin.
        destruct Hin as [Hin|[<-|[]]]; [auto | discriminate].
      * apply Forall_insert; done.
      * rewrite (successes_insert p i _ (u, responded (Created (registrations_id_seq d))) Hi).
        rewrite Hr, count_confirmed_app. unfold confirmed_for. simpl.
        rewrite Z.eqb_refl. simpl.
        change (successes []) with 0.
        change (successes [Created (registrations_id_seq d)]) with 1.
        lia.
    + exfalso. eapply register_through_safe_function_not_Reactivated.
      rewrite Hreg. reflexivity.
    + exfalso. apply register_through_safe_function_EventFull in Hreg.
      destruct Hreg as (ev1 & Hsel & Hfull). unfold select_active_event in Hsel.
      rewrite Hev in Hsel. destruct (is_active ev); [|discriminate].
      injection Hsel as <-. lia.
  - (* the response has been sent *)
    rewrite list_insert_id by exact Hi.
    split; [|split; [|split]]; simpl; eauto.
Qed.

Lemma interleave_room_left e c0 cap schedule : forall sys,
  room_left e c0 cap sys -> room_left e c0 cap (interleave e schedule sys).
Proof.
  induction schedule as [|[now i] rest IH]; simpl; intros sys H; [exact H|].
  apply IH, tick_room_left, H.
Qed.

Lemma outcomes_arrivals us : outcomes (arrivals us) = [].
Proof. induction us as [|u us IH]; simpl; [reflexivity | exact IH]. Qed.

Lemma calm_not_full p :
  Forall calm p -> existsb is_event_full (outcomes p) = false.
Proof.
  induction 1 as [|[u s] p Hs _ IH]; [reflexivity|].
  unfold outcomes. simpl. unfold outcome_of at 1. simpl.
  destruct s as [| | | |o]; try exact IH.
  simpl. destruct o; try exact IH. destruct Hs.
Qed.

(** Whatever the interleaving of the Register requests of the users [us] on
    an event of capacity [cap] that starts without registrations: fewer than
    [cap] requests succeed, none is answered EventFull, and the counter is
    the number of successes. *)
Lemma every_interleaving_leaves_a_seat schedule us cap :
  1 <= cap ->
  let sys := interleave 7 schedule (arrivals us, store cap) in
  successes (outcomes sys.1) < cap /\
  existsb is_event_full (outcomes sys.1) = false /\
  event_counter 7 sys.2 = Some (successes (outcomes sys.1)).
Proof.
  intros Hcap sys.
  assert (H0 : room_left 7 0 cap (arrivals us, store cap)).
  { split; [|split; [|split]]; simpl.
    - exists (conference cap). repeat split. simpl. lia.
    - intros r [].
    - unfold arrivals. apply Forall_forall. intros x Hx.
      apply list_elem_of_In, in_map_iff in Hx. destruct Hx as (u & <- & _).
      exact I.
    - rewrite outcomes_arrivals. reflexivity. }
  apply (interleave_room_left 7 0 cap schedule) in H0. fold sys in H0.
  destruct H0 as ((ev & Hev & _ & Hcnt & Hroom) & _ & Hcalm & Htally).
  repeat split.
  - lia.
  - apply calm_not_full, Hcalm.
  - unfold event_counter. rewrite Hev. simpl. f_equal. lia.
Qed.

(** C2 at the failing input: an event of capacity 3 without registrations
    and Register requests of the ten users 2 to 11.  Whether the requests run
    one after the other or take their steps in turn, two of them succeed (not
    min(10, 3) = 3), the other eight are answered with the generic error 500
    (none with EventFull), and the counter ends at 2.  On an event of
    capacity 1 the first request already fails. *)
Theorem ten_requests_for_three_seats :
  let us := [2; 3; 4; 5; 6; 7; 8; 9; 10; 11] in
  let expected := [Created 1; Created 2; RegistrationFailed; RegistrationFailed;
                   RegistrationFailed; RegistrationFailed; RegistrationFailed;
                   RegistrationFailed; RegistrationFailed; RegistrationFailed] in
  (register_each T0 us 7 (store 3)).1 = expected /\
  event_counter 7 (register_each T0 us 7 (store 3)).2 = Some 2 /\
  outcomes (interleave 7 (one_after_the_other T0 10) (arrivals us, store 3)).1
    = expected /\
  outcomes (interleave 7 (round_robin T0 10) (arrivals us, store 3)).1
    = expected /\
  event_counter 7 (interleave 7 (round_robin T0 10) (arrivals us, store 3)).2
    = Some 2 /\
  successes expected = 2 /\ Z.min 10 3 = 3 /\
  Register T0 2 7 (store 1) = (RegistrationFailed, store 1).
Proof. vm_compute. repeat split. Qed.

(** * Further properties of the modelled code *)

Import Engine.

(** ** Every request ends in at most one statement on [registrations] *)

Lemma registerForEvent_statement now req body e d :
  let d' := (registerForEvent now req body e d).2 in
  d' = d \/
  (exists rid, insert_registration now (target_user req body) e confirmed d
               = Ok (rid, d')) \/
  (exists rid rows, update_registration_confirmed now rid d = Ok (rows, d')).
Proof.
  simpl. unfold registerForEvent.
  destruct (select_active_event e d) as [ev|]; [|auto].
  destruct (date_time ev <=? now); [auto|].
  destruct (current_registrations ev >=? capacity ev); [auto|].
  assert (Hsafe : forall u,
    (register_through_safe_function now u e d).2 = d \/
    exists rid, insert_registration now u e confirmed d
                = Ok (rid, (register_through_safe_function now u e d).2)).
  { intros u.
    destruct (register_through_safe_function now u e d) as [o d'] eqn:Hreg.
    simpl. destruct o as [rid|rid| | | | |];
      try (left; eapply register_through_safe_function_unchanged;
           [exact Hreg | discriminate]).
    right. exists rid. eapply register_through_safe_function_Created. exact Hreg. }
  destruct (List.filter _ _) as [|r ?].
  - destruct (Hsafe (target_user req body)); auto.
  - destruct (status r); auto;
      try (destruct (Hsafe (target_user req body)); auto; fail).
    unfold reactivate.
    destruct (update_registration_confirmed now (reg_id r) d) as [[rows d']|] eqn:Hu;
      simpl; eauto.
Qed.

Lemma cancelRegistration_statement now req adm target e d :
  let d' := (cancelRegistration now req adm target e d).2 in
  d' = d \/ delete_registrations now (row_of target e) d = Ok d'.
Proof.
  simpl. unfold cancelRegistration.
  destruct (_ && _); [auto|].
  destruct (select_active_event e d) as [ev|] eqn:Hsel; [|auto].
  destruct (date_time ev <=? now); [auto|].
  unfold safe_event_unregistration.
  destruct (exception_when_others _ d) as [j d''] eqn:Hs.
  apply exception_when_others_inv in Hs.
  destruct Hs as [(a & Hb & ->)|(ex & _ & -> & ->)]; simpl.
  - rewrite Hsel in Hb. inv_ok Hb. injection Hb as _ <-. auto.
  - left. destruct (sqlstate_of ex); reflexivity.
Qed.

(** ** The bounds of the counter *)













(** ** One row per user and event *)

Lemma unique_filter (p : registration -> bool) rs :
  unique_user_event rs -> unique_user_event (List.filter p rs).
Proof.
  unfold unique_user_event. induction rs as [|r rs IH]; simpl; intros H; [exact H|].
  inversion H as [|? ? Hnin Hnd]; subst.
  destruct (p r); simpl; [|auto].
  constructor; [|auto]. intros Hin. apply Hnin.
  apply in_map_iff in Hin. destruct Hin as (r' & Hk & Hin).
  apply filter_In in Hin. apply in_map_iff. exists r'. tauto.
Qed.

Lemma unique_confirm now rid rs :
  unique_user_event rs ->
  unique_user_event
    (List.map (fun r => if reg_id r =? rid then set_status confirmed now r else r) rs).
Proof.
  unfold unique_user_event. rewrite List.map_map.
  erewrite List.map_ext; [intros H; exact H|].
  intros r. simpl. destruct (reg_id r =? rid); reflexivity.
Qed.

Lemma unique_insert now uid eid st d rid d' :
  unique_user_event (registrations d) ->
  insert_registration now uid eid st d = Ok (rid, d') ->
  unique_user_event (registrations d').
Proof.
  unfold unique_user_event. intros Hu H. apply insert_registration_Ok in H.
  destruct H as (_ & Hr & _ & Hnil & _). rewrite Hr, map_app. simpl.
  apply not_in_keys_iff in Hnil.
  apply NoDup_ListNoDup, NoDup_app. repeat split.
  - apply NoDup_ListNoDup, Hu.
  - intros k Hk Hk'. apply list_elem_of_In in Hk.
    apply list_elem_of_singleton in Hk'. subst k. tauto.
  - apply NoDup_singleton.
Qed.

Lemma for_each_delete_event_unique now eids : forall d d',
  unique_user_event (registrations d) ->
  for_each_row (delete_event now) eids d = Ok d' ->
  unique_user_event (registrations d').
Proof.
  induction eids as [|x eids IH]; intros d d' Hu H.
  - injection H as <-. exact Hu.
  - rewrite for_each_row_cons in H. apply bind_Ok in H.
    destruct H as (d1 & Hdel & H). eapply IH; [|exact H].
    apply delete_registrations_Ok in Hdel. rewrite Hdel.
    apply unique_filter. exact Hu.
Qed.

Lemma run_unique now op d :
  unique_user_event (registrations d) ->
  unique_user_event (registrations (run now op d)).
Proof.
  intros Hu. destruct op; simpl.
  - destruct (registerForEvent_statement now req_user_id body_user_id eventId d)
      as [->|[(rid & H)|(rid & rows & H)]]; eauto using unique_insert.
    apply update_registration_confirmed_Ok in H. rewrite H.
    apply unique_confirm, Hu.
  - destruct (cancelRegistration_statement now requestingUserId is_admin
                targetUserId eventId d) as [->|H]; [exact Hu|].
    apply delete_registrations_Ok in H. rewrite H. apply unique_filter, Hu.
  - destruct (delete_event now eid d) eqn:H; simpl; [|exact Hu].
    apply delete_registrations_Ok in H. rewrite H. apply unique_filter, Hu.
  - destruct (delete_user now uid d) eqn:H; simpl; [|exact Hu].
    unfold delete_user in H. inv_ok H. apply delete_registrations_Ok in H.
    rewrite H. apply unique_filter.
    eapply for_each_delete_event_unique; [|exact Hstep]. exact Hu.
  - destruct (insert_registration now uid eid st d) as [[rid d']|] eqn:H; simpl;
      eauto using unique_insert.
  - destruct (update_registration_confirmed now rid d) as [[rows d']|] eqn:H;
      simpl; [|exact Hu].
    apply update_registration_confirmed_Ok in H. rewrite H.
    apply unique_confirm, Hu.
  - destruct (delete_registrations now (row_of uid eid) d) eqn:H; simpl; [|exact Hu].
    apply delete_registrations_Ok in H. rewrite H. apply unique_filter, Hu.
Qed.

Lemma unique_rows_of u e d :
  unique_user_event (registrations d) -> (length (rows_of u e d) <= 1)%nat.
Proof.
  unfold unique_user_event, rows_of.
  induction (registrations d) as [|r rs IH]; simpl; intros H; [lia|].
  inversion H as [|? ? Hnin Hnd]; subst.
  destruct (row_of u e r) eqn:Hr; simpl; [|auto].
  assert (Hnil : List.filter (row_of u e) rs = []).
  { apply not_in_keys_iff. unfold row_of in Hr. apply andb_true_iff in Hr.
    replace u with (user_id r) by lia. replace e with (event_id r) by lia.
    exact Hnin. }
  rewrite Hnil. simpl. lia.
Qed.

(** X2.  Along every history of requests, cascades and direct statements
    that starts in a store without two registration rows for the same user
    and event, there are never two such rows: every pair (user, event) has at
    most one row, whatever its status. *)
Theorem one_row_per_user_and_event (history : list (Z * operation)) (d : db) :
  unique_user_event (registrations d) ->
  unique_user_event (registrations (run_all history d)) /\
  forall u e, (length (rows_of u e (run_all history d)) <= 1)%nat.
Proof.
  intros Hu.
  assert (H : unique_user_event (registrations (run_all history d))).
  { revert d Hu. induction history as [|[now op] rest IH]; simpl; intros d Hu;
      [exact Hu|]. apply IH, run_unique, Hu. }
  split; [exact H|]. intros u e. apply unique_rows_of, H.
Qed.

Lemma one_row_per_user_and_event_witness :
  let history := [(T0, op_register 2 None 7); (T0, op_register 9 (Some 2) 7);
                  (T0, sql_insert_registration 2 7 cancelled)] in
  (length (rows_of 2 7 (run_all history (store 3))) <= 1)%nat.
Proof.
  refine (proj2 (one_row_per_user_and_event _ (store 3) _) 2 7).
  constructor.
Defined.

(** ** Concurrent Register requests *)

(** X3.  Take any store in which event [e] has a counter that matches its
    confirmed registrations and is below the capacity, and in which no row
    is cancelled.  Whatever the interleaving of the steps of Register
    requests for [e], the counter of [e] keeps matching its confirmed
    registrations, equals its initial value plus the number of requests
    answered with success, and stays below the capacity: no success is lost
    or counted twice, and the capacity is never exceeded. *)
Theorem interleaving_keeps_the_counter (schedule : list (Z * nat)) (us : list Z)
    (e : Z) (d : db) (ev : event) :
  events d !! e = Some ev ->
  current_registrations ev = count_confirmed (registrations d) e ->
  current_registrations ev < capacity ev ->
  (forall r, In r (registrations d) -> status r <> cancelled) ->
  let sys := interleave e schedule (arrivals us, d) in
  exists ev', events sys.2 !! e = Some ev' /\
    capacity ev' = capacity ev /\
    current_registrations ev' = count_confirmed (registrations sys.2) e /\
    current_registrations ev' = current_registrations ev + successes (outcomes sys.1) /\
    current_registrations ev' < capacity ev'.
Proof.
  intros Hev Hcnt Hroom Hnc sys.
  assert (H0 : room_left e (current_registrations ev) (capacity ev) (arrivals us, d)).
  { split; [|split; [|split]]; simpl.
    - exists ev. auto.
    - exact Hnc.
    - unfold arrivals. apply Forall_forall. intros x Hx.
      apply list_elem_of_In, in_map_iff in Hx. destruct Hx as (u & <- & _).
      exact I.
    - rewrite outcomes_arrivals. change (successes []) with 0. lia. }
  apply (interleave_room_left e _ _ schedule) in H0. subst sys.
  destruct H0 as ((ev' & Hev' & Hcap & Hcnt' & Hroom') & _ & _ & Htally).
  exists ev'. repeat split; try assumption; lia.
Qed.

Lemma interleaving_keeps_the_counter_witness :
  let sys := interleave 7 (round_robin T0 4) (arrivals [2; 3; 4; 5], store 5) in
  exists ev', events sys.2 !! 7 = Some ev' /\
    capacity ev' = capacity (conference 5) /\
    current_registrations ev' = count_confirmed (registrations sys.2) 7 /\
    current_registrations ev' =
      current_registrations (conference 5) + successes (outcomes sys.1) /\
    current_registrations ev' < capacity ev'.
Proof.
  apply (interleaving_keeps_the_counter (round_robin T0 4) [2; 3; 4; 5] 7
           (store 5) (conference 5)).
  - reflexivity.
  - reflexivity.
  - reflexivity.
  - intros r [].
Defined.

(** ** When a write to the counter goes through *)

Lemma opt_length_blank o : 0 <= opt_length (blank_to_null o) <= opt_length o.
Proof.
  destruct o as [s|]; simpl; [|lia].
  destruct (only_spaces s); simpl; unfold sql_length; lia.
Qed.

Lemma events_write_row_storable now ev n :
  storable ev -> now < date_time ev ->
  current_registrations ev <= capacity ev -> 0 <= n <= capacity ev ->
  events_write_row now (Some ev) (set_current_registrations n ev)
    = Ok (rewritten n ev).
Proof.
  intros (Ht & Hlen & Hloc & Hdesc & Hcap) Hfut Hold Hn.
  pose proof (opt_length_blank (location ev)).
  pose proof (opt_length_blank (description ev)).
  unfold events_write_row, validate_event_date, validate_event_data,
    events_check_constraints, rewritten.
  repeat (cbn [set_current_registrations title description date_time location
               capacity current_registrations created_by is_active created_at
               raise_if Pg.bind];
          first [ rewrite Ht
                | match goal with
                  | |- context [raise_if ?c _ _] => replace c with false by lia
                  end ]).
  reflexivity.
Qed.

Lemma update_current_registrations_storable now e n d ev :
  events d !! e = Some ev ->
  storable ev -> now < date_time ev ->
  current_registrations ev <= capacity ev -> 0 <= n <= capacity ev ->
  update_current_registrations now e n d
    = Ok (with_events (<[e := rewritten n ev]> (events d)) d).
Proof.
  intros Hev Hs Hfut Hold Hn. unfold update_current_registrations.
  rewrite Hev, events_write_row_storable by assumption. reflexivity.
Qed.

Lemma confirmed_for_new e i u t :
  confirmed_for e (mkRegistration i u e t confirmed) = true.
Proof. unfold confirmed_for. simpl. rewrite Z.eqb_refl. reflexivity. Qed.

Lemma count_confirmed_nonneg rs e : 0 <= count_confirmed rs e.
Proof. unfold count_confirmed. lia. Qed.

Lemma Register_creates (now u e : Z) (d : db) (ev : event) (usr : user) :
  events d !! e = Some ev -> is_active ev = true -> now < date_time ev ->
  storable ev ->
  users d !! u = Some usr -> user_is_active usr = true ->
  rows_of u e d = [] ->
  current_registrations ev = count_confirmed (registrations d) e ->
  current_registrations ev + 1 < capacity ev ->
  Register now u e d =
    (Created (registrations_id_seq d),
     mkDb (users d)
          (<[e := rewritten (current_registrations ev + 1) ev]> (events d))
          (registrations d ++ [mkRegistration (registrations_id_seq d) u e now confirmed])
          (events_id_seq d) (registrations_id_seq d + 1)).
Proof.
  intros Hev Hact Hfut Hs Hu Hua Hrows Hcnt Hroom.
  pose proof (count_confirmed_nonneg (registrations d) e) as Hnn.
  unfold rows_of in Hrows.
  assert (Hex : existsb (row_of u e) (registrations d) = false)
    by (apply existsb_filter_nil, Hrows).
  unfold Register, registerForEvent, select_active_event. simpl target_user.
  rewrite Hev, Hact, Hrows.
  replace (date_time ev <=? now) with false by lia.
  replace (current_registrations ev >=? capacity ev) with false by lia.
  unfold register_through_safe_function, safe_event_registration,
    select_active_event.
  rewrite Hev, Hact, Hex.
  replace (date_time ev <=? now) with false by lia.
  replace (current_registrations ev >=? capacity ev) with false by lia.
  cbn [raise_if Pg.bind].
  unfold insert_registration, validate_event_registration,
    validate_registration_data, registrations_status_check.
  rewrite Hev, Hu, Hact, Hua, Hex.
  replace (date_time ev <=? now) with false by lia.
  replace (current_registrations ev >=? capacity ev) with false by lia.
  cbn [negb andb reg_status_eqb raise_if Pg.bind].
  unfold update_event_registration_count.
  cbn [events registrations]. rewrite Hev. cbn [fmap option_fmap option_map].
  rewrite count_confirmed_app, confirmed_for_new.
  replace (count_confirmed (registrations d) e + 1 >=? capacity ev) with false by lia.
  cbn [raise_if Pg.bind].
  rewrite (update_current_registrations_storable now e _ _ ev);
    [|exact Hev|exact Hs|exact Hfut|lia|lia].
  cbn [exception_when_others]. unfold with_events. cbn.
  rewrite Hcnt. reflexivity.
Qed.

(** X4.  The happy path of Register.  Let event [e] be active, upcoming,
    with a row that satisfies the constraints of the table and a counter
    that matches its confirmed registrations, let user [u] exist and be
    active and have no row for [e], and let at least two seats be free.
    Then Register([u], [e]) answers Created with the next id of the
    sequence, appends exactly the row ([u], [e], confirmed, now), and raises
    the counter by one; nothing else changes. *)
Theorem register_succeeds (now u e : Z) (d : db) (ev : event) (usr : user) :
  events d !! e = Some ev -> is_active ev = true -> now < date_time ev ->
  storable ev ->
  users d !! u = Some usr -> user_is_active usr = true ->
  rows_of u e d = [] ->
  current_registrations ev = count_confirmed (registrations d) e ->
  current_registrations ev + 1 < capacity ev ->
  Register now u e d =
    (Created (registrations_id_seq d),
     mkDb (users d)
          (<[e := rewritten (current_registrations ev + 1) ev]> (events d))
          (registrations d ++ [mkRegistration (registrations_id_seq d) u e now confirmed])
          (events_id_seq d) (registrations_id_seq d + 1)).
Proof. exact (Register_creates now u e d ev usr). Qed.

Lemma register_succeeds_witness :
  Register T0 2 7 (store 3) =
    (Created 1,
     mkDb people {[ 7 := rewritten 1 (conference 3) ]}
          [mkRegistration 1 2 7 T0 confirmed] 8 2).
Proof.
  pose proof (register_succeeds T0 2 7 (store 3) (conference 3) (member "B")) as H.
  cbn [store registrations registrations_id_seq users events events_id_seq] in H.
  rewrite insert_singleton in H. apply H; try reflexivity.
  repeat split; vm_compute; congruence.
Defined.

(** ** Registrations need an active user *)

Lemma validate_registration_data_user now u e st d :
  validate_registration_data now u e st d = Ok tt -> active_user u d = true.
Proof.
  unfold validate_registration_data, active_user. intros H.
  destruct (events d !! e) as [ev|]; [|discriminate].
  inv_ok H. destruct (users d !! u) as [usr|]; [|discriminate].
  inv_ok H. destruct (user_is_active usr); [reflexivity | discriminate].
Qed.

Lemma check_each_row_In {A : Type} (f : A -> result unit) r : forall rows,
  check_each_row f rows = Ok tt -> In r rows -> exists u, f r = Ok u.
Proof.
  induction rows as [|x rows IH]; simpl; intros H Hin; [tauto|].
  inv_ok H. destruct Hin as [->|Hin]; eauto.
Qed.

Lemma registerForEvent_inactive_user now req body e d :
  active_user (target_user req body) d = false ->
  succeeded (registerForEvent now req body e d).1 = false /\
  (registerForEvent now req body e d).2 = d.
Proof.
  intros Hu. set (u := target_user req body) in *.
  assert (Hsafe : succeeded (register_through_safe_function now u e d).1 = false /\
                  (register_through_safe_function now u e d).2 = d).
  { destruct (register_through_safe_function now u e d) as [o d'] eqn:Hreg.
    destruct o as [rid|rid| | | | |]; simpl;
      try (split; [reflexivity|];
           eapply register_through_safe_function_unchanged;
           [exact Hreg | discriminate]).
    - apply register_through_safe_function_Created in Hreg.
      unfold insert_registration in Hreg. inv_ok Hreg.
      match goal with
      | H : validate_registration_data _ _ _ _ _ = Ok ?a |- _ =>
          destruct a; apply validate_registration_data_user in H; congruence
      end.
    - exfalso.
      exact (register_through_safe_function_not_Reactivated _ _ _ _ _
               (f_equal fst Hreg)). }
  unfold registerForEvent. fold u.
  destruct (select_active_event e d) as [ev|]; [|auto].
  destruct (date_time ev <=? now); [auto|].
  destruct (current_registrations ev >=? capacity ev); [auto|].
  destruct (List.filter (row_of u e) (registrations d)) as [|r rows] eqn:Hf;
    [exact Hsafe|].
  destruct (status r); auto.
  unfold reactivate.
  destruct (update_registration_confirmed now (reg_id r) d) as [[rs d']|] eqn:Hup;
    [|auto].
  exfalso. unfold update_registration_confirmed in Hup. inv_ok Hup.
  assert (Hin : In r (List.filter (row_of u e) (registrations d)))
    by (rewrite Hf; left; reflexivity).
  apply filter_In in Hin. destruct Hin as [Hin Hrow].
  destruct a. eapply (check_each_row_In _ r) in Hstep.
  - destruct Hstep as (x & Hstep). inv_ok Hstep.
    match goal with
    | H : validate_registration_data _ _ _ _ _ = Ok ?a |- _ =>
        destruct a; apply validate_registration_data_user in H;
        unfold row_of in Hrow; apply andb_true_iff in Hrow;
        replace (user_id r) with u in H by lia; congruence
    end.
  - apply filter_In. split; [exact Hin|]. apply Z.eqb_refl.
Qed.

(** X5.  A registration needs an existing, active user.  When the user the
    request is for ([req.body.user_id || req.user.id]) does not exist or is
    not active, [registerForEvent] neither creates nor reactivates a
    registration, and the rows of [registrations], [events] and [users] are
    afterwards what they were, whatever the event and the rows already
    there: the trigger [validate_registration_data] refuses the INSERT and
    the UPDATE alike.  (Nothing is said of the sequence of registration ids,
    which a refused INSERT has drawn from.) *)
Theorem register_needs_an_active_user (now req : Z) (body : option Z) (e : Z)
    (d : db) :
  active_user (target_user req body) d = false ->
  succeeded (registerForEvent now req body e d).1 = false /\
  registrations (registerForEvent now req body e d).2 = registrations d /\
  events (registerForEvent now req body e d).2 = events d /\
  users (registerForEvent now req body e d).2 = users d.
Proof.
  intros Hu.
  destruct (registerForEvent_inactive_user now req body e d Hu) as [Ho Hd].
  rewrite Hd. auto.
Qed.

Lemma register_needs_an_active_user_witness :
  succeeded (registerForEvent T0 2 None 7 store_with_suspended_user).1 = false /\
  registrations (registerForEvent T0 2 None 7 store_with_suspended_user).2
    = [mkRegistration 1 2 7 (T0 - hour) cancelled] /\
  event_counter 7 (registerForEvent T0 2 None 7 store_with_suspended_user).2
    = Some 0.
Proof.
  destruct (register_needs_an_active_user T0 2 None 7 store_with_suspended_user
              eq_refl) as (Ho & Hr & He & _).
  split; [exact Ho|]. split; [exact Hr|].
  unfold event_counter. rewrite He. reflexivity.
Defined.

(** ** The primary key of [registrations] *)

Lemma update_current_registrations_seq now eid n d d' :
  update_current_registrations now eid n d = Ok d' ->
  registrations_id_seq d' = registrations_id_seq d /\
  events_id_seq d' = events_id_seq d.
Proof.
  unfold update_current_registrations.
  destruct (events d !! eid) as [old|].
  - intros H. inv_ok H. injection H as <-. split; reflexivity.
  - intros [= <-]. split; reflexivity.
Qed.

Lemma trigger_seq now op eid d d' :
  update_event_registration_count now op eid d = Ok d' ->
  registrations_id_seq d' = registrations_id_seq d /\
  events_id_seq d' = events_id_seq d.
Proof.
  unfold update_event_registration_count. intros H.
  destruct op; [inv_ok H| |]; eauto using update_current_registrations_seq.
Qed.

Lemma for_each_trigger_seq now op eids : forall d d',
  for_each_row (update_event_registration_count now op) eids d = Ok d' ->
  registrations_id_seq d' = registrations_id_seq d /\
  events_id_seq d' = events_id_seq d.
Proof.
  induction eids as [|eid eids IH]; intros d d' H.
  - injection H as <-. split; reflexivity.
  - rewrite for_each_row_cons in H. apply bind_Ok in H.
    destruct H as (d1 & Hstep & H). apply trigger_seq in Hstep. apply IH in H.
    destruct Hstep, H. split; congruence.
Qed.

Lemma insert_registration_seq now uid eid st d rid d' :
  insert_registration now uid eid st d = Ok (rid, d') ->
  registrations_id_seq d' = registrations_id_seq d + 1 /\
  events_id_seq d' = events_id_seq d.
Proof.
  unfold insert_registration. intros H. inv_ok H. injection H as _ <-.
  match goal with
  | H : update_event_registration_count _ _ _ _ = Ok _ |- _ =>
      apply trigger_seq in H; exact H
  end.
Qed.

Lemma update_registration_confirmed_seq now rid d rows d' :
  update_registration_confirmed now rid d = Ok (rows, d') ->
  registrations_id_seq d' = registrations_id_seq d /\
  events_id_seq d' = events_id_seq d.
Proof.
  unfold update_registration_confirmed. intros H. inv_ok H. injection H as _ <-.
  match goal with
  | H : for_each_row _ _ _ = Ok _ |- _ => apply for_each_trigger_seq in H; exact H
  end.
Qed.

Lemma delete_registrations_seq now p d d' :
  delete_registrations now p d = Ok d' ->
  registrations_id_seq d' = registrations_id_seq d /\
  events_id_seq d' = events_id_seq d.
Proof.
  unfold delete_registrations. intros H. apply for_each_trigger_seq in H. exact H.
Qed.

Lemma serial_ids_filter (p : registration -> bool) d d' :
  serial_ids d ->
  registrations d' = List.filter p (registrations d) ->
  registrations_id_seq d' = registrations_id_seq d ->
  serial_ids d'.
Proof.
  unfold serial_ids. intros [Hnd Hlt] -> ->. split.
  - clear Hlt. induction (registrations d) as [|r rs IH]; simpl; [constructor|].
    inversion Hnd as [|? ? Hnin Hnd']; subst.
    destruct (p r); simpl; [|auto]. constructor; [|auto].
    intros Hin. apply Hnin. apply in_map_iff in Hin.
    destruct Hin as (r' & Hk & Hin). apply filter_In in Hin.
    apply in_map_iff. exists r'. tauto.
  - intros r Hin. apply filter_In in Hin. apply Hlt. tauto.
Qed.

Lemma serial_ids_confirm now rid d d' :
  serial_ids d ->
  registrations d' =
    List.map (fun r => if reg_id r =? rid then set_status confirmed now r else r)
             (registrations d) ->
  registrations_id_seq d' = registrations_id_seq d ->
  serial_ids d'.
Proof.
  unfold serial_ids. intros [Hnd Hlt] -> ->. split.
  - rewrite List.map_map. erewrite List.map_ext; [exact Hnd|].
    intros r. simpl. destruct (reg_id r =? rid); reflexivity.
  - intros r Hin. apply in_map_iff in Hin. destruct Hin as (r' & <- & Hin).
    apply Hlt in Hin. destruct (reg_id r' =? rid); exact Hin.
Qed.

Lemma serial_ids_insert now uid eid st d rid d' :
  serial_ids d ->
  insert_registration now uid eid st d = Ok (rid, d') -> serial_ids d'.
Proof.
  unfold serial_ids. intros [Hnd Hlt] H.
  pose proof (insert_registration_seq _ _ _ _ _ _ _ H) as [Hseq _].
  apply insert_registration_Ok in H. destruct H as (-> & Hr & _).
  rewrite Hr, Hseq, map_app. simpl. split.
  - apply NoDup_ListNoDup, NoDup_app. repeat split.
    + apply NoDup_ListNoDup, Hnd.
    + intros k Hk Hk'. apply list_elem_of_In in Hk.
      apply list_elem_of_singleton in Hk'. subst k.
      apply in_map_iff in Hk. destruct Hk as (r & Hk & Hin).
      apply Hlt in Hin. lia.
    + apply NoDup_singleton.
  - intros r Hin. apply in_app_or in Hin. destruct Hin as [Hin|[<-|[]]].
    + apply Hlt in Hin. lia.
    + simpl. lia.
Qed.

Lemma serial_ids_delete_event now eid d d' :
  serial_ids d -> delete_event now eid d = Ok d' -> serial_ids d'.
Proof.
  unfold delete_event. intros Hs H.
  pose proof (delete_registrations_seq _ _ _ _ H) as [Hseq _].
  apply delete_registrations_Ok in H.
  exact (serial_ids_filter _ (with_events (delete eid (events d)) d) d' Hs H Hseq).
Qed.

Lemma for_each_delete_event_serial now eids : forall d d',
  serial_ids d -> for_each_row (delete_event now) eids d = Ok d' -> serial_ids d'.
Proof.
  induction eids as [|x eids IH]; intros d d' Hs H.
  - injection H as <-. exact Hs.
  - rewrite for_each_row_cons in H. apply bind_Ok in H.
    destruct H as (d1 & Hdel & H). eapply IH; [|exact H].
    eapply serial_ids_delete_event; eassumption.
Qed.

Lemma run_serial now op d : serial_ids d -> serial_ids (run now op d).
Proof.
  intros Hs. destruct op; simpl.
  - destruct (registerForEvent_statement now req_user_id body_user_id eventId d)
      as [->|[(rid & H)|(rid & rows & H)]]; eauto using serial_ids_insert.
    pose proof (update_registration_confirmed_seq _ _ _ _ _ H) as [Hseq _].
    apply update_registration_confirmed_Ok in H.
    eapply serial_ids_confirm; eassumption.
  - destruct (cancelRegistration_statement now requestingUserId is_admin
                targetUserId eventId d) as [->|H]; [exact Hs|].
    pose proof (delete_registrations_seq _ _ _ _ H) as [Hseq _].
    apply delete_registrations_Ok in H. eapply serial_ids_filter; eassumption.
  - destruct (delete_event now eid d) eqn:H; simpl; [|exact Hs].
    eapply serial_ids_delete_event; eassumption.
  - destruct (delete_user now uid d) eqn:H; simpl; [|exact Hs].
    unfold delete_user in H. inv_ok H.
    pose proof (delete_registrations_seq _ _ _ _ H) as [Hseq _].
    apply delete_registrations_Ok in H.
    eapply serial_ids_filter; [|exact H|exact Hseq].
    eapply for_each_delete_event_serial; [|eassumption]. exact Hs.
  - destruct (insert_registration now uid eid st d) as [[rid d']|] eqn:H; simpl;
      eauto using serial_ids_insert.
  - destruct (update_registration_confirmed now rid d) as [[rows d']|] eqn:H;
      simpl; [|exact Hs].
    pose proof (update_registration_confirmed_seq _ _ _ _ _ H) as [Hseq _].
    apply update_registration_confirmed_Ok in H.
    eapply serial_ids_confirm; eassumption.
  - destruct (delete_registrations now (row_of uid eid) d) eqn:H; simpl; [|exact Hs].
    pose proof (delete_registrations_seq _ _ _ _ H) as [Hseq _].
    apply delete_registrations_Ok in H. eapply serial_ids_filter; eassumption.
Qed.

Lemma serial_ids_run_all history : forall d,
  serial_ids d -> serial_ids (run_all history d).
Proof.
  induction history as [|[now op] rest IH]; simpl; intros d Hs; [exact Hs|].
  apply IH, run_serial, Hs.
Qed.

Lemma serial_ids_hit d r :
  serial_ids d -> In r (registrations d) ->
  List.filter (fun x => reg_id x =? reg_id r) (registrations d) = [r].
Proof.
  unfold serial_ids. intros [Hnd _].
  induction (registrations d) as [|x rs IH]; simpl; intros Hin; [tauto|].
  inversion Hnd as [|? ? Hnin Hnd']; subst.
  assert (Hrest : forall y, In y rs -> reg_id y = reg_id x -> False).
  { intros y Hy Heq. apply Hnin. rewrite <- Heq. apply in_map, Hy. }
  destruct Hin as [->|Hin].
  - rewrite Z.eqb_refl. f_equal.
    clear IH Hnd Hnd' Hnin. induction rs as [|y rs IH]; simpl; [reflexivity|].
    destruct (reg_id y =? reg_id r) eqn:Hy.
    + exfalso. apply (Hrest y); [left; reflexivity | lia].
    + apply IH. intros z Hz. apply Hrest. right. exact Hz.
  - destruct (reg_id x =? reg_id r) eqn:Hx.
    + exfalso. apply (Hrest r Hin). lia.
    + apply IH; assumption.
Qed.

(** X6.  Along every history of requests, cascades and direct statements
    the primary key of [registrations] holds: no two rows share an id, and
    every id is below the next value of the sequence the ids are drawn
    from. *)
Theorem registration_ids_stay_unique (history : list (Z * operation)) (d : db) :
  serial_ids d ->
  serial_ids (run_all history d) /\
  forall r r', In r (registrations (run_all history d)) ->
               In r' (registrations (run_all history d)) ->
               reg_id r = reg_id r' -> r = r'.
Proof.
  intros Hs. apply (serial_ids_run_all history) in Hs. split; [exact Hs|].
  intros r r' Hr Hr' Heq.
  pose proof (serial_ids_hit _ r Hs Hr) as Hhit.
  assert (Hin : In r' (List.filter (fun x => reg_id x =? reg_id r)
                         (registrations (run_all history d)))).
  { apply filter_In. split; [exact Hr' | lia]. }
  rewrite Hhit in Hin. destruct Hin as [Hin|[]]. exact Hin.
Qed.

Lemma registration_ids_stay_unique_witness :
  serial_ids
    (run_all [(T0, op_register 2 None 7); (T0, op_register 3 None 7);
              (T0, op_cancel 2 false 2 7); (T0, op_register 2 None 7)]
             (store 5)).
Proof.
  refine (proj1 (registration_ids_stay_unique _ (store 5) _)).
  split; [constructor | intros r []].
Defined.

(** ** Reactivation of a cancelled registration *)

Lemma map_confirm_no_hit now rid rs :
  List.filter (fun x => reg_id x =? rid) rs = [] ->
  List.map (fun x => if reg_id x =? rid then set_status confirmed now x else x) rs
    = rs.
Proof.
  induction rs as [|x rs IH]; simpl; [reflexivity|].
  destruct (reg_id x =? rid); [discriminate|]. intros H. rewrite IH; auto.
Qed.

Lemma count_confirmed_reactivated now r e : forall rs,
  List.filter (fun x => reg_id x =? reg_id r) rs = [r] ->
  event_id r = e -> status r = cancelled ->
  count_confirmed
    (List.map (fun x => if reg_id x =? reg_id r
                        then set_status confirmed now x else x) rs) e
    = count_confirmed rs e + 1.
Proof.
  intros rs Hf He Hst. unfold count_confirmed.
  induction rs as [|x rs IH]; [discriminate|].
  simpl in Hf. cbn [List.map List.filter].
  destruct (reg_id x =? reg_id r) eqn:Hx.
  - injection Hf as -> Hnil. rewrite map_confirm_no_hit by exact Hnil.
    replace (confirmed_for e (set_status confirmed now r)) with true
      by (unfold confirmed_for; simpl; rewrite He, Z.eqb_refl; reflexivity).
    replace (confirmed_for e r) with false
      by (unfold confirmed_for; rewrite Hst, andb_false_r; reflexivity).
    cbn [length]. lia.
  - destruct (confirmed_for e x); cbn [length]; specialize (IH Hf); lia.
Qed.

(** X7.  Reactivation.  Let event [e] be active, upcoming, with a row that
    satisfies the constraints of the table and a counter that matches its
    confirmed registrations, let user [u] be active and have exactly one row
    for [e], with status [cancelled], and let one seat be free.  Then
    Register([u], [e]) answers Reactivated with the id of that row, sets the
    row to [confirmed] with [registered_at = now], adds no row, and raises
    the counter by one.  One free seat is enough: unlike a new registration,
    a reactivation can fill the event. *)
Theorem reactivation_confirms_the_row (now u e : Z) (d : db) (ev : event)
    (r : registration) :
  serial_ids d ->
  events d !! e = Some ev -> is_active ev = true -> now < date_time ev ->
  storable ev -> active_user u d = true ->
  rows_of u e d = [r] -> status r = cancelled ->
  current_registrations ev = count_confirmed (registrations d) e ->
  current_registrations ev < capacity ev ->
  Register now u e d =
    (Reactivated (reg_id r),
     mkDb (users d)
          (<[e := rewritten (current_registrations ev + 1) ev]> (events d))
          (List.map (fun x => if reg_id x =? reg_id r
                              then set_status confirmed now x else x)
                    (registrations d))
          (events_id_seq d) (registrations_id_seq d)).
Proof.
  intros Hser Hev Hact Hfut Hs Hu Hrows Hst Hcnt Hroom.
  pose proof (count_confirmed_nonneg (registrations d) e) as Hnn.
  unfold rows_of in Hrows.
  assert (Hin : In r (List.filter (row_of u e) (registrations d)))
    by (rewrite Hrows; left; reflexivity).
  apply filter_In in Hin. destruct Hin as [Hin Hrow].
  unfold row_of in Hrow. apply andb_true_iff in Hrow.
  assert (Hru : user_id r = u) by lia. assert (Hre : event_id r = e) by lia.
  pose proof (serial_ids_hit _ _ Hser Hin) as Hhit.
  unfold active_user in Hu.
  destruct (users d !! u) as [usr|] eqn:Husr; [|discriminate].
  unfold Register, registerForEvent, select_active_event. simpl target_user.
  rewrite Hev, Hact, Hrows, Hst.
  replace (date_time ev <=? now) with false by lia.
  replace (current_registrations ev >=? capacity ev) with false by lia.
  unfold reactivate, update_registration_confirmed. rewrite Hhit.
  cbn [check_each_row List.map]. rewrite Hru, Hre.
  unfold validate_registration_data, registrations_status_check.
  rewrite Hev, Husr, Hact, Hu.
  replace (date_time ev <=? now) with false by lia.
  replace (current_registrations ev >=? capacity ev) with false by lia.
  cbn [negb andb reg_status_eqb raise_if Pg.bind].
  rewrite for_each_row_single. unfold update_event_registration_count.
  cbn [with_registrations registrations].
  rewrite (count_confirmed_reactivated now r e) by assumption.
  rewrite (update_current_registrations_storable now e _ _ ev);
    [|exact Hev|exact Hs|exact Hfut|lia|lia].
  cbn. rewrite Hcnt. reflexivity.
Qed.

Lemma reactivation_confirms_the_row_witness :
  Register T0 2 7 (store_with_cancelled 1) =
    (Reactivated 1,
     mkDb people {[ 7 := rewritten 1 (conference 1) ]}
          [mkRegistration 1 2 7 T0 confirmed] 8 2).
Proof.
  pose proof (reactivation_confirms_the_row T0 2 7 (store_with_cancelled 1)
                (conference 1) (mkRegistration 1 2 7 (T0 - hour) cancelled)) as H.
  cbn [store_with_cancelled registrations registrations_id_seq users events
       events_id_seq] in H.
  rewrite insert_singleton in H. apply H; try reflexivity.
  - split; [repeat constructor; simpl; tauto|].
    intros r [<-|[]]. reflexivity.
  - repeat split; vm_compute; congruence.
Defined.

(** ** Cancellation *)

Lemma count_confirmed_split (p : registration -> bool) rs e :
  count_confirmed rs e =
  count_confirmed (List.filter p rs) e
  + count_confirmed (List.filter (fun r => negb (p r)) rs) e.
Proof.
  unfold count_confirmed. induction rs as [|r rs IH]; simpl; [reflexivity|].
  destruct (p r); simpl; destruct (confirmed_for e r); simpl length; lia.
Qed.

Lemma filter_filter_negb {A : Type} (p : A -> bool) l :
  List.filter p (List.filter (fun x => negb (p x)) l) = [].
Proof.
  induction l as [|x l IH]; simpl; [reflexivity|].
  destruct (p x) eqn:Hp; simpl; [exact IH|]. rewrite Hp. exact IH.
Qed.

Lemma count_confirmed_single r e :
  event_id r = e -> count_confirmed [r] e = seat r.
Proof.
  intros <-. unfold count_confirmed, seat, confirmed_for. simpl.
  rewrite Z.eqb_refl. simpl. destruct (reg_status_eqb _ _); reflexivity.
Qed.

Lemma seat_bounds r : 0 <= seat r <= 1.
Proof. unfold seat. destruct (reg_status_eqb _ _); lia. Qed.

Lemma cancelRegistration_deletes (now actor : Z) (adm : bool) (u e : Z) (d : db)
    (ev : event) (r : registration) :
  negb (u =? actor) && negb adm = false ->
  events d !! e = Some ev -> is_active ev = true -> now < date_time ev ->
  storable ev ->
  rows_of u e d = [r] ->
  current_registrations ev = count_confirmed (registrations d) e ->
  current_registrations ev <= capacity ev ->
  cancelRegistration now actor adm u e d =
    (Cancelled,
     mkDb (users d)
          (<[e := rewritten (current_registrations ev - seat r) ev]> (events d))
          (other_rows u e d) (events_id_seq d) (registrations_id_seq d)).
Proof.
  intros Hguard Hev Hact Hfut Hs Hrows Hcnt Hcap.
  unfold rows_of in Hrows.
  assert (Hin : In r (List.filter (row_of u e) (registrations d)))
    by (rewrite Hrows; left; reflexivity).
  apply filter_In in Hin. destruct Hin as [Hin Hrow].
  unfold row_of in Hrow. apply andb_true_iff in Hrow.
  assert (Hre : event_id r = e) by lia.
  assert (Hex : existsb (row_of u e) (registrations d) = true).
  { destruct (existsb _ _) eqn:Hx; [reflexivity|].
    apply existsb_filter_nil in Hx. congruence. }
  pose proof (count_confirmed_split (row_of u e) (registrations d) e) as Hsplit.
  rewrite Hrows, (count_confirmed_single r e Hre) in Hsplit.
  pose proof (seat_bounds r) as Hseat.
  pose proof (count_confirmed_nonneg
    (List.filter (fun r => negb (row_of u e r)) (registrations d)) e) as Hnn.
  unfold cancelRegistration, select_active_event.
  rewrite Hguard, Hev, Hact.
  replace (date_time ev <=? now) with false by lia.
  unfold safe_event_unregistration, select_active_event.
  rewrite Hev, Hact, Hex.
  replace (date_time ev <=? now) with false by lia.
  cbn [negb raise_if Pg.bind].
  unfold delete_registrations. rewrite Hrows. cbn [List.map]. rewrite Hre.
  rewrite for_each_row_single. unfold update_event_registration_count.
  cbn [with_registrations registrations].
  rewrite (update_current_registrations_storable now e _ _ ev);
    [|exact Hev|exact Hs|exact Hfut|lia|lia].
  cbn. unfold other_rows.
  replace (count_confirmed
             (List.filter (fun r0 => negb (row_of u e r0)) (registrations d)) e)
    with (current_registrations ev - seat r) by lia.
  reflexivity.
Qed.

(** X8.  The happy path of Cancel.  Let event [e] be active, upcoming, with
    a row that satisfies the constraints of the table and a counter that
    matches its confirmed registrations and does not exceed the capacity, and
    let user [u] have exactly one row [r] for [e].  Then Cancel by [u] for
    [u] answers Cancelled, deletes exactly that row, and lowers the counter
    by one when the row was confirmed and not at all otherwise; nothing else
    changes. *)
Theorem cancel_succeeds (now u e : Z) (d : db) (ev : event) (r : registration) :
  events d !! e = Some ev -> is_active ev = true -> now < date_time ev ->
  storable ev ->
  rows_of u e d = [r] ->
  current_registrations ev = count_confirmed (registrations d) e ->
  current_registrations ev <= capacity ev ->
  Cancel now u u e d =
    (Cancelled,
     mkDb (users d)
          (<[e := rewritten (current_registrations ev - seat r) ev]> (events d))
          (other_rows u e d) (events_id_seq d) (registrations_id_seq d)).
Proof.
  intros. unfold Cancel. apply cancelRegistration_deletes; try assumption.
  rewrite Z.eqb_refl. reflexivity.
Qed.

Lemma cancel_succeeds_witness :
  Cancel T0 2 2 7 (store_with_cancelled 3) =
    (Cancelled, mkDb people {[ 7 := rewritten 0 (conference 3) ]} [] 8 2).
Proof.
  pose proof (cancel_succeeds T0 2 7 (store_with_cancelled 3) (conference 3)
                (mkRegistration 1 2 7 (T0 - hour) cancelled)) as H.
  cbn [store_with_cancelled registrations registrations_id_seq users events
       events_id_seq] in H.
  rewrite insert_singleton in H. apply H; try reflexivity.
  - repeat split; vm_compute; congruence.
  - vm_compute. congruence.
Defined.

(** X9.  After a successful Cancel for ([u], [e]), a second Cancel for the
    same pair, at any moment before the event, answers NotRegistered (404
    'Registration not found') and leaves the store as the first one left
    it. *)
Theorem cancel_twice_not_registered (now now' actor u e : Z) (d d1 : db)
    (ev : event) :
  Cancel now actor u e d = (Cancelled, d1) ->
  events d !! e = Some ev -> now' < date_time ev ->
  Cancel now' actor u e d1 = (NotRegistered, d1).
Proof.
  unfold Cancel. intros H Hev Hfut.
  assert (Hact : is_active ev = true /\ (u =? actor) = true).
  { unfold cancelRegistration, select_active_event in H.
    destruct (u =? actor); [|discriminate]. cbn [negb andb] in H.
    rewrite Hev in H. destruct (is_active ev); [auto | discriminate]. }
  destruct Hact as [Hact Hself].
  apply cancelRegistration_Cancelled in H.
  destruct H as (ev0 & Hev0 & Hne & Hdel).
  eapply delete_registrations_rows_of in Hdel; [|exact Hne|exact Hev].
  destruct Hdel as (Hr & _ & (ev' & Hev' & (Hdt & _ & Hact' & _) & _) & _).
  assert (Hex : existsb (row_of u e) (registrations d1) = false).
  { apply existsb_filter_nil. rewrite Hr. apply filter_filter_negb. }
  unfold cancelRegistration, select_active_event.
  rewrite Hself, Hev', Hact', Hact. cbn [negb andb].
  replace (date_time ev' <=? now') with false by lia.
  unfold safe_event_unregistration, select_active_event.
  rewrite Hev', Hact', Hact, Hex.
  replace (date_time ev' <=? now') with false by lia.
  reflexivity.
Qed.

Lemma cancel_twice_not_registered_witness :
  Cancel (T0 + hour) 2 2 7 (Cancel T0 2 2 7 (store_with_cancelled 3)).2 =
    (NotRegistered, (Cancel T0 2 2 7 (store_with_cancelled 3)).2).
Proof.
  apply (cancel_twice_not_registered T0 (T0 + hour) 2 2 7
           (store_with_cancelled 3) _ (conference 3)); reflexivity.
Defined.

(** ** A request touches one event and one pair (user, event) *)

Lemma cancelRegistration_unchanged now req adm target e d o d' :
  cancelRegistration now req adm target e d = (o, d') -> o <> Cancelled -> d' = d.
Proof.
  unfold cancelRegistration. intros H Ho.
  destruct (_ && _); [congruence|].
  destruct (select_active_event e d) as [ev|]; [|congruence].
  destruct (date_time ev <=? now); [congruence|].
  unfold safe_event_unregistration in H.
  destruct (exception_when_others _ d) as [j d''] eqn:Hs.
  apply exception_when_others_inv in Hs.
  destruct Hs as [(a & _ & ->)|(ex & _ & -> & ->)].
  - injection H as <- _. congruence.
  - destruct (sqlstate_of ex); congruence.
Qed.

Lemma filter_negb_idem {A : Type} (p : A -> bool) l :
  List.filter (fun x => negb (p x)) (List.filter (fun x => negb (p x)) l)
    = List.filter (fun x => negb (p x)) l.
Proof.
  induction l as [|x l IH]; simpl; [reflexivity|].
  destruct (p x) eqn:Hp; simpl; [exact IH|]. rewrite Hp. simpl. f_equal. exact IH.
Qed.

(** X10.  Whatever its outcome, a Cancel request for ([u], [e]) leaves the
    users, every event other than [e], the two sequences and every
    registration row that is not a row of [u] for [e] as they were; of event
    [e] it keeps date, capacity, activity and owner. *)
Theorem cancel_touches_one_pair (now actor : Z) (adm : bool) (u e : Z) (d : db) :
  let d' := (cancelRegistration now actor adm u e d).2 in
  same_elsewhere e d d' /\
  registrations_id_seq d' = registrations_id_seq d /\
  other_rows u e d' = other_rows u e d /\
  forall ev, events d !! e = Some ev ->
    exists ev', events d' !! e = Some ev' /\ same_schedule ev' ev.
Proof.
  simpl.
  destruct (cancelRegistration now actor adm u e d) as [o d'] eqn:H. simpl.
  assert (Hsame : d' = d ->
    same_elsewhere e d d' /\ registrations_id_seq d' = registrations_id_seq d /\
    other_rows u e d' = other_rows u e d /\
    forall ev, events d !! e = Some ev ->
      exists ev', events d' !! e = Some ev' /\ same_schedule ev' ev).
  { intros ->. split; [|split; [|split]]; try reflexivity.
    - unfold same_elsewhere. auto.
    - intros ev Hev. exists ev. split; [exact Hev|]. repeat split. }
  destruct o; try (apply Hsame; eapply cancelRegistration_unchanged;
                   [exact H | discriminate]).
  clear Hsame. apply cancelRegistration_Cancelled in H.
  destruct H as (ev & Hev & Hne & Hdel).
  pose proof (delete_registrations_seq _ _ _ _ Hdel) as [Hseq Hseq'].
  eapply delete_registrations_rows_of in Hdel; [|exact Hne|exact Hev].
  destruct Hdel as (Hr & Hu & (ev' & Hev' & Hsch & _) & Hother).
  split; [|split; [|split]].
  - unfold same_elsewhere. auto.
  - exact Hseq.
  - unfold other_rows. rewrite Hr. apply filter_negb_idem.
  - intros ev0 Hev0. exists ev'. split; [exact Hev'|]. congruence.
Qed.

Lemma registerForEvent_cases now req body e d :
  let u := target_user req body in
  let d' := (registerForEvent now req body e d).2 in
  d' = d \/
  (exists rid, insert_registration now u e confirmed d = Ok (rid, d')) \/
  (exists r rows ev,
     In r (registrations d) /\ row_of u e r = true /\ events d !! e = Some ev /\
     update_registration_confirmed now (reg_id r) d = Ok (rows, d')).
Proof.
  simpl. unfold registerForEvent. set (u := target_user req body).
  unfold select_active_event.
  destruct (events d !! e) as [ev|] eqn:Hev; [|auto].
  destruct (is_active ev); [|auto].
  destruct (date_time ev <=? now); [auto|].
  destruct (current_registrations ev >=? capacity ev); [auto|].
  assert (Hsafe :
    (register_through_safe_function now u e d).2 = d \/
    exists rid, insert_registration now u e confirmed d
                = Ok (rid, (register_through_safe_function now u e d).2)).
  { destruct (register_through_safe_function now u e d) as [o d'] eqn:Hreg.
    simpl. destruct o as [rid|rid| | | | |];
      try (left; eapply register_through_safe_function_unchanged;
           [exact Hreg | discriminate]).
    right. exists rid. eapply register_through_safe_function_Created. exact Hreg. }
  destruct (List.filter (row_of u e) (registrations d)) as [|r rest] eqn:Hf.
  - destruct Hsafe; auto.
  - destruct (status r); auto; try (destruct Hsafe; auto; fail).
    unfold reactivate.
    destruct (update_registration_confirmed now (reg_id r) d) as [[rows d']|] eqn:Hu;
      simpl; [|auto].
    right. right. exists r, rows, ev.
    assert (Hin : In r (List.filter (row_of u e) (registrations d)))
      by (rewrite Hf; left; reflexivity).
    apply filter_In in Hin. tauto.
Qed.

Lemma update_registration_confirmed_one now r d rows d' ev :
  serial_ids d -> In r (registrations d) ->
  events d !! event_id r = Some ev ->
  update_registration_confirmed now (reg_id r) d = Ok (rows, d') ->
  users d' = users d /\
  (forall id, id <> event_id r -> events d' !! id = events d !! id) /\
  (exists ev', events d' !! event_id r = Some ev' /\ same_schedule ev' ev).
Proof.
  intros Hs Hin Hev H. unfold update_registration_confirmed in H.
  rewrite (serial_ids_hit _ _ Hs Hin) in H. inv_ok H. injection H as _ <-.
  match goal with
  | H : for_each_row _ _ _ = Ok _ |- _ =>
      cbn [List.map] in H; rewrite for_each_row_single in H;
      pose proof (update_event_registration_count_Ok _ _ _ _ _ H) as (_ & Hu & _);
      eapply update_event_registration_count_lookup in H; [|exact Hev];
      destruct H as ((ev' & Hl & Hsch & _) & Hother & _)
  end.
  split; [exact Hu|]. split; [exact Hother|]. eauto.
Qed.

Lemma other_rows_confirm now rid u e : forall rs,
  (forall x, In x rs -> reg_id x = rid -> row_of u e x = true) ->
  List.filter (fun x => negb (row_of u e x))
    (List.map (fun x => if reg_id x =? rid then set_status confirmed now x else x) rs)
  = List.filter (fun x => negb (row_of u e x)) rs.
Proof.
  induction rs as [|x rs IH]; intros Hhit; [reflexivity|].
  cbn [List.map List.filter].
  rewrite IH by (intros y Hy; apply Hhit; right; exact Hy).
  destruct (reg_id x =? rid) eqn:Hx; [|reflexivity].
  assert (Hrow : row_of u e x = true) by (apply Hhit; [left; reflexivity | lia]).
  replace (row_of u e (set_status confirmed now x)) with true by exact (eq_sym Hrow).
  rewrite Hrow. reflexivity.
Qed.

(** X11.  Whatever its outcome, a Register request for user [u] and event
    [e], run on a store whose registration ids are unique, leaves the users,
    every event other than [e], the sequence of event ids and every
    registration row that is not a row of [u] for [e] as they were; of event
    [e] it keeps date, capacity, activity and owner. *)
Theorem register_touches_one_pair (now req : Z) (body : option Z) (e : Z)
    (d : db) :
  serial_ids d ->
  let u := target_user req body in
  let d' := (registerForEvent now req body e d).2 in
  same_elsewhere e d d' /\
  other_rows u e d' = other_rows u e d /\
  forall ev, events d !! e = Some ev ->
    exists ev', events d' !! e = Some ev' /\ same_schedule ev' ev.
Proof.
  intros Hs. simpl.
  destruct (registerForEvent_cases now req body e d)
    as [->|[(rid & H)|(r & rows & ev & Hin & Hrow & Hev & H)]].
  - split; [|split]; try reflexivity.
    + unfold same_elsewhere. auto.
    + intros ev Hev. exists ev. split; [exact Hev|]. repeat split.
  - pose proof (insert_registration_seq _ _ _ _ _ _ _ H) as [_ Hseq].
    apply insert_registration_Ok in H.
    destruct H as (_ & Hr & Hu & _ & (ev & ev' & Hev & Hev' & Hsch & _) & Hother).
    split; [|split].
    + unfold same_elsewhere. auto.
    + unfold other_rows. rewrite Hr, List.filter_app. cbn [List.filter].
      rewrite row_of_new. cbn [negb]. apply app_nil_r.
    + intros ev0 Hev0. exists ev'. split; [exact Hev'|]. congruence.
  - assert (Hre : event_id r = e)
      by (unfold row_of in Hrow; apply andb_true_iff in Hrow; lia).
    pose proof (update_registration_confirmed_seq _ _ _ _ _ H) as [_ Hseq].
    pose proof (update_registration_confirmed_Ok _ _ _ _ _ H) as Hr.
    rewrite <- Hre in Hev.
    eapply update_registration_confirmed_one in H; [|exact Hs|exact Hin|exact Hev].
    destruct H as (Hu & Hother & (ev' & Hev' & Hsch)). rewrite Hre in *.
    split; [|split].
    + unfold same_elsewhere. auto.
    + unfold other_rows. rewrite Hr. apply other_rows_confirm.
      intros x Hx Heq.
      pose proof (serial_ids_hit _ _ Hs Hin) as Hhit.
      assert (Hx' : In x (List.filter (fun y => reg_id y =? reg_id r)
                            (registrations d))).
      { apply filter_In. split; [exact Hx | lia]. }
      rewrite Hhit in Hx'. destruct Hx' as [<-|[]]. exact Hrow.
    + intros ev0 Hev0. exists ev'. split; [exact Hev'|]. congruence.
Qed.

Lemma register_touches_one_pair_witness :
  other_rows 3 7 (registerForEvent T0 3 None 7 (store_with_cancelled 3)).2
    = other_rows 3 7 (store_with_cancelled 3).
Proof.
  refine (proj1 (proj2 (register_touches_one_pair T0 3 None 7
                          (store_with_cancelled 3) _))).
  split; [repeat constructor; simpl; tauto|].
  intros r [<-|[]]. reflexivity.
Defined.

(** ** Creating an event *)









(** *** The branches for the CHECK constraints *)

Lemma events_check_constraints_Exception now new ex :
  events_check_constraints now new = Exception ex ->
  sqlerrm ex <> "events_valid_capacity" /\
  (sqlerrm ex = "events_future_date" -> date_time new <= now).
Proof.
  unfold events_check_constraints. intros H.
  repeat match type of H with
  | Pg.bind (raise_if ?c _ _) _ = Exception _ =>
      let Hc := fresh "Hc" in
      destruct c eqn:Hc; cbn [raise_if Pg.bind] in H;
      [injection H as <-; cbn [sqlerrm];
       split; [try discriminate | try discriminate; intros _]; try lia|]
  end.
  discriminate.
Qed.

Lemma events_write_row_not_mapped now old new ex :
  events_write_row now old new = Exception ex ->
  sqlstate_of ex = check_violation ->
  sqlerrm ex <> "events_valid_capacity" /\ sqlerrm ex <> "events_future_date".
Proof.
  unfold events_write_row. intros H.
  apply bind_Exception in H. destruct H as [H|(new1 & H1 & H)].
  { unfold validate_event_date in H. inv_exception H ltac:(discriminate). }
  apply bind_Exception in H. destruct H as [H|(new2 & H2 & H)].
  { unfold validate_event_data in H. inv_exception H ltac:(discriminate). }
  intros _.
  apply bind_Exception in H. destruct H as [H|(? & _ & H)]; [|discriminate].
  apply events_check_constraints_Exception in H. destruct H as [Hcap Hdate].
  split; [exact Hcap|]. intros Hmsg. apply Hdate in Hmsg.
  unfold validate_event_date in H1. inv_ok H1. injection H1 as <-.
  unfold validate_event_data in H2. inv_ok H2. injection H2 as <-.
  simpl in Hmsg. lia.
Qed.

(** X14.  The two branches of [createEvent] that translate a violated CHECK
    constraint are dead.  The handler never answers 'Capacity must be
    between 1 and 10000': [events_capacity_check], which is evaluated first,
    bounds the capacity as [events_valid_capacity] does.  And it answers
    'Event date must be in the future' only from its own test of step 2,
    never from [events_future_date]: the date triggers raise before the
    constraint is evaluated. *)
Theorem createEvent_constraint_branches_are_dead (now user : Z)
    (b : create_event_body) (d : db) :
  (createEvent now user b d).1 <> InvalidCapacity /\
  ((createEvent now user b d).1 = InvalidDate ->
   exists dt, body_date_time b = Some dt /\ dt <= now).
Proof.
  unfold createEvent.
  destruct (body_date_time b) as [dt|]; [|split; discriminate].
  destruct (dt <=? now) eqn:Hpast;
    [split; [discriminate | intros _; exists dt; split; [reflexivity | lia]]|].
  destruct (existsb _ _); [split; discriminate|].
  destruct (body_capacity b) as [cap|]; [|split; discriminate].
  destruct (insert_event _ _ _ _ _ _ _ d) as [[[id0 row0] d0]|ex] eqn:Hins;
    [split; discriminate|].
  assert (Hnot : sqlstate_of ex = check_violation ->
                 sqlerrm ex <> "events_valid_capacity" /\
                 sqlerrm ex <> "events_future_date").
  { unfold insert_event in Hins.
    apply bind_Exception in Hins. destruct Hins as [H|(? & _ & H)].
    { apply raise_if_Exception in H. rewrite H. discriminate. }
    apply bind_Exception in H. destruct H as [H|(? & _ & H)].
    { eapply events_write_row_not_mapped. exact H. }
    apply bind_Exception in H. destruct H as [H|(? & _ & H)]; [|discriminate].
    apply raise_if_Exception in H. rewrite H. discriminate. }
  destruct (sqlstate_of ex); try (split; discriminate).
  destruct (Hnot eq_refl) as [Hcap Hdate].
  destruct (String.eqb_spec (sqlerrm ex) "events_valid_capacity"); [tauto|].
  destruct (String.eqb_spec (sqlerrm ex) "events_future_date"); [tauto|].
  split; discriminate.
Qed.

(** ** The listing of upcoming events *)

Lemma insert_by_Permutation {A : Type} (le : A -> A -> bool) x l :
  Permutation (insert_by le x l) (x :: l).
Proof.
  induction l as [|y l IH]; simpl; [reflexivity|].
  destruct (le x y); [reflexivity|].
  rewrite IH. apply perm_swap.
Qed.

Lemma order_by_Permutation {A : Type} (le : A -> A -> bool) l :
  Permutation (order_by le l) l.
Proof.
  induction l as [|x l IH]; simpl; [reflexivity|].
  rewrite insert_by_Permutation, IH. reflexivity.
Qed.

Lemma filter_all {A : Type} (p : A -> bool) l :
  (forall x, In x l -> p x = true) -> List.filter p l = l.
Proof.
  induction l as [|x l IH]; simpl; intros H; [reflexivity|].
  rewrite H by (left; reflexivity). f_equal. apply IH. intros y Hy. apply H.
  right. exact Hy.
Qed.

Lemma next_page_arith pg lim total :
  1 <= lim -> 0 <= total -> (pg <? ceil_div total lim) = true <-> pg * lim < total.
Proof.
  intros Hlim Htot. unfold ceil_div.
  pose proof (Z.div_mod (total + lim - 1) lim ltac:(lia)) as Hdm.
  pose proof (Z.mod_pos_bound (total + lim - 1) lim ltac:(lia)) as Hmod.
  split; intros H.
  - apply Z.ltb_lt in H. nia.
  - apply Z.ltb_lt. nia.
Qed.

(** X16.  The pagination block tells the truth.  When every event has an
    existing owner (the foreign key of [created_by]) and [page] and [limit]
    are at least 1 (as [validateUpcomingEventsQuery] demands), the number of
    rows of a page is what [total_items] leaves for it,
    [max 0 (min limit (total_items - (page - 1) * limit))], and the page says
    [has_next_page = true] exactly when the same query for the next page
    returns at least one row. *)
Theorem has_next_page_iff_next_page (fulltext_match : string -> event -> bool)
    (ilike_contains : string -> string -> bool) (now : Z) (q : upcoming_query)
    (d : db) :
  owners_exist d ->
  1 <= default 1 (page q) -> 1 <= default 10 (limit q) ->
  let get := getUpcomingEvents fulltext_match ilike_contains now in
  Z.of_nat (length (get q d).1)
    = Z.max 0 (Z.min (default 10 (limit q))
                     (total_items (get q d).2
                      - (default 1 (page q) - 1) * default 10 (limit q))) /\
  (has_next_page (get q d).2 = true
     <-> (get (with_page (default 1 (page q) + 1) q) d).1 <> []).
Proof.
  intros Hfk Hpg Hlim. simpl. unfold getUpcomingEvents.
  cbn [fst snd has_next_page total_items with_page page limit default from_option
       search location_filter min_capacity max_capacity date_from date_to].
  change (fun '(_, e) => where_clause fulltext_match ilike_contains now
                           (with_page (default 1 (page q) + 1) q) e)
    with (fun '((_, e) : Z * event) =>
            where_clause fulltext_match ilike_contains now q e).
  set (matching := List.filter
         (fun '(_, e) => where_clause fulltext_match ilike_contains now q e)
         (map_to_list (events d))).
  assert (Hjoin : List.filter
            (fun '(_, e) => bool_decide (is_Some (users d !! created_by e)))
            matching = matching).
  { apply filter_all. intros [id e] Hin. apply filter_In in Hin.
    destruct Hin as [Hin _]. apply list_elem_of_In, elem_of_map_to_list in Hin.
    apply bool_decide_eq_true_2. eapply Hfk, Hin. }
  rewrite Hjoin. set (l := order_by listing_le matching).
  assert (Hlen : length l = length matching)
    by (apply Permutation_length, order_by_Permutation).
  rewrite <- Hlen. unfold limit_offset. split.
  - rewrite length_take, length_drop. nia.
  - rewrite next_page_arith by lia.
    replace (default 1 (page q) + 1 - 1) with (default 1 (page q)) by lia.
    assert (Hne : forall rows : list (Z * event),
              rows <> [] <-> (0 < length rows)%nat).
    { intros [|x rows]; simpl; split; intros H; try congruence; lia. }
    rewrite Hne, length_take, length_drop. nia.
Qed.

Lemma has_next_page_iff_next_page_witness :
  has_next_page
    (getUpcomingEvents no_text_match no_ilike T0
       (mkQuery (Some 1) (Some 1) None None "" "" None None None None)
       two_events).2 = true
  <-> (getUpcomingEvents no_text_match no_ilike T0
         (with_page 2 (mkQuery (Some 1) (Some 1) None None "" "" None None None None))
         two_events).1 <> [].
Proof.
  refine (proj2 (has_next_page_iff_next_page no_text_match no_ilike T0
            (mkQuery (Some 1) (Some 1) None None "" "" None None None None)
            two_events _ _ _)); [|simpl; lia|simpl; lia].
  intros id e H. unfold two_events in H. cbn [events] in H.
  apply lookup_insert_Some in H.
  destruct H as [[_ <-]|[_ H]]; [vm_compute; eauto|].
  apply lookup_singleton_Some in H. destruct H as [_ <-]. vm_compute. eauto.
Defined.

(** ** Batch registration *)





(** ** Registration statistics *)

Lemma count_status_total e rs :
  Z.of_nat (length (List.filter (fun r => event_id r =? e) rs)) =
  count_status e confirmed rs + count_status e waitlist rs
  + count_status e cancelled rs + count_status e pending rs.
Proof.
  unfold count_status. induction rs as [|r rs IH]; simpl; [reflexivity|].
  destruct (event_id r =? e); simpl; [|exact IH].
  destruct (status r); simpl; lia.
Qed.

Lemma count_status_pending e rs :
  (forall r, In r rs -> status r <> pending) -> count_status e pending rs = 0.
Proof.
  unfold count_status. intros H. induction rs as [|r rs IH]; simpl; [reflexivity|].
  destruct (event_id r =? e); simpl.
  - destruct (status r) eqn:Hs; simpl;
      try (apply IH; intros x Hx; apply H; right; exact Hx).
    exfalso. apply (H r); [left; reflexivity | exact Hs].
  - apply IH. intros x Hx. apply H. right. exact Hx.
Qed.

(** X18.  In a store in which the counters match the confirmed rows and lie
    within the capacity and no row carries a status outside the CHECK
    constraint, [get_event_registration_stats] reports figures that agree
    with each other and with the event row: [confirmed_registrations] is
    [current_registrations], [available_spots] is not negative and is
    [capacity - current_registrations], [is_full] holds exactly when no spot
    is available, and [total_registrations] is the sum of the confirmed,
    waitlisted and cancelled ones.  The function answers for an inactive
    event too, and where [GET /api/events/:id/stats] answers, its
    [capacity_utilization] carries the same figures. *)
Theorem stats_agree_with_the_counter (e : Z) (d : db) (s : registration_stats) :
  counter_matches d -> within_capacity d -> status_checked d ->
  get_event_registration_stats e d = Ok s ->
  stats_confirmed_registrations s = stats_current_registrations s /\
  stats_available_spots s = stats_capacity s - stats_current_registrations s /\
  0 <= stats_available_spots s /\
  (stats_is_full s = true <-> stats_available_spots s = 0) /\
  stats_total_registrations s
    = stats_confirmed_registrations s + stats_waitlist_registrations s
      + stats_cancelled_registrations s /\
  forall now st, getEventStats now e d = Some st ->
    stats_is_active s = true /\
    confirmed_registrations st = stats_confirmed_registrations s /\
    used (utilization st) = stats_confirmed_registrations s /\
    available (utilization st) = stats_available_spots s.
Proof.
  intros Hcm Hwc Hst H. unfold get_event_registration_stats in H.
  destruct (events d !! e) as [ev|] eqn:Hev; [|discriminate].
  injection H as <-. cbn.
  pose proof (Hcm _ _ Hev) as Hc. pose proof (Hwc _ _ Hev) as Hw.
  change (count_status e confirmed (registrations d))
    with (count_confirmed (registrations d) e).
  rewrite count_status_total, (count_status_pending e _ Hst).
  change (count_status e confirmed (registrations d))
    with (count_confirmed (registrations d) e).
  split; [lia|]. split; [lia|]. split; [lia|]. split; [lia|]. split; [lia|].
  intros now st Hget. unfold getEventStats, select_active_event in Hget.
  rewrite Hev in Hget. destruct (is_active ev); [|discriminate].
  injection Hget as <-. cbn.
  change (count_status e confirmed (registrations d))
    with (count_confirmed (registrations d) e).
  repeat split; lia.
Qed.

Lemma stats_agree_with_the_counter_witness :
  exists s,
    get_event_registration_stats 7 store_with_two_rows = Ok s /\
    stats_confirmed_registrations s = 1 /\
    stats_cancelled_registrations s = 1 /\
    stats_confirmed_registrations s = stats_current_registrations s /\
    stats_available_spots s = 2 /\
    stats_available_spots s = stats_capacity s - stats_current_registrations s /\
    (stats_is_full s = true <-> stats_available_spots s = 0) /\
    stats_total_registrations s = 2 /\
    stats_total_registrations s
      = stats_confirmed_registrations s + stats_waitlist_registrations s
        + stats_cancelled_registrations s /\
    forall now st, getEventStats now 7 store_with_two_rows = Some st ->
      used (utilization st) = 1 /\ available (utilization st) = 2.
Proof.
  eexists. split; [reflexivity|].
  match goal with
  | |- stats_confirmed_registrations ?s = _ /\ _ =>
      pose proof (stats_agree_with_the_counter 7 store_with_two_rows s) as H
  end.
  destruct H as (H1 & H2 & _ & H4 & H5 & H6).
  - intros id ev Hl. unfold store_with_two_rows in Hl. cbn [events] in Hl.
    apply lookup_singleton_Some in Hl. destruct Hl as [<- <-]. reflexivity.
  - intros id ev Hl. unfold store_with_two_rows in Hl. cbn [events] in Hl.
    apply lookup_singleton_Some in Hl. destruct Hl as [<- <-]. simpl. lia.
  - intros r [<-|[<-|[]]]; discriminate.
  - reflexivity.
  - split; [reflexivity|]. split; [reflexivity|]. split; [exact H1|].
    split; [reflexivity|]. split; [exact H2|]. split; [exact H4|].
    split; [reflexivity|]. split; [exact H5|].
    intros now st Hst. destruct (H6 now st Hst) as (_ & _ & Hused & Hav).
    split; [exact Hused | exact Hav].
Defined.

(** ** The time until an event *)

(** X19.  [calculateTimeUntilEvent] and [hasEventStarted] agree, and the
    breakdown is exact to the minute.  The helper answers 'Event has started
    or passed' exactly when [hasEventStarted] is true; otherwise [hours] is
    below 24, [minutes] below 60, none of the three fields is negative, and
    the days, hours and minutes together are the whole minutes of the
    distance: they fall short of [milliseconds] by less than one minute. *)
Theorem time_until_event_breakdown (now eventDateTime : Z) :
  match time_until_event_parts now eventDateTime with
  | None => hasEventStarted now eventDateTime = true
  | Some (days, hours, minutes) =>
      hasEventStarted now eventDateTime = false /\
      0 <= days /\ 0 <= hours < 24 /\ 0 <= minutes < 60 /\
      let whole := ((days * 24 + hours) * 60 + minutes) * 60000 in
      whole <= calculateTimeUntilEvent now eventDateTime < whole + 60000
  end.
Proof.
  unfold time_until_event_parts, hasEventStarted, calculateTimeUntilEvent.
  destruct (eventDateTime - now <=? 0) eqn:Hd; [lia|].
  change (1000 * 60 * 60 * 24) with 86400000.
  change (1000 * 60 * 60) with 3600000. change (1000 * 60) with 60000.
  cbv zeta. Z.to_euclidean_division_equations. lia.
Qed.

(** ** The audit of the business rules *)










(** ** The migration runner *)

Section RunnerProperties.
Import Migrations.

Variable schema : Type.
Variable calculateChecksum : string -> string.
Variable query : string -> schema -> option schema.

Lemma includes_In x l : includes x l = true <-> In x l.
Proof.
  unfold includes. rewrite existsb_exists. split.
  - intros (y & Hin & Heq). apply String.eqb_eq in Heq. subst. exact Hin.
  - intros Hin. exists x. split; [exact Hin | apply String.eqb_refl].
Qed.

Lemma readMigrationFile_includes dir f c :
  readMigrationFile dir f = Some c -> includes f (List.map fst dir) = true.
Proof.
  intros H. apply includes_In.
  induction dir as [|[f' c'] dir IH]; simpl in *; [discriminate|].
  destruct (String.eqb_spec f' f); [left; assumption | right; auto].
Qed.

Lemma apply_each_resolves dir : forall files (m m' : migration_db schema),
  apply_each schema calculateChecksum query dir files m = (None, m') ->
  exists contents,
    Forall2 (fun f content => readMigrationFile dir f = Some content)
            files contents /\
    schema_migrations m'
      = schema_migrations m
        ++ List.map (fun '(f, content) => (f, calculateChecksum content))
                    (zip files contents) /\
    execute_all schema query contents (db_schema m) = Some (db_schema m').
Proof.
  induction files as [|f files IH]; simpl; intros m m' H.
  - injection H as <-. exists []. simpl. rewrite app_nil_r.
    split; [constructor | auto].
  - destruct (applyMigration _ _ _ dir f m) as [m1|] eqn:Happ; [|discriminate].
    apply IH in H. destruct H as (contents & Hread & Hnew & Hexec).
    unfold applyMigration in Happ.
    destruct (readMigrationFile dir f) as [content|] eqn:Hfile; [|discriminate].
    destruct (query content (db_schema m)) as [s|] eqn:Hq; [|discriminate].
    destruct (includes f _); [discriminate|]. injection Happ as <-.
    simpl in Hnew, Hexec. exists (content :: contents).
    split; [constructor; assumption|]. split.
    + rewrite Hnew, <- app_assoc. reflexivity.
    + simpl. rewrite Hq. exact Hexec.
Qed.

(** X22.  When [runPendingMigrations] resolves, every file of the
    directory is recorded in [schema_migrations].  The records that were
    there stay; the pending files, those of the directory without a record,
    have each been read and executed exactly once, in the order of the
    directory, on the database the previous one left; and one record has
    been appended for each, in that order, with the checksum of the content
    that was executed. *)
Theorem migrations_are_applied_once (dir : directory)
    (m m' : migration_db schema) :
  runPendingMigrations schema calculateChecksum query dir m = (None, m') ->
  let pendingMigrations :=
    List.filter (fun f => negb (includes f (List.map fst (schema_migrations m))))
                (List.map fst dir) in
  (forall f, In f (List.map fst dir) ->
             In f (List.map fst (schema_migrations m'))) /\
  exists contents,
    Forall2 (fun f content => readMigrationFile dir f = Some content)
            pendingMigrations contents /\
    schema_migrations m'
      = schema_migrations m
        ++ List.map (fun '(f, content) => (f, calculateChecksum content))
                    (zip pendingMigrations contents) /\
    execute_all schema query contents (db_schema m) = Some (db_schema m').
Proof.
  unfold runPendingMigrations. intros H.
  destruct (forallb _ (schema_migrations m)) eqn:Hold; [|discriminate].
  apply apply_each_resolves in H.
  destruct H as (contents & Hread & Hnew & Hexec).
  cbv zeta. split; [|exists contents; auto].
  intros f Hin. rewrite Hnew, map_app, in_app_iff.
  destruct (includes f (List.map fst (schema_migrations m))) eqn:Hinc.
  - left. apply includes_In, Hinc.
  - right.
    assert (Hfst : List.map fst
              (List.map (fun '(f, content) => (f, calculateChecksum content))
                 (zip (List.filter
                         (fun f => negb (includes f
                                           (List.map fst (schema_migrations m))))
                         (List.map fst dir)) contents))
            = List.filter
                (fun f => negb (includes f (List.map fst (schema_migrations m))))
                (List.map fst dir)).
    { clear -Hread. induction Hread as [|x c xs cs _ _ IH]; simpl;
        [reflexivity | f_equal; exact IH]. }
    rewrite Hfst. apply filter_In. rewrite Hinc. auto.
Qed.

(** X23.  A migration that was modified after it had been applied blocks
    the runner.  When [schema_migrations] records a file of the directory
    with a checksum other than that of its present content,
    [runPendingMigrations] rejects before it applies anything: the database
    and [schema_migrations] stay as they were, pending migrations
    included. *)
Theorem modified_migration_blocks_the_runner (dir : directory)
    (m : migration_db schema) (filename checksum content : string) :
  In (filename, checksum) (schema_migrations m) ->
  readMigrationFile dir filename = Some content ->
  calculateChecksum content <> checksum ->
  runPendingMigrations schema calculateChecksum query dir m
    = (Some modified_after_applied, m).
Proof.
  intros Hin Hread Hne. unfold runPendingMigrations.
  replace (forallb _ (schema_migrations m)) with false; [reflexivity|].
  symmetry. apply not_true_is_false. intros Hall.
  rewrite forallb_forall in Hall. specialize (Hall _ Hin). simpl in Hall.
  rewrite (readMigrationFile_includes _ _ _ Hread) in Hall.
  unfold validateMigration in Hall. simpl in Hall. rewrite Hread in Hall.
  apply String.eqb_eq in Hall. contradiction.
Qed.

End RunnerProperties.

Lemma migrations_are_applied_once_witness :
  exists m',
    Migrations.runPendingMigrations (list string) id Migrations.logged_query
      Migrations.two_files
      (Migrations.mkMigrationDb ["CREATE TABLE users"]
         [("001_users.sql", "CREATE TABLE users")]) = (None, m') /\
    In "002_events.sql" (List.map fst (Migrations.schema_migrations m')) /\
    Migrations.schema_migrations m'
      = [("001_users.sql", "CREATE TABLE users");
         ("002_events.sql", "CREATE TABLE events")] /\
    Migrations.db_schema m' = ["CREATE TABLE users"; "CREATE TABLE events"].
Proof.
  eexists. split; [reflexivity|].
  match goal with
  | |- In _ (List.map fst (Migrations.schema_migrations ?m')) /\ _ =>
      destruct (migrations_are_applied_once (list string) id
                  Migrations.logged_query Migrations.two_files
                  (Migrations.mkMigrationDb ["CREATE TABLE users"]
                     [("001_users.sql", "CREATE TABLE users")]) m' eq_refl)
        as (Hall & contents & Hread & Hrec & Hexec)
  end.
  split; [apply Hall; right; left; reflexivity|].
  split; reflexivity.
Defined.

Lemma modified_migration_blocks_the_runner_witness :
  Migrations.runPendingMigrations (list string) id Migrations.logged_query
    Migrations.two_files
    (Migrations.mkMigrationDb ["CREATE TABLE user"]
       [("001_users.sql", "CREATE TABLE user")])
  = (Some Migrations.modified_after_applied,
     Migrations.mkMigrationDb ["CREATE TABLE user"]
       [("001_users.sql", "CREATE TABLE user")]).
Proof.
  apply (modified_migration_blocks_the_runner (list string) id
           Migrations.logged_query Migrations.two_files _
           "001_users.sql" "CREATE TABLE user" "CREATE TABLE users").
  - left. reflexivity.
  - reflexivity.
  - discriminate.
Defined.

(** ** The global error handler *)

(** X24.  Outside development mode the global error handler cannot report a
    validation error.  Whenever the error it is given, or the error that
    [handlePostgresError] or [handleCastError] makes of it, is named
    'ValidationError' and has no [errors] property, [handleValidationError]
    throws a TypeError and no response is written: so it is for every
    [ValidationError] of the application (the one [handleValidationErrors]
    passes on), for every foreign-key and CHECK violation (codes 23503 and
    23514) and for every 'CastError'.  In development mode the same
    [ValidationError] is answered with status 400. *)
Theorem production_handler_fails_on_validation_errors :
  (forall err,
     ErrorHandler.name err = Some "ValidationError" ->
     ErrorHandler.errors err = None ->
     ErrorHandler.starts_with_23 (ErrorHandler.code err) = false ->
     ErrorHandler.globalErrorHandler false err = ErrorHandler.TypeError) /\
  (forall msg,
     ErrorHandler.globalErrorHandler false (ErrorHandler.ValidationError msg)
       = ErrorHandler.TypeError) /\
  (forall err,
     ErrorHandler.code err = Some "23503" \/ ErrorHandler.code err = Some "23514" ->
     ErrorHandler.globalErrorHandler false err = ErrorHandler.TypeError) /\
  (forall err,
     ErrorHandler.name err = Some "CastError" ->
     ErrorHandler.starts_with_23 (ErrorHandler.code err) = false ->
     ErrorHandler.globalErrorHandler false err = ErrorHandler.TypeError) /\
  (forall msg,
     ErrorHandler.globalErrorHandler true (ErrorHandler.ValidationError msg)
       = ErrorHandler.json 400 "fail" msg).
Proof.
  split; [|split; [|split; [|split]]].
  - intros err Hn He Hc. unfold ErrorHandler.globalErrorHandler. cbn.
    rewrite Hc, Hn. cbn. unfold ErrorHandler.handleValidationError. cbn.
    rewrite He. reflexivity.
  - intros msg. reflexivity.
  - intros err [Hc|Hc]; unfold ErrorHandler.globalErrorHandler; cbn;
      rewrite Hc; cbn.
    + reflexivity.
    + destruct (ErrorHandler.equals "valid_capacity" _); [reflexivity|].
      destruct (ErrorHandler.equals "valid_registrations" _); [reflexivity|].
      destruct (ErrorHandler.equals "valid_dates" _); reflexivity.
  - intros err Hn Hc. unfold ErrorHandler.globalErrorHandler. cbn.
    rewrite Hc, Hn. reflexivity.
  - intros msg. reflexivity.
Qed.

(** X25.  What the global error handler lets through outside development
    mode.  The operational errors of the controllers keep their status and
    message: NotFoundError 404, ConflictError 409, BusinessLogicError 400,
    ForbiddenError 403 and UnauthorizedError 401, each with status 'fail'.
    Any error that is not operational, whose code does not begin with 23 and
    whose name is none of the four the handler knows, is answered 500
    'Something went wrong!', whatever its message: the SQLSTATE P0001 to
    P0005 of the triggers and stored functions are among them. *)
Theorem production_handler_hides_unknown_errors (err : ErrorHandler.js_error) :
  ErrorHandler.isOperational err = false ->
  ErrorHandler.starts_with_23 (ErrorHandler.code err) = false ->
  (forall n, ErrorHandler.name err = Some n ->
     n <> "CastError" /\ n <> "ValidationError" /\
     n <> "JsonWebTokenError" /\ n <> "TokenExpiredError") ->
  ErrorHandler.globalErrorHandler false err
    = ErrorHandler.json 500 "error" "Something went wrong!" /\
  (forall resource,
     ErrorHandler.globalErrorHandler false (ErrorHandler.NotFoundError resource)
       = ErrorHandler.json 404 "fail" (resource ++ " not found")) /\
  (forall msg,
     ErrorHandler.globalErrorHandler false (ErrorHandler.ConflictError msg)
       = ErrorHandler.json 409 "fail" msg /\
     ErrorHandler.globalErrorHandler false (ErrorHandler.BusinessLogicError msg)
       = ErrorHandler.json 400 "fail" msg /\
     ErrorHandler.globalErrorHandler false (ErrorHandler.ForbiddenError msg)
       = ErrorHandler.json 403 "fail" msg /\
     ErrorHandler.globalErrorHandler false (ErrorHandler.UnauthorizedError msg)
       = ErrorHandler.json 401 "fail" msg).
Proof.
  intros Hop Hc Hn. split; [|split; [reflexivity | repeat split]].
  unfold ErrorHandler.globalErrorHandler. cbv zeta.
  cbn [ErrorHandler.name ErrorHandler.code]. rewrite Hc.
  assert (Hno : forall s, (s = "CastError" \/ s = "ValidationError" \/
                           s = "JsonWebTokenError" \/ s = "TokenExpiredError") ->
                          ErrorHandler.equals s (ErrorHandler.name err) = false).
  { intros s Hs. unfold ErrorHandler.equals.
    destruct (ErrorHandler.name err) as [n|]; [|reflexivity].
    destruct (String.eqb_spec n s) as [->|]; [|reflexivity].
    destruct (Hn s eq_refl) as (? & ? & ? & ?). intuition congruence. }
  repeat (cbn [ErrorHandler.name]; rewrite Hno by tauto).
  unfold ErrorHandler.sendErrorProd. cbn [ErrorHandler.isOperational].
  rewrite Hop. reflexivity.
Qed.

Lemma production_handler_hides_unknown_errors_witness :
  ErrorHandler.globalErrorHandler false
    (ErrorHandler.DatabaseError "P0001" "" "Event has reached maximum capacity of 3")
  = ErrorHandler.json 500 "error" "Something went wrong!".
Proof.
  refine (proj1 (production_handler_hides_unknown_errors
                   (ErrorHandler.DatabaseError "P0001" ""
                      "Event has reached maximum capacity of 3") _ _ _)).
  - reflexivity.
  - reflexivity.
  - intros n [= <-]. repeat split; discriminate.
Defined.

(** ** Who sees the registered users *)

(** X26.  [GET /api/events/:id] discloses the list of registered users only
    to the owner of the event and to users with a confirmed registration for
    it; the list holds confirmed registrations of that event only, oldest
    first.  Everybody else, an anonymous visitor included, gets a count, and
    in a store whose counters match, that count is [current_registrations]
    and [available_spots] is the capacity less the confirmed
    registrations. *)
Theorem registered_users_are_disclosed_to_attendees (now e : Z)
    (viewer : option Z) (d : db) (det : event_details) :
  counter_matches d ->
  getEventDetails now e viewer d = Some det ->
  available_spots det
    = capacity (details_event det) - count_confirmed (registrations d) e /\
  match details_registered_users det with
  | users_list rows =>
      (viewer = Some (created_by (details_event det)) \/
       exists uid r, viewer = Some uid /\ In r (registrations d) /\
                     user_id r = uid /\ event_id r = e /\ status r = confirmed) /\
      Forall (fun r => In r (registrations d) /\ event_id r = e /\
                       status r = confirmed) rows /\
      Sorted (fun a b => registered_at a <= registered_at b) rows
  | users_count n =>
      n = current_registrations (details_event det) /\
      viewer <> Some (created_by (details_event det)) /\
      is_registered (permissions det) = false
  end.
Proof.
  intros Hcm H. unfold getEventDetails, select_active_event in H.
  destruct (events d !! e) as [ev|] eqn:Hev; [|discriminate].
  destruct (is_active ev); [|discriminate].
  destruct (users d !! created_by ev); [|discriminate].
  injection H as <-. cbn [available_spots details_event details_registered_users
                          permissions is_registered].
  split; [rewrite (Hcm _ _ Hev); reflexivity|].
  set (reg := match viewer with
              | Some uid => if negb (uid =? 0)
                            then checkUserRegistration e uid d else false
              | None => false
              end).
  destruct (bool_decide (viewer = Some (created_by ev)) || reg) eqn:Hsee.
  - split; [|split].
    + apply orb_true_iff in Hsee. destruct Hsee as [Ho|Hr].
      * left. apply bool_decide_eq_true_1 in Ho. exact Ho.
      * right. subst reg. destruct viewer as [uid|]; [|discriminate].
        destruct (negb (uid =? 0)); [|discriminate].
        unfold checkUserRegistration in Hr. apply existsb_exists in Hr.
        destruct Hr as (r & Hin & Hr).
        apply andb_true_iff in Hr. destruct Hr as [Hr Hs].
        apply andb_true_iff in Hr. destruct Hr as [He Hu].
        exists uid, r. repeat split; auto; try lia.
        destruct (status r); try discriminate. reflexivity.
    + apply Forall_forall. intros r Hin. apply list_elem_of_In in Hin.
      apply (Permutation_in _ (order_by_Permutation _ _)) in Hin.
      apply filter_In in Hin. destruct Hin as [Hin _].
      apply filter_In in Hin. destruct Hin as [Hin Hc].
      unfold confirmed_for in Hc. apply andb_true_iff in Hc.
      destruct Hc as [He Hs]. repeat split; auto; try lia.
      destruct (status r); try discriminate. reflexivity.
    + eapply Sorted_ind with
        (P := fun l => Sorted (fun a b => registered_at a <= registered_at b) l);
        [constructor| |apply order_by_Sorted].
      * intros a l _ Hs Hd. constructor; [exact Hs|].
        destruct Hd; constructor. lia.
      * intros a b. destruct (Z.le_ge_cases (registered_at a) (registered_at b));
          [left | right]; lia.
  - apply orb_false_iff in Hsee. destruct Hsee as [Ho Hr].
    split; [|split].
    + rewrite (Hcm _ _ Hev). reflexivity.
    + apply bool_decide_eq_false_1 in Ho. exact Ho.
    + exact Hr.
Qed.

Lemma registered_users_are_disclosed_to_attendees_witness :
  (exists det rows,
     getEventDetails T0 7 (Some 3) store_with_two_rows = Some det /\
     details_registered_users det = users_list rows /\
     rows = [mkRegistration 2 3 7 T0 confirmed] /\
     Forall (fun r => In r (registrations store_with_two_rows) /\
                      event_id r = 7 /\ status r = confirmed) rows /\
     exists uid r, Some 3 = Some uid /\ In r (registrations store_with_two_rows) /\
                   user_id r = uid /\ event_id r = 7 /\ status r = confirmed) /\
  (exists det,
     getEventDetails T0 7 (Some 2) store_with_two_rows = Some det /\
     details_registered_users det = users_count 1 /\
     is_registered (permissions det) = false).
Proof.
  assert (Hcm : counter_matches store_with_two_rows).
  { intros id ev Hl. unfold store_with_two_rows in Hl. cbn [events] in Hl.
    apply lookup_singleton_Some in Hl. destruct Hl as [<- <-]. reflexivity. }
  split.
  - eexists. eexists. split; [reflexivity|]. split; [reflexivity|].
    split; [reflexivity|].
    match goal with
    | |- Forall _ ?rows /\ _ =>
        pose proof (registered_users_are_disclosed_to_attendees T0 7 (Some 3)
                      store_with_two_rows _ Hcm eq_refl) as [_ H]
    end.
    cbn [details_registered_users] in H.
    destruct H as ([Hown|Hatt] & Hall & _); [discriminate Hown|].
    split; [exact Hall | exact Hatt].
  - eexists. split; [reflexivity|].
    pose proof (registered_users_are_disclosed_to_attendees T0 7 (Some 2)
                  store_with_two_rows _ Hcm eq_refl) as [_ H].
    cbn [details_registered_users] in H.
    destruct H as (Hn & _ & Hreg). split; [reflexivity | exact Hreg].
Defined.

(** ** Registrations for an event that has taken place *)

Lemma write_past_event_fails now n d e ev :
  events d !! e = Some ev -> date_time ev <= now ->
  exists ex, update_current_registrations now e n d = Exception ex.
Proof.
  intros Hev Hpast. unfold update_current_registrations. rewrite Hev.
  unfold events_write_row, validate_event_date.
  cbn [set_current_registrations date_time].
  rewrite Z.eqb_refl, andb_false_r.
  replace (date_time ev <=? now) with true by lia.
  cbn [raise_if Pg.bind]. eauto.
Qed.

Lemma trigger_past_event_fails now op d e ev :
  events d !! e = Some ev -> date_time ev <= now ->
  exists ex, update_event_registration_count now op e d = Exception ex.
Proof.
  intros Hev Hpast. unfold update_event_registration_count.
  destruct op; eauto using write_past_event_fails.
  rewrite Hev. cbn [fmap option_fmap option_map].
  destruct (_ >=? _); cbn [raise_if Pg.bind];
    eauto using write_past_event_fails.
Qed.

Lemma trigger_keeps_other_events now op x d d' e :
  update_event_registration_count now op x d = Ok d' -> x <> e ->
  events d' !! e = events d !! e.
Proof.
  intros H Hne.
  assert (Hw : forall n, update_current_registrations now x n d = Ok d' ->
                         events d' !! e = events d !! e).
  { intros n Hn. unfold update_current_registrations in Hn.
    destruct (events d !! x); [|injection Hn as <-; reflexivity].
    inv_ok Hn. injection Hn as <-. simpl. apply lookup_insert_ne. exact Hne. }
  unfold update_event_registration_count in H.
  destruct op; [inv_ok H| |]; eauto.
Qed.

Lemma for_each_trigger_keeps_other_events now op e : forall eids d d',
  for_each_row (update_event_registration_count now op) eids d = Ok d' ->
  ~ In e eids -> events d' !! e = events d !! e.
Proof.
  induction eids as [|x eids IH]; intros d d' H Hnin.
  - injection H as <-. reflexivity.
  - rewrite for_each_row_cons in H. apply bind_Ok in H.
    destruct H as (d1 & Hstep & H).
    rewrite (IH _ _ H) by (intros Hin; apply Hnin; right; exact Hin).
    eapply trigger_keeps_other_events; [exact Hstep|].
    intros ->. apply Hnin. left. reflexivity.
Qed.

Lemma for_each_trigger_past_event_fails now op e ev : forall eids d,
  In e eids -> events d !! e = Some ev -> date_time ev <= now ->
  exists ex,
    for_each_row (update_event_registration_count now op) eids d = Exception ex.
Proof.
  induction eids as [|x eids IH]; intros d Hin Hev Hpast; [destruct Hin|].
  rewrite for_each_row_cons.
  destruct (update_event_registration_count now op x d) as [d1|ex] eqn:Hstep;
    [|simpl; eauto].
  cbn [Pg.bind]. destruct (decide (x = e)) as [->|Hne].
  - destruct (trigger_past_event_fails now op d e ev Hev Hpast) as (ex & Hex).
    congruence.
  - apply IH; [|rewrite (trigger_keeps_other_events _ _ _ _ _ e Hstep Hne);
                 exact Hev | exact Hpast].
    destruct Hin as [?|?]; [contradiction | assumption].
Qed.

Lemma delete_past_registration_fails now p d r ev :
  In r (registrations d) -> p r = true ->
  events d !! event_id r = Some ev -> date_time ev <= now ->
  exists ex, delete_registrations now p d = Exception ex.
Proof.
  intros Hin Hp Hev Hpast. unfold delete_registrations.
  eapply for_each_trigger_past_event_fails; [|exact Hev|exact Hpast].
  apply in_map. apply filter_In. auto.
Qed.

Lemma delete_event_keeps_the_rest now x d d' :
  delete_event now x d = Ok d' ->
  (forall e, e <> x -> events d' !! e = events d !! e) /\
  (forall r, In r (registrations d) -> event_id r <> x -> In r (registrations d')).
Proof.
  unfold delete_event. intros H. split.
  - intros e Hne. unfold delete_registrations in H.
    rewrite (for_each_trigger_keeps_other_events _ _ e _ _ _ H).
    + simpl. apply lookup_delete_ne. congruence.
    + intros Hin. apply in_map_iff in Hin. destruct Hin as (r & <- & Hr).
      apply filter_In in Hr. destruct Hr as [_ Hr]. lia.
  - intros r Hin Hne. apply delete_registrations_Ok in H. rewrite H.
    apply filter_In. split; [exact Hin|].
    replace (event_id r =? x) with false by lia. reflexivity.
Qed.

Lemma for_each_delete_event_keeps_the_rest now : forall xs d d',
  for_each_row (delete_event now) xs d = Ok d' ->
  (forall e, ~ In e xs -> events d' !! e = events d !! e) /\
  (forall r, In r (registrations d) -> ~ In (event_id r) xs ->
             In r (registrations d')).
Proof.
  induction xs as [|x xs IH]; intros d d' H.
  - injection H as <-. auto.
  - rewrite for_each_row_cons in H. apply bind_Ok in H.
    destruct H as (d1 & Hdel & H).
    apply delete_event_keeps_the_rest in Hdel. destruct Hdel as [He Hr].
    apply IH in H. destruct H as [He' Hr']. split.
    + intros e Hnin. rewrite He' by (intros ?; apply Hnin; right; assumption).
      apply He. intros ->. apply Hnin. left. reflexivity.
    + intros r Hin Hnin. apply Hr'.
      * apply Hr; [exact Hin|]. intros Heq. apply Hnin. left. auto.
      * intros ?. apply Hnin. right. assumption.
Qed.

(** X27.  Once an event has taken place its row can no longer be written,
    so its registrations are frozen.  While the event row exists, a DELETE
    of any of its registrations raises (the row trigger's UPDATE of the
    counter is refused by [validate_event_date]) and is rolled back; and a
    user who holds a registration, of whatever status, for a past event of
    somebody else cannot be deleted: [DELETE FROM users] fails in the
    cascade and the store stays as it was. *)
Theorem past_registrations_cannot_be_deleted (now u e : Z) (d : db) (ev : event)
    (r : registration) :
  events d !! e = Some ev -> date_time ev <= now ->
  In r (registrations d) -> user_id r = u -> event_id r = e ->
  (exists ex, delete_registrations now (row_of u e) d = Exception ex) /\
  run now (sql_delete_registration u e) d = d /\
  (created_by ev <> u ->
   (exists ex, delete_user now u d = Exception ex) /\
   run now (op_delete_user u) d = d).
Proof.
  intros Hev Hpast Hin Hu He.
  assert (Hdel : exists ex, delete_registrations now (row_of u e) d = Exception ex).
  { eapply (delete_past_registration_fails now _ d r ev); auto.
    - unfold row_of. rewrite Hu, He, !Z.eqb_refl. reflexivity.
    - rewrite He. exact Hev. }
  split; [exact Hdel|]. split.
  { simpl. destruct Hdel as (ex & ->). reflexivity. }
  intros Hown.
  assert (Huser : exists ex, delete_user now u d = Exception ex).
  { unfold delete_user.
    set (owned := List.filter (fun '(_, e0) => created_by e0 =? u)
                              (map_to_list (events d))).
    destruct (for_each_row (delete_event now) (List.map fst owned)
                (with_users (delete u (users d)) d)) as [d1|ex] eqn:Hcascade;
      [|simpl; eauto].
    cbn [Pg.bind].
    assert (Hnot : ~ In e (List.map fst owned)).
    { intros Hx. apply in_map_iff in Hx. destruct Hx as ([i ev0] & Hi & Hx).
      simpl in Hi. subst i. apply filter_In in Hx. destruct Hx as [Hx Hc].
      apply list_elem_of_In, elem_of_map_to_list in Hx.
      assert (ev0 = ev) as -> by congruence. lia. }
    apply for_each_delete_event_keeps_the_rest in Hcascade.
    destruct Hcascade as [Hevs Hrows].
    eapply (delete_past_registration_fails now _ d1 r ev).
    - apply Hrows; [exact Hin|]. rewrite He. exact Hnot.
    - lia.
    - rewrite He, (Hevs e Hnot). exact Hev.
    - exact Hpast. }
  split; [exact Huser|]. simpl. destruct Huser as (ex & ->). reflexivity.
Qed.

Lemma past_registrations_cannot_be_deleted_witness :
  run (T0 + 15 * day) (op_delete_user 2)
      (Register T0 2 7 (store 3)).2
  = (Register T0 2 7 (store 3)).2.
Proof.
  refine (proj2 (proj2 (proj2 (past_registrations_cannot_be_deleted
            (T0 + 15 * day) 2 7 (Register T0 2 7 (store 3)).2
            (rewritten 1 (conference 3))
            (mkRegistration 1 2 7 T0 confirmed) _ _ _ _ _)) _)).
  - reflexivity.
  - vm_compute. discriminate.
  - left. reflexivity.
  - reflexivity.
  - reflexivity.
  - vm_compute. discriminate.
Defined.

(** ** Deleting an event *)

Lemma trigger_missing_event now e d :
  events d !! e = None ->
  update_event_registration_count now DELETE e d = Ok d.
Proof.
  intros H. unfold update_event_registration_count, update_current_registrations.
  rewrite H. reflexivity.
Qed.

Lemma for_each_trigger_missing_event now e d : forall eids,
  events d !! e = None -> Forall (fun x => x = e) eids ->
  for_each_row (update_event_registration_count now DELETE) eids d = Ok d.
Proof.
  induction eids as [|x eids IH]; intros He Hall; [reflexivity|].
  rewrite for_each_row_cons. apply Forall_cons in Hall. destruct Hall as [-> Hall].
  rewrite trigger_missing_event by exact He. cbn [Pg.bind]. apply IH; assumption.
Qed.

(** X28.  [DELETE FROM events WHERE id = e] always goes through, for a past
    event as for an upcoming one: it removes the event and, by the cascade,
    exactly the registrations of that event, and leaves the users, the other
    events, the other registrations and both sequences as they were.  The
    row trigger of the cascaded deletes finds no event row to update. *)
Theorem delete_event_always_succeeds (now e : Z) (d : db) :
  delete_event now e d =
    Ok (mkDb (users d) (delete e (events d))
             (List.filter (fun r => negb (event_id r =? e)) (registrations d))
             (events_id_seq d) (registrations_id_seq d)).
Proof.
  unfold delete_event, delete_registrations.
  rewrite (for_each_trigger_missing_event now e); [reflexivity| |].
  - simpl. apply lookup_delete_eq.
  - apply Forall_forall. intros x Hx. apply list_elem_of_In, in_map_iff in Hx.
    destruct Hx as (r & <- & Hr). apply filter_In in Hr. lia.
Qed.

(** ** Register after Cancel (C10) *)

Lemma storable_rewritten n ev : storable ev -> storable (rewritten n ev).
Proof.
  intros (Ht & Hlen & Hloc & Hdesc & Hcap).
  pose proof (opt_length_blank (location ev)).
  pose proof (opt_length_blank (description ev)).
  unfold storable, rewritten. simpl. repeat split; try assumption; lia.
Qed.

(** C10, as stated, fails: a Register that follows a successful Cancel does
    not always take the Created path.  Once the event has started it is
    answered EventPast (400), as the handler and
    [safe_event_registration] intend. *)
Lemma register_after_cancel_can_be_refused :
  let d1 := (Register T0 2 7 (store 3)).2 in
  let d2 := (Cancel T0 2 2 7 d1).2 in
  Cancel T0 2 2 7 d1 = (Cancelled, d2) /\
  rows_of 2 7 d2 = [] /\
  Register (T0 + 15 * day) 2 7 d2 = (EventPast, d2) /\
  register_status_code (Register (T0 + 15 * day) 2 7 d2).1 = 400.
Proof.
  cbv zeta. split; [reflexivity|]. split; [reflexivity|].
  split; reflexivity.
Qed.

(** C10, amended.  A successful Cancel deletes the registration: afterwards
    the store has no row for ([u], [e]).  From then on, whatever requests,
    cascades and statements follow, as long as none of them is a direct
    INSERT of a row with status [cancelled], a Register request for ([u],
    [e]) never takes the reactivation branch: its outcome is not
    Reactivated, its status code is not 200, and when it succeeds it is
    Created (201).  In any store whatsoever, a Register request that answers
    Reactivated found a row with status [cancelled] for that user and event,
    and no operation other than that direct INSERT adds such a row.  And the
    Register that follows the Cancel does take the Created path when the
    event was not full and its counter matched before the Cancel, the
    cancelled registration was the confirmed registration of [u], [u] is an
    active user and the event is still to come: it is answered Created
    (201) with a new id, the new row is the one row of [u] for [e], and the
    counter is back at its value before the Cancel. *)
Theorem cancel_deletes_the_registration (now actor : Z) (adm : bool) (u e : Z)
    (d d' : db) :
  cancelRegistration now actor adm u e d = (Cancelled, d') ->
  rows_of u e d' = [] /\
  (forall history now' req body,
     forallb (fun '(_, op) => negb (inserts_cancelled op)) history = true ->
     target_user req body = u ->
     let o := (registerForEvent now' req body e (run_all history d')).1 in
     (forall rid, o <> Reactivated rid) /\
     register_status_code o <> 200 /\
     (succeeded o = true -> exists rid, o = Created rid)) /\
  (forall d0 now' req body e' rid,
     (registerForEvent now' req body e' d0).1 = Reactivated rid ->
     exists r, In r (registrations d0) /\ user_id r = target_user req body /\
               event_id r = e' /\ status r = cancelled) /\
  (forall now' op d0 r,
     inserts_cancelled op = false ->
     In r (registrations (run now' op d0)) -> status r = cancelled ->
     In r (registrations d0)) /\
  (forall ev r now',
     events d !! e = Some ev -> storable ev ->
     current_registrations ev = count_confirmed (registrations d) e ->
     current_registrations ev < capacity ev ->
     rows_of u e d = [r] -> status r = confirmed ->
     active_user u d = true -> now' < date_time ev ->
     (Register now' u e d').1 = Created (registrations_id_seq d) /\
     register_status_code (Register now' u e d').1 = 201 /\
     rows_of u e (Register now' u e d').2
       = [mkRegistration (registrations_id_seq d) u e now' confirmed] /\
     event_counter e (Register now' u e d').2 = Some (current_registrations ev)).
Proof.
  intros H. pose proof H as Hcancel.

  assert (Hfound : forall d0 now' req body e' rid,
     (registerForEvent now' req body e' d0).1 = Reactivated rid ->
     exists r, In r (registrations d0) /\ user_id r = target_user req body /\
               event_id r = e' /\ status r = cancelled).
  { intros d0 now' req body e' rid Hre.
    apply registerForEvent_Reactivated in Hre.
    destruct Hre as (r & rest & Hrows & Hst). exists r.
    assert (Hin : In r (List.filter (row_of (target_user req body) e')
                                    (registrations d0)))
      by (rewrite Hrows; apply in_eq).
    apply filter_In in Hin. destruct Hin as [Hin Hrow].
    unfold row_of in Hrow. apply andb_true_iff in Hrow.
    repeat split; [exact Hin | lia | lia | exact Hst]. }
  apply cancelRegistration_Cancelled in H. destruct H as (ev & _ & _ & Hdel).
  apply delete_registrations_Ok in Hdel.
  assert (Hgone : rows_of u e d' = []).
  { unfold rows_of. rewrite Hdel. clear.
    induction (registrations d) as [|r rs IH]; simpl; [reflexivity|].
    destruct (row_of u e r) eqn:Hr; simpl; [exact IH|]. rewrite Hr. exact IH. }
  assert (Hnever : forall history now' req body rid,
     forallb (fun '(_, op) => negb (inserts_cancelled op)) history = true ->
     target_user req body = u ->
     (registerForEvent now' req body e (run_all history d')).1 <> Reactivated rid).
  { intros history now' req body rid Hops Hu Hre.
    apply Hfound in Hre. destruct Hre as (r & Hin & Hur & Her & Hst).
    eapply run_all_cancelled_rows in Hin; [|exact Hops|exact Hst].
    assert (Hin' : In r (rows_of u e d')).
    { apply filter_In. split; [exact Hin|]. unfold row_of.
      apply andb_true_iff. split; lia. }
    rewrite Hgone in Hin'. destruct Hin'. }
  split; [exact Hgone|]. split; [|split; [exact Hfound|split]].
  - intros history now' req body Hops Hu o.
    assert (Hnot : forall rid, o <> Reactivated rid)
      by (intros rid; apply Hnever; assumption).
    split; [exact Hnot|].
    destruct o as [rid|rid| | | | |]; simpl; split;
      try lia; try discriminate; eauto.
    + exfalso. eapply Hnot. reflexivity.
    + exfalso. eapply Hnot. reflexivity.
  - intros. eapply run_cancelled_rows; eassumption.
  - intros ev0 r now' Hev Hst Hcnt Hroom Hrows Hconf Hu Hfut.
    assert (Hpre : negb (u =? actor) && negb adm = false /\
                   is_active ev0 = true /\ now < date_time ev0).
    { unfold cancelRegistration, select_active_event in Hcancel.
      destruct (negb (u =? actor) && negb adm); [discriminate|].
      rewrite Hev in Hcancel. destruct (is_active ev0); [|discriminate].
      destruct (date_time ev0 <=? now) eqn:Hpast; [discriminate|].
      repeat split. lia. }
    destruct Hpre as (Hguard & Hact & Hnow).
    rewrite (cancelRegistration_deletes now actor adm u e d ev0 r) in Hcancel
      by (try assumption; lia).
    injection Hcancel as Hd'.
    assert (Hseat : seat r = 1) by (unfold seat; rewrite Hconf; reflexivity).
    unfold active_user in Hu.
    destruct (users d !! u) as [usr|] eqn:Husr; [|discriminate].
    pose proof (count_confirmed_split (row_of u e) (registrations d) e) as Hsplit.
    unfold rows_of in Hrows. rewrite Hrows in Hsplit.
    assert (Hre : event_id r = e).
    { assert (Hin : In r (List.filter (row_of u e) (registrations d)))
        by (rewrite Hrows; left; reflexivity).
      apply filter_In in Hin. destruct Hin as [_ Hrow].
      unfold row_of in Hrow. apply andb_true_iff in Hrow. lia. }
    rewrite (count_confirmed_single r e Hre) in Hsplit.
    rewrite (Register_creates now' u e d'
               (rewritten (current_registrations ev0 - seat r) ev0) usr).
    + cbn [fst snd]. rewrite <- Hd'.
      cbn [registrations_id_seq registrations events rewritten
           current_registrations]. split; [reflexivity|].
      split; [reflexivity|]. split.
      * unfold rows_of. cbn [registrations]. rewrite List.filter_app.
        unfold other_rows. rewrite filter_filter_negb. cbn [List.filter app].
        rewrite row_of_new. reflexivity.
      * unfold event_counter. cbn [events]. rewrite lookup_insert_eq.
        cbn [fmap option_fmap option_map rewritten current_registrations].
        f_equal. lia.
    + rewrite <- Hd'. cbn [events]. apply lookup_insert_eq.
    + exact Hact.
    + exact Hfut.
    + apply storable_rewritten, Hst.
    + rewrite <- Hd'. exact Husr.
    + exact Hu.
    + exact Hgone.
    + rewrite <- Hd'. cbn [registrations rewritten current_registrations].
      unfold other_rows. lia.
    + cbn [rewritten current_registrations capacity]. lia.
Qed.

Lemma cancel_deletes_the_registration_witness :
  let d1 := (Register T0 2 7 (store 3)).2 in
  let d2 := (Cancel T0 2 2 7 d1).2 in
  rows_of 2 7 d2 = [] /\
  (Register (T0 + hour) 2 7 d2).1 = Created 2 /\
  rows_of 2 7 (Register (T0 + hour) 2 7 d2).2
    = [mkRegistration 2 2 7 (T0 + hour) confirmed] /\
  event_counter 7 (Register (T0 + hour) 2 7 d2).2 = Some 1.
Proof.
  cbv zeta.
  destruct (cancel_deletes_the_registration T0 2 false 2 7
              (Register T0 2 7 (store 3)).2
              (Cancel T0 2 2 7 (Register T0 2 7 (store 3)).2).2 eq_refl)
    as (Hgone & _ & _ & _ & Hcreated).
  split; [exact Hgone|].
  destruct (Hcreated (rewritten 1 (conference 3))
              (mkRegistration 1 2 7 T0 confirmed) (T0 + hour))
    as (Ho & _ & Hrow & Hc); try reflexivity.
  - repeat split; vm_compute; congruence.
  - split; [exact Ho|]. split; [exact Hrow | exact Hc].
Defined.
